(** * Synchronous replication commit gate (src/backend/replication/syncrep.c)

    A shallow embedding of the wait/release machinery of syncrep.c: the
    per-mode wait queues ordered by LSN, the session side
    ([SyncRepWaitForLSN]), the sender side ([SyncRepReleaseWaiters],
    [SyncRepWakeQueue]) and the configuration watcher
    ([SyncRepUpdateSyncStandbysDefined]).

    Shared memory is threaded explicitly through every function.  The
    sections that the C code runs under [SyncRepLock] are atomic steps of the
    model; the places where a session sleeps on its latch are the only
    points at which other processes are interleaved. *)

From Stdlib Require Import ZArith List Bool Lia Arith Ascii String.
Import ListNotations.
Local Open Scope string_scope.
Local Open Scope list_scope.
Local Open Scope Z_scope.

(** ** Data model *)

(** [XLogRecPtr] is an unsigned 64-bit log position.  The module only
    stores and compares positions, it never does arithmetic on them, so a
    position is a [Z] and the C comparisons are [Z.ltb] and [Z.leb]. *)
Definition XLogRecPtr := Z.

(** Modelled from the spec: access/xlogdefs.h is not among the sources; the
    invalid position is the reserved LSN 0. *)
Definition InvalidXLogRecPtr : XLogRecPtr := 0.

Definition XLogRecPtrIsInvalid (r : XLogRecPtr) : bool := r =? InvalidXLogRecPtr.

(** syncRepState of a PGPROC. *)
Inductive SyncRepState :=
| SYNC_REP_NOT_WAITING
| SYNC_REP_WAITING
| SYNC_REP_WAIT_COMPLETE.

(** The two modes that own a queue: the indices 0 and 1 of
    [WalSndCtl->SyncRepQueue] and [WalSndCtl->lsn]
    (NUM_SYNC_REP_WAIT_MODE = 2).  [SyncRepWaitMode] is an
    [option WaitMode]; [None] stands for SYNC_REP_NO_WAIT. *)
Inductive WaitMode :=
| SYNC_REP_WAIT_WRITE
| SYNC_REP_WAIT_FLUSH.

Definition WaitMode_eqb (a b : WaitMode) : bool :=
  match a, b with
  | SYNC_REP_WAIT_WRITE, SYNC_REP_WAIT_WRITE => true
  | SYNC_REP_WAIT_FLUSH, SYNC_REP_WAIT_FLUSH => true
  | _, _ => false
  end.

Definition other_mode (m : WaitMode) : WaitMode :=
  match m with
  | SYNC_REP_WAIT_WRITE => SYNC_REP_WAIT_FLUSH
  | SYNC_REP_WAIT_FLUSH => SYNC_REP_WAIT_WRITE
  end.

Inductive WalSndState :=
| WALSNDSTATE_STARTUP
| WALSNDSTATE_BACKUP
| WALSNDSTATE_CATCHUP
| WALSNDSTATE_STREAMING
| WALSNDSTATE_STOPPING
| WALSNDSTATE_EXITING.

Inductive LWLockMode := LW_EXCLUSIVE | LW_SHARED.

Inductive ErrLevel := DEBUG1 | LOG | WARNING | FATAL.

Inductive CommandDest := DestNone | DestDebug | DestRemote.

(** The user-visible reports of the module. *)
Inductive Report :=
| MsgCancelWaitTerminating   (* "canceling the wait for synchronous replication and terminating connection ..." *)
| MsgIgnoreQueryCancel       (* "ignoring query cancel request for synchronous replication ..." *)
| MsgNowSyncStandby          (* "standby ... is now the synchronous standby with priority ..." *)
| MsgStandbyPriority.        (* "standby ... now has synchronous standby priority ..." *)

(** The fields of a PGPROC the module touches.  The intrusive
    [syncRepLinks] are represented by membership in a queue of the control
    block (see [SyncRepQueue] below); [procLatch] is the latch's is_set
    flag. *)
Record PGPROC := mkPGPROC {
  pid : Z;
  waitLSN : XLogRecPtr;
  syncRepState : SyncRepState;
  procLatch : bool
}.

(** The fields of a WalSnd slot the module reads. *)
Record WalSnd := mkWalSnd {
  walsnd_pid : Z;
  walsnd_state : WalSndState;
  write : XLogRecPtr;
  flush : XLogRecPtr;
  sync_standby_priority : Z;
  caughtup_within_range : bool
}.

(** What other processes and the client can observe, in program order. *)
Inductive Event :=
| EvLWLockAcquire (m : LWLockMode)
| EvLWLockRelease
| EvSetLatch (procno : nat)
| EvStoreLsn (mode : WaitMode) (v : XLogRecPtr)
| EvStoreSyncStandbysDefined (b : bool)
| EvReport (lvl : ErrLevel) (msg : Report).

(** Shared memory.  A PGPROC or a WalSnd is identified by its index in
    [ProcGlobal->allProcs] and [WalSndCtl->walsnds]; a pointer to one is that
    index.

    Modelled from the spec: storage/shmqueue.c is not among the sources.  A
    SHM_QUEUE is represented by the sequence of the PGPROCs linked into it,
    from head to tail; a PGPROC is detached when it occurs in no queue.

    [max_wal_senders] is the length of the sender array, [SyncRepLock] the
    mode in which the lock is held, if it is, and [trace] the events so
    far. *)
Record Shared := mkShared {
  allProcs : nat -> PGPROC;
  SyncRepQueue : WaitMode -> list nat;
  lsn : WaitMode -> XLogRecPtr;
  sync_standbys_defined : bool;
  walsnds : nat -> WalSnd;
  max_wal_senders : nat;
  SyncRepLock : option LWLockMode;
  trace : list Event
}.

(** ** Stores into shared memory *)

Definition upd {A} (f : nat -> A) (i : nat) (x : A) : nat -> A :=
  fun j => if Nat.eqb j i then x else f j.

Definition upd_mode {A} (f : WaitMode -> A) (m : WaitMode) (x : A) : WaitMode -> A :=
  fun k => if WaitMode_eqb k m then x else f k.

Definition set_allProcs (ps : nat -> PGPROC) (sh : Shared) : Shared :=
  mkShared ps (SyncRepQueue sh) (lsn sh) (sync_standbys_defined sh)
           (walsnds sh) (max_wal_senders sh) (SyncRepLock sh) (trace sh).

Definition set_SyncRepQueue (q : WaitMode -> list nat) (sh : Shared) : Shared :=
  mkShared (allProcs sh) q (lsn sh) (sync_standbys_defined sh)
           (walsnds sh) (max_wal_senders sh) (SyncRepLock sh) (trace sh).

Definition set_lsn (l : WaitMode -> XLogRecPtr) (sh : Shared) : Shared :=
  mkShared (allProcs sh) (SyncRepQueue sh) l (sync_standbys_defined sh)
           (walsnds sh) (max_wal_senders sh) (SyncRepLock sh) (trace sh).

Definition set_sync_standbys_defined (b : bool) (sh : Shared) : Shared :=
  mkShared (allProcs sh) (SyncRepQueue sh) (lsn sh) b
           (walsnds sh) (max_wal_senders sh) (SyncRepLock sh) (trace sh).

Definition set_walsnds (w : nat -> WalSnd) (sh : Shared) : Shared :=
  mkShared (allProcs sh) (SyncRepQueue sh) (lsn sh) (sync_standbys_defined sh)
           w (max_wal_senders sh) (SyncRepLock sh) (trace sh).

Definition set_SyncRepLock (l : option LWLockMode) (sh : Shared) : Shared :=
  mkShared (allProcs sh) (SyncRepQueue sh) (lsn sh) (sync_standbys_defined sh)
           (walsnds sh) (max_wal_senders sh) l (trace sh).

Definition emit (e : Event) (sh : Shared) : Shared :=
  mkShared (allProcs sh) (SyncRepQueue sh) (lsn sh) (sync_standbys_defined sh)
           (walsnds sh) (max_wal_senders sh) (SyncRepLock sh) (trace sh ++ [e]).

Definition set_waitLSN (p : nat) (l : XLogRecPtr) (sh : Shared) : Shared :=
  let pr := allProcs sh p in
  set_allProcs (upd (allProcs sh) p
                    (mkPGPROC (pid pr) l (syncRepState pr) (procLatch pr))) sh.

Definition set_syncRepState (p : nat) (s : SyncRepState) (sh : Shared) : Shared :=
  let pr := allProcs sh p in
  set_allProcs (upd (allProcs sh) p
                    (mkPGPROC (pid pr) (waitLSN pr) s (procLatch pr))) sh.

Definition set_procLatch (p : nat) (b : bool) (sh : Shared) : Shared :=
  let pr := allProcs sh p in
  set_allProcs (upd (allProcs sh) p
                    (mkPGPROC (pid pr) (waitLSN pr) (syncRepState pr) b)) sh.

Definition set_priority (w : nat) (prio : Z) (sh : Shared) : Shared :=
  let ws := walsnds sh w in
  set_walsnds (upd (walsnds sh) w
                   (mkWalSnd (walsnd_pid ws) (walsnd_state ws) (write ws)
                             (flush ws) prio (caughtup_within_range ws))) sh.

(** ** Primitives the module calls *)

(** Modelled from the spec: storage/lwlock.c is not among the sources.  The
    lock covers the queues, the released LSNs, the priorities and the
    sync_standbys_defined flag; the model records who holds it and logs the
    acquisition and the release. *)
Definition LWLockAcquire (m : LWLockMode) (sh : Shared) : Shared :=
  emit (EvLWLockAcquire m) (set_SyncRepLock (Some m) sh).

Definition LWLockRelease (sh : Shared) : Shared :=
  emit EvLWLockRelease (set_SyncRepLock None sh).

(** Modelled from the spec: storage/latch.c is not among the sources.
    SetLatch raises the owner's wake flag and signals it, ResetLatch clears
    the flag. *)
Definition SetLatch (p : nat) (sh : Shared) : Shared :=
  emit (EvSetLatch p) (set_procLatch p true sh).

Definition ResetLatch (p : nat) (sh : Shared) : Shared :=
  set_procLatch p false sh.

(** The line a report leaves in the log. *)
Definition report (lvl : ErrLevel) (msg : Report) (sh : Shared) : Shared :=
  emit (EvReport lvl msg) sh.

(** Where control is when ereport is over. *)
Inductive Raised :=
| Continues (sh : Shared)   (* ereport has returned to the statement after it *)
| Exits (sh : Shared).      (* the process has ended inside ereport *)

(** Modelled from the spec: utils/elog.h is not among the sources.  ereport
    emits the report at the given severity; a FATAL report ends the
    process, so control never reaches the statement after it, while a report
    at a lower severity returns. *)
Definition ereport (lvl : ErrLevel) (msg : Report) (sh : Shared) : Raised :=
  let sh := report lvl msg sh in
  match lvl with
  | FATAL => Exits sh
  | _ => Continues sh
  end.

(** Shared memory as ereport leaves it. *)
Definition after (r : Raised) : Shared :=
  match r with
  | Continues sh => sh
  | Exits sh => sh
  end.

(** SHMQueueIsDetached(&proc->syncRepLinks) *)
Definition SHMQueueIsDetached (p : nat) (sh : Shared) : bool :=
  negb (existsb (Nat.eqb p) (SyncRepQueue sh SYNC_REP_WAIT_WRITE))
  && negb (existsb (Nat.eqb p) (SyncRepQueue sh SYNC_REP_WAIT_FLUSH)).

Definition unlink (p : nat) (q : list nat) : list nat :=
  filter (fun x => negb (Nat.eqb x p)) q.

(** SHMQueueDelete(&proc->syncRepLinks): unlink the PGPROC from the queue it
    is in. *)
Definition SHMQueueDelete (p : nat) (sh : Shared) : Shared :=
  set_SyncRepQueue (fun m => unlink p (SyncRepQueue sh m)) sh.

(** Every PGPROC is linked at most once, into at most one queue. *)
Definition queues_wf (sh : Shared) : Prop :=
  NoDup (SyncRepQueue sh SYNC_REP_WAIT_WRITE ++ SyncRepQueue sh SYNC_REP_WAIT_FLUSH).

(** ** SyncRepQueueIsOrderedByLSN *)

(** The walk from the head; [proc] is the part of the queue from the
    current node to the tail ([nil] when the C pointer is NULL). *)
Fixpoint SyncRepQueueIsOrderedByLSN_loop (procs : nat -> PGPROC)
         (proc : list nat) (lastLSN : XLogRecPtr) : bool :=
  match proc with
  | [] => true
  | p :: next =>
      if waitLSN (procs p) <? lastLSN then false
      else SyncRepQueueIsOrderedByLSN_loop procs next (waitLSN (procs p))
  end.

Definition SyncRepQueueIsOrderedByLSN (mode : WaitMode) (sh : Shared) : bool :=
  SyncRepQueueIsOrderedByLSN_loop (allProcs sh) (SyncRepQueue sh mode) 0.

(** ** SyncRepWakeQueue *)

(** The loop of SyncRepWakeQueue.  [proc] is the queue from the current node
    to the tail; [numprocs] counts PGPROCs, of which there are at most
    MaxBackends, so the C int does not overflow. *)
Fixpoint SyncRepWakeQueue_loop (all : bool) (mode : WaitMode) (proc : list nat)
         (sh : Shared) (numprocs : Z) : Shared * Z :=
  match proc with
  | [] => (sh, numprocs)
  | thisproc :: next =>
      if negb all && (lsn sh mode <? waitLSN (allProcs sh thisproc))
      then (sh, numprocs)
      else
        let sh := SHMQueueDelete thisproc sh in
        let sh := set_syncRepState thisproc SYNC_REP_WAIT_COMPLETE sh in
        let sh := SetLatch thisproc sh in
        SyncRepWakeQueue_loop all mode next sh (numprocs + 1)
  end.

Definition SyncRepWakeQueue (all : bool) (mode : WaitMode) (sh : Shared) : Shared * Z :=
  SyncRepWakeQueue_loop all mode (SyncRepQueue sh mode) sh 0.

(** ** Process-local state *)

(** The globals of a session backend that SyncRepWaitForLSN reads and
    writes.  [Gp_role_dispatch] is IS_QUERY_DISPATCHER(), [InSIGUSR1Handler]
    is AmIInSIGUSR1Handler(); [ProcDiePending] and [QueryCancelPending] are
    the flags raised by the signal handlers. *)
Record Backend := mkBackend {
  MyProc : nat;
  SyncRepWaitMode : option WaitMode;
  Gp_role_dispatch : bool;
  InSIGUSR1Handler : bool;
  ProcDiePending : bool;
  QueryCancelPending : bool;
  whereToSendOutput : CommandDest
}.

Definition set_ProcDiePending (v : bool) (b : Backend) : Backend :=
  mkBackend (MyProc b) (SyncRepWaitMode b) (Gp_role_dispatch b) (InSIGUSR1Handler b)
            v (QueryCancelPending b) (whereToSendOutput b).

Definition set_QueryCancelPending (v : bool) (b : Backend) : Backend :=
  mkBackend (MyProc b) (SyncRepWaitMode b) (Gp_role_dispatch b) (InSIGUSR1Handler b)
            (ProcDiePending b) v (whereToSendOutput b).

Definition set_whereToSendOutput (d : CommandDest) (b : Backend) : Backend :=
  mkBackend (MyProc b) (SyncRepWaitMode b) (Gp_role_dispatch b) (InSIGUSR1Handler b)
            (ProcDiePending b) (QueryCancelPending b) d.

Definition set_SyncRepWaitMode (m : option WaitMode) (b : Backend) : Backend :=
  mkBackend (MyProc b) m (Gp_role_dispatch b) (InSIGUSR1Handler b)
            (ProcDiePending b) (QueryCancelPending b) (whereToSendOutput b).

(** The globals of a WAL sender process: its slot, the static
    [announce_next_takeover], and the two settings the priority is
    documented to depend on. *)
Record WalSender := mkWalSender {
  MyWalSnd : nat;
  announce_next_takeover : bool;
  application_name : string;
  SyncRepStandbyNames : option string
}.

Definition set_announce_next_takeover (v : bool) (w : WalSender) : WalSender :=
  mkWalSender (MyWalSnd w) v (application_name w) (SyncRepStandbyNames w).

(** SyncStandbysDefined(): the setting is not NULL and its first character
    is not NUL.  [None] is the NULL pointer; a [string] holds the characters
    before the terminating NUL. *)
Definition SyncStandbysDefined (names : option string) : bool :=
  match names with
  | Some (String _ _) => true
  | _ => false
  end.

(** ** SyncRepQueueInsert *)

(** The backward walk from the tail.  [proc] lists the nodes from the
    current one back to the head ([nil] when the C pointer is NULL);
    [passed] lists, in queue order, the nodes the walk has gone past.  The
    result is the queue after SHMQueueInsertAfter. *)
Fixpoint SyncRepQueueInsert_walk (procs : nat -> PGPROC) (my : nat)
         (proc : list nat) (passed : list nat) : list nat :=
  match proc with
  | [] => my :: passed
  | p :: prev =>
      if waitLSN (procs p) <? waitLSN (procs my)
      then rev (p :: prev) ++ my :: passed
      else SyncRepQueueInsert_walk procs my prev (p :: passed)
  end.

Definition SyncRepQueueInsert (mode : WaitMode) (b : Backend) (sh : Shared) : Shared :=
  set_SyncRepQueue
    (upd_mode (SyncRepQueue sh) mode
              (SyncRepQueueInsert_walk (allProcs sh) (MyProc b)
                                       (rev (SyncRepQueue sh mode)) []))
    sh.

(** ** SyncRepCancelWait and SyncRepCleanupAtProcExit *)

Definition SyncRepCancelWait (b : Backend) (sh : Shared) : Shared :=
  let sh := LWLockAcquire LW_EXCLUSIVE sh in
  let sh := if negb (SHMQueueIsDetached (MyProc b) sh)
            then SHMQueueDelete (MyProc b) sh else sh in
  let sh := set_syncRepState (MyProc b) SYNC_REP_NOT_WAITING sh in
  LWLockRelease sh.

Definition SyncRepCleanupAtProcExit (b : Backend) (sh : Shared) : Shared :=
  if negb (SHMQueueIsDetached (MyProc b) sh)
  then
    let sh := LWLockAcquire LW_EXCLUSIVE sh in
    let sh := SHMQueueDelete (MyProc b) sh in
    LWLockRelease sh
  else sh.

(** ** SyncRepGetStandbyPriority and SyncRepInitConfig *)

(** The function takes no argument and reads no global: it returns 1. *)
Definition SyncRepGetStandbyPriority (w : WalSender) : Z := 1.

Definition SyncRepInitConfig (w : WalSender) (sh : Shared) : Shared :=
  let priority := SyncRepGetStandbyPriority w in
  if negb (sync_standby_priority (walsnds sh (MyWalSnd w)) =? priority)
  then
    let sh := LWLockAcquire LW_EXCLUSIVE sh in
    let sh := set_priority (MyWalSnd w) priority sh in
    let sh := LWLockRelease sh in
    after (ereport DEBUG1 MsgStandbyPriority sh)
  else sh.

(** Modelled from the spec: the list syntax of synchronous_standby_names
    (SplitIdentifierString) is not among the sources.  The configured list
    is the setting split at commas, blanks dropped. *)
Fixpoint split_names (s : string) (cur : string) : list string :=
  match s with
  | EmptyString => match cur with EmptyString => [] | _ => [cur] end
  | String c rest =>
      if Ascii.eqb c ","%char
      then match cur with
           | EmptyString => split_names rest EmptyString
           | _ => cur :: split_names rest EmptyString
           end
      else if Ascii.eqb c " "%char then split_names rest cur
      else split_names rest (String.append cur (String c EmptyString))
  end.

Definition configured_names (w : WalSender) : list string :=
  match SyncRepStandbyNames w with
  | None => []
  | Some s => split_names s EmptyString
  end.

(** Modelled from the spec: get_standby_priority as the spec words it, the
    1-based position of the sender's identifier in the configured list, 0
    when it is not listed. *)
Fixpoint position_in (name : string) (names : list string) (pos : Z) : Z :=
  match names with
  | [] => 0
  | n :: rest => if String.eqb name n then pos else position_in name rest (pos + 1)
  end.

Definition get_standby_priority_spec (w : WalSender) : Z :=
  position_in (application_name w) (configured_names w) 1.

Definition listed (w : WalSender) : bool :=
  existsb (String.eqb (application_name w)) (configured_names w).

(** ** SyncRepReleaseWaiters *)

Definition is_streaming (s : WalSndState) : bool :=
  match s with WALSNDSTATE_STREAMING => true | _ => false end.

Definition is_stopping (s : WalSndState) : bool :=
  match s with WALSNDSTATE_STOPPING => true | _ => false end.

Definition is_catchup (s : WalSndState) : bool :=
  match s with WALSNDSTATE_CATCHUP => true | _ => false end.

(** The entry test of SyncRepReleaseWaiters: [true] when the function
    returns at once. *)
Definition release_gate_closed (my : WalSnd) : bool :=
  (sync_standby_priority my =? 0)
  || (negb (is_streaming (walsnd_state my)) && negb (is_stopping (walsnd_state my)))
  || XLogRecPtrIsInvalid (flush my).

(** The condition of the election loop's [if], for the running
    [priority]. *)
Definition scan_takes (priority : Z) (walsnd : WalSnd) : bool :=
  negb (walsnd_pid walsnd =? 0)
  && (is_streaming (walsnd_state walsnd) || is_stopping (walsnd_state walsnd))
  && (sync_standby_priority walsnd >? 0)
  && ((priority =? 0) || (priority >? sync_standby_priority walsnd))
  && negb (XLogRecPtrIsInvalid (flush walsnd)).

(** The election loop over [i = 0 .. max_wal_senders - 1]; [syncWalSnd] is
    [None] for the NULL pointer. *)
Fixpoint SyncRepReleaseWaiters_scan (ws : nat -> WalSnd) (idx : list nat)
         (priority : Z) (syncWalSnd : option nat) : Z * option nat :=
  match idx with
  | [] => (priority, syncWalSnd)
  | i :: rest =>
      if scan_takes priority (ws i)
      then SyncRepReleaseWaiters_scan ws rest (sync_standby_priority (ws i)) (Some i)
      else SyncRepReleaseWaiters_scan ws rest priority syncWalSnd
  end.

Definition elected (sh : Shared) : option nat :=
  snd (SyncRepReleaseWaiters_scan (walsnds sh) (seq 0 (max_wal_senders sh)) 0 None).

Definition is_walsnd (syncWalSnd : option nat) (my : nat) : bool :=
  match syncWalSnd with
  | Some i => Nat.eqb i my
  | None => false
  end.

(** The position a sender reports for a mode. *)
Definition reported (mode : WaitMode) (w : WalSnd) : XLogRecPtr :=
  match mode with
  | SYNC_REP_WAIT_WRITE => write w
  | SYNC_REP_WAIT_FLUSH => flush w
  end.

(** One of the two [if (walsndctl->lsn[mode] < MyWalSnd->...)] blocks. *)
Definition release_mode (mode : WaitMode) (my : nat) (sh : Shared) : Shared * Z :=
  if lsn sh mode <? reported mode (walsnds sh my)
  then
    let v := reported mode (walsnds sh my) in
    let sh := emit (EvStoreLsn mode v) (set_lsn (upd_mode (lsn sh) mode v) sh) in
    SyncRepWakeQueue false mode sh
  else (sh, 0).

Definition SyncRepReleaseWaiters (w : WalSender) (sh : Shared) : WalSender * Shared :=
  if release_gate_closed (walsnds sh (MyWalSnd w)) then (w, sh)
  else
    let sh := LWLockAcquire LW_EXCLUSIVE sh in
    let syncWalSnd := elected sh in
    if negb (is_walsnd syncWalSnd (MyWalSnd w))
    then
      let sh := LWLockRelease sh in
      (set_announce_next_takeover true w, sh)
    else
      let '(sh, numwrite) := release_mode SYNC_REP_WAIT_WRITE (MyWalSnd w) sh in
      let '(sh, numflush) := release_mode SYNC_REP_WAIT_FLUSH (MyWalSnd w) sh in
      let sh := LWLockRelease sh in
      if announce_next_takeover w
      then (set_announce_next_takeover false w,
            after (ereport LOG MsgNowSyncStandby sh))
      else (w, sh).

(** ** SyncRepUpdateSyncStandbysDefined *)

(** [for (i = 0; i < NUM_SYNC_REP_WAIT_MODE; i++) SyncRepWakeQueue(true, i)] *)
Definition wake_all_modes (sh : Shared) : Shared :=
  fold_left (fun s i => fst (SyncRepWakeQueue true i s))
            [SYNC_REP_WAIT_WRITE; SYNC_REP_WAIT_FLUSH] sh.

(** [names] is the checkpointer's value of synchronous_standby_names. *)
Definition SyncRepUpdateSyncStandbysDefined (names : option string) (sh : Shared) : Shared :=
  let defined := SyncStandbysDefined names in
  if negb (Bool.eqb defined (sync_standbys_defined sh))
  then
    let sh := LWLockAcquire LW_EXCLUSIVE sh in
    let sh := if negb defined then wake_all_modes sh else sh in
    let sh := emit (EvStoreSyncStandbysDefined defined)
                   (set_sync_standbys_defined defined sh) in
    LWLockRelease sh
  else sh.

(** ** SyncRepWaitForLSN *)

(** The dispatcher's scan for an active standby: [syncStandbyPresent] after
    the loop over [i = 0 .. max_wal_senders - 1], which stops at the first
    sender that qualifies.  The per-sender spinlock only guards against torn
    reads and is not modelled. *)
Fixpoint syncStandbyPresent_scan (ws : nat -> WalSnd) (idx : list nat) : bool :=
  match idx with
  | [] => false
  | i :: rest =>
      let walsnd := ws i in
      let syncStandbyPresent :=
        negb (walsnd_pid walsnd =? 0)
        && (is_streaming (walsnd_state walsnd)
            || (is_catchup (walsnd_state walsnd) && caughtup_within_range walsnd)) in
      if syncStandbyPresent then true else syncStandbyPresent_scan ws rest
  end.

(** The test of the late-acknowledgment fast path (lines 176-177). *)
Definition fast_path (b : Backend) (mode : WaitMode) (XactCommitLSN : XLogRecPtr)
           (sh : Shared) : bool :=
  (negb (Gp_role_dispatch b) && negb (sync_standbys_defined sh))
  || (XactCommitLSN <=? lsn sh mode).

Inductive Entry :=
| Returned (sh : Shared)     (* the function has returned *)
| Enqueued (sh : Shared).    (* MyProc is on the queue, the sleep loop follows *)

(** SyncRepWaitForLSN from its first line to the release of the lock after
    the enqueue.  The process title and the report to the statistics
    collector are not modelled.

    Modelled from the spec: SyncRepRequested() is defined in
    replication/syncrep.h, which is not among the sources; the request is
    absent exactly when the wait mode is SYNC_REP_NO_WAIT. *)
Definition SyncRepWaitForLSN_enter (XactCommitLSN : XLogRecPtr) (b : Backend)
           (sh : Shared) : Entry :=
  if InSIGUSR1Handler b then Returned sh
  else
    match SyncRepWaitMode b with
    | None => Returned sh
    | Some mode =>
        let sh := LWLockAcquire LW_EXCLUSIVE sh in
        if Gp_role_dispatch b
           && negb (syncStandbyPresent_scan (walsnds sh) (seq 0 (max_wal_senders sh)))
        then Returned (LWLockRelease sh)
        else if fast_path b mode XactCommitLSN sh
        then Returned (LWLockRelease sh)
        else
          let sh := set_waitLSN (MyProc b) XactCommitLSN sh in
          let sh := set_syncRepState (MyProc b) SYNC_REP_WAITING sh in
          let sh := SyncRepQueueInsert mode b sh in
          Enqueued (LWLockRelease sh)
    end.

Inductive LoopStep :=
| Break          (* the [for (;;)] loop is left *)
| WaitOnLatch    (* the pass ends in WaitLatch *)
| ProcExit.      (* the process ends inside ereport(FATAL) *)

Definition SyncRepState_eqb (a b : SyncRepState) : bool :=
  match a, b with
  | SYNC_REP_NOT_WAITING, SYNC_REP_NOT_WAITING => true
  | SYNC_REP_WAITING, SYNC_REP_WAITING => true
  | SYNC_REP_WAIT_COMPLETE, SYNC_REP_WAIT_COMPLETE => true
  | _, _ => false
  end.

(** One pass through the body of the [for (;;)] loop.  [alive] is what
    PostmasterIsAlive() answers in this pass.  The fault injector hook of the
    test builds is not modelled.

    With ProcDiePending set the report is a WARNING on the dispatcher and a
    FATAL elsewhere.  The WARNING returns and the three statements after it
    run; the FATAL ends the process inside ereport, so on a session that is
    not the dispatcher those statements never run: the slot is left as it
    is, linked and in SYNC_REP_WAITING, for the exit path of the process. *)
Definition SyncRepWaitForLSN_pass (alive : bool) (b : Backend) (sh : Shared)
  : LoopStep * Backend * Shared :=
  let sh := ResetLatch (MyProc b) sh in
  let syncRepState0 := syncRepState (allProcs sh (MyProc b)) in
  let '(syncRepState1, sh) :=
    if SyncRepState_eqb syncRepState0 SYNC_REP_WAITING
    then
      let sh := LWLockAcquire LW_SHARED sh in
      let s := syncRepState (allProcs sh (MyProc b)) in
      (s, LWLockRelease sh)
    else (syncRepState0, sh) in
  if SyncRepState_eqb syncRepState1 SYNC_REP_WAIT_COMPLETE then (Break, b, sh)
  else if ProcDiePending b
  then
    match ereport (if Gp_role_dispatch b then WARNING else FATAL)
                  MsgCancelWaitTerminating sh with
    | Exits sh => (ProcExit, b, sh)
    | Continues sh =>
        let b := set_whereToSendOutput DestNone b in
        let sh := SyncRepCancelWait b sh in
        (Break, b, sh)
    end
  else
    let '(b, sh) :=
      if QueryCancelPending b
      then (set_QueryCancelPending false b,
            after (ereport WARNING MsgIgnoreQueryCancel sh))
      else (b, sh) in
    if negb alive
    then
      let b := set_ProcDiePending true b in
      let b := set_whereToSendOutput DestNone b in
      let sh := SyncRepCancelWait b sh in
      (Break, b, sh)
    else (WaitOnLatch, b, sh).

(** The statements after the loop. *)
Definition SyncRepWaitForLSN_leave (b : Backend) (sh : Shared) : Shared :=
  let sh := set_syncRepState (MyProc b) SYNC_REP_NOT_WAITING sh in
  set_waitLSN (MyProc b) 0 sh.

(** What happens while the session sleeps in WaitLatch: the signal handlers
    may raise the two pending flags and the other processes act on shared
    memory.  [postmaster_alive] is the answer of PostmasterIsAlive() in the
    pass that leads to this sleep. *)
Record Sleep := mkSleep {
  postmaster_alive : bool;
  die_arrives : bool;
  cancel_arrives : bool;
  others : Shared -> Shared
}.

Definition deliver (s : Sleep) (b : Backend) : Backend :=
  let b := if die_arrives s then set_ProcDiePending true b else b in
  if cancel_arrives s then set_QueryCancelPending true b else b.

(** How a call stands once its schedule is used up. *)
Inductive Outcome :=
| Return (r : Backend * Shared)       (* control is back in the caller *)
| Blocked                             (* the session is still in WaitLatch *)
| ProcExited (r : Backend * Shared).  (* the process ended inside ereport(FATAL) *)

(** The sleep loop against a schedule: each element serves one pass of the
    loop and, when that pass ends in WaitLatch, the sleep after it.  What
    the exit path of an ended process does (proc_exit and its callbacks, of
    which SyncRepCleanupAtProcExit is one) is outside this file and not part
    of the loop. *)
Fixpoint SyncRepWaitForLSN_loop (sched : list Sleep) (b : Backend) (sh : Shared)
  : Outcome :=
  match sched with
  | [] => Blocked
  | s :: rest =>
      match SyncRepWaitForLSN_pass (postmaster_alive s) b sh with
      | (Break, b, sh) => Return (b, sh)
      | (WaitOnLatch, b, sh) => SyncRepWaitForLSN_loop rest (deliver s b) (others s sh)
      | (ProcExit, b, sh) => ProcExited (b, sh)
      end
  end.

Definition SyncRepWaitForLSN (sched : list Sleep) (XactCommitLSN : XLogRecPtr)
           (b : Backend) (sh : Shared) : Outcome :=
  match SyncRepWaitForLSN_enter XactCommitLSN b sh with
  | Returned sh => Return (b, sh)
  | Enqueued sh =>
      match SyncRepWaitForLSN_loop sched b sh with
      | Return (b, sh) => Return (b, SyncRepWaitForLSN_leave b sh)
      | Blocked => Blocked
      | ProcExited r => ProcExited r
      end
  end.

(** ** assign_synchronous_commit *)

Inductive SyncCommitLevel :=
| SYNCHRONOUS_COMMIT_OFF
| SYNCHRONOUS_COMMIT_LOCAL_FLUSH
| SYNCHRONOUS_COMMIT_REMOTE_WRITE
| SYNCHRONOUS_COMMIT_REMOTE_FLUSH.

Definition assign_synchronous_commit (newval : SyncCommitLevel) (b : Backend) : Backend :=
  match newval with
  | SYNCHRONOUS_COMMIT_REMOTE_WRITE => set_SyncRepWaitMode (Some SYNC_REP_WAIT_WRITE) b
  | SYNCHRONOUS_COMMIT_REMOTE_FLUSH => set_SyncRepWaitMode (Some SYNC_REP_WAIT_FLUSH) b
  | _ => set_SyncRepWaitMode None b
  end.

(** ** The operations as steps on shared memory *)

(** Every entry point of the module, and for SyncRepWaitForLSN each of the
    sections between two sleeps, with the local state of the process that
    runs it. *)
Inductive CoreOp :=
| OpWaitEnter (b : Backend) (XactCommitLSN : XLogRecPtr)
| OpWaitPass (b : Backend) (alive : bool)
| OpWaitLeave (b : Backend)
| OpCancelWait (b : Backend)
| OpCleanupAtProcExit (b : Backend)
| OpInitConfig (w : WalSender)
| OpReleaseWaiters (w : WalSender)
| OpUpdateSyncStandbysDefined (names : option string).

Definition entry_shared (e : Entry) : Shared :=
  match e with
  | Returned sh => sh
  | Enqueued sh => sh
  end.

Definition apply_op (sh : Shared) (o : CoreOp) : Shared :=
  match o with
  | OpWaitEnter b l => entry_shared (SyncRepWaitForLSN_enter l b sh)
  | OpWaitPass b alive => snd (SyncRepWaitForLSN_pass alive b sh)
  | OpWaitLeave b => SyncRepWaitForLSN_leave b sh
  | OpCancelWait b => SyncRepCancelWait b sh
  | OpCleanupAtProcExit b => SyncRepCleanupAtProcExit b sh
  | OpInitConfig w => SyncRepInitConfig w sh
  | OpReleaseWaiters w => snd (SyncRepReleaseWaiters w sh)
  | OpUpdateSyncStandbysDefined names => SyncRepUpdateSyncStandbysDefined names sh
  end.

Definition run (ops : list CoreOp) (sh : Shared) : Shared :=
  fold_left apply_op ops sh.

(** A sleep during which the other processes run the operations [ops]. *)
Definition sleep_of (plan : bool * bool * bool * list CoreOp) : Sleep :=
  let '(alive, die, cancel, ops) := plan in
  mkSleep alive die cancel (run ops).

(** ** Vocabulary of the statements *)

(** A waiter is due when the scan must wake it: always under [all], else
    when the high-water mark has reached its waitLSN. *)
Definition due (all : bool) (high_water : XLogRecPtr) (procs : nat -> PGPROC)
           (p : nat) : bool :=
  all || (waitLSN (procs p) <=? high_water).

(** The longest prefix of due waiters, and what follows it. *)
Fixpoint due_prefix (all : bool) (high_water : XLogRecPtr) (procs : nat -> PGPROC)
         (q : list nat) : list nat :=
  match q with
  | [] => []
  | p :: rest =>
      if due all high_water procs p
      then p :: due_prefix all high_water procs rest
      else []
  end.

Fixpoint after_due_prefix (all : bool) (high_water : XLogRecPtr) (procs : nat -> PGPROC)
         (q : list nat) : list nat :=
  match q with
  | [] => []
  | p :: rest =>
      if due all high_water procs p
      then after_due_prefix all high_water procs rest
      else q
  end.

(** A PGPROC after SyncRepWakeQueue has woken it. *)
Definition woken_proc (pr : PGPROC) : PGPROC :=
  mkPGPROC (pid pr) (waitLSN pr) SYNC_REP_WAIT_COMPLETE true.

Definition mem (p : nat) (l : list nat) : bool := existsb (Nat.eqb p) l.

(** Eligibility of a sender in the election: a live slot, streaming or
    stopping, a candidate, with a valid flush position. *)
Definition eligible (walsnd : WalSnd) : bool :=
  negb (walsnd_pid walsnd =? 0)
  && (is_streaming (walsnd_state walsnd) || is_stopping (walsnd_state walsnd))
  && (sync_standby_priority walsnd >? 0)
  && negb (XLogRecPtrIsInvalid (flush walsnd)).

(** [k] wins the election among the first [n] slots of [ws]: it is
    eligible, no eligible slot has a smaller priority number, and of the
    slots with its priority it has the lowest index. *)
Definition wins (ws : nat -> WalSnd) (n : nat) (k : nat) : Prop :=
  (k < n)%nat /\ eligible (ws k) = true /\
  forall j, (j < n)%nat -> eligible (ws j) = true ->
            sync_standby_priority (ws k) < sync_standby_priority (ws j)
            \/ (sync_standby_priority (ws k) = sync_standby_priority (ws j) /\ (k <= j)%nat).

(** What the election loop has established when it reaches index [a]. *)
Definition scan_inv (ws : nat -> WalSnd) (a : nat) (priority : Z)
           (syncWalSnd : option nat) : Prop :=
  match syncWalSnd with
  | None => priority = 0 /\ forall j, (j < a)%nat -> eligible (ws j) = false
  | Some k => priority = sync_standby_priority (ws k) /\ wins ws a k
  end.

(** Modelled from the spec: the insertion the spec describes for equal
    keys, with the newcomer after the entries whose waitLSN equals its
    own. *)
Definition insert_after_equals (procs : nat -> PGPROC) (my : nat) (q : list nat) : list nat :=
  filter (fun p => waitLSN (procs p) <=? waitLSN (procs my)) q
  ++ my :: filter (fun p => waitLSN (procs my) <? waitLSN (procs p)) q.

(** The fields of the control block that a queue scan leaves alone. *)
Definition same_control (sh sh' : Shared) : Prop :=
  lsn sh' = lsn sh /\ walsnds sh' = walsnds sh /\
  max_wal_senders sh' = max_wal_senders sh /\
  sync_standbys_defined sh' = sync_standbys_defined sh /\
  SyncRepLock sh' = SyncRepLock sh.

(** A sleep during which nothing but query cancel requests can arrive. *)
Definition quiet (s : Sleep) : Prop :=
  postmaster_alive s = true /\ die_arrives s = false /\ forall sh, others s sh = sh.

(** ** Example states *)

Module Ex.

Definition idle : PGPROC := mkPGPROC 100 0 SYNC_REP_NOT_WAITING false.

(** Three sessions wait in the flush queue at 0x200, 0x200 and 0x300;
    PGPROC 4 waits in the write queue at 0x180. *)
Definition procs : nat -> PGPROC :=
  fun i =>
    match i with
    | 1%nat => mkPGPROC 101 512 SYNC_REP_WAITING false
    | 2%nat => mkPGPROC 102 512 SYNC_REP_WAITING false
    | 3%nat => mkPGPROC 103 768 SYNC_REP_WAITING false
    | 4%nat => mkPGPROC 104 384 SYNC_REP_WAITING false
    | 5%nat => mkPGPROC 105 512 SYNC_REP_NOT_WAITING false
    | _ => idle
    end.

(** Sender 0 has priority 2, sender 1 priority 1, sender 2 priority 1;
    slot 3 is unused. *)
Definition senders : nat -> WalSnd :=
  fun i =>
    match i with
    | 0%nat => mkWalSnd 500 WALSNDSTATE_STREAMING 592 592 2 false
    | 1%nat => mkWalSnd 501 WALSNDSTATE_STREAMING 600 592 1 false
    | 2%nat => mkWalSnd 502 WALSNDSTATE_STOPPING 700 700 1 false
    | _ => mkWalSnd 0 WALSNDSTATE_STARTUP 0 0 0 false
    end.

Definition queues : WaitMode -> list nat :=
  fun m =>
    match m with
    | SYNC_REP_WAIT_WRITE => [4%nat]
    | SYNC_REP_WAIT_FLUSH => [1%nat; 2%nat; 3%nat]
    end.

Definition released : WaitMode -> XLogRecPtr :=
  fun m =>
    match m with
    | SYNC_REP_WAIT_WRITE => 256
    | SYNC_REP_WAIT_FLUSH => 592
    end.

Definition sh : Shared := mkShared procs queues released true senders 4 None [].

(** The flush queue holds one waiter at 0x200 and PGPROC 5 is about to
    join it with the same position. *)
Definition one_waiter : Shared :=
  mkShared procs
           (fun m => match m with
                     | SYNC_REP_WAIT_WRITE => []
                     | SYNC_REP_WAIT_FLUSH => [1%nat]
                     end)
           (fun _ => 256) true senders 4 None [].

(** Nobody waits; sender 0 is the only sender and has reported 0x250. *)
Definition fresh : Shared :=
  mkShared (fun _ => idle) (fun _ => []) (fun _ => 256) true
           (fun i => match i with
                     | 0%nat => mkWalSnd 500 WALSNDSTATE_STREAMING 592 592 1 false
                     | _ => mkWalSnd 0 WALSNDSTATE_STARTUP 0 0 0 false
                     end)
           1 None [].

Definition session (p : nat) : Backend :=
  mkBackend p (Some SYNC_REP_WAIT_FLUSH) false false false false DestRemote.

Definition dying (p : nat) : Backend :=
  mkBackend p (Some SYNC_REP_WAIT_FLUSH) false false true false DestRemote.

Definition cancelled (p : nat) : Backend :=
  mkBackend p (Some SYNC_REP_WAIT_FLUSH) false false false true DestRemote.

Definition sender (i : nat) : WalSender :=
  mkWalSender i true "standby1" (Some "alpha,beta").

End Ex.

(** ** Invariants and protocols *)

(** What the module keeps true of its queues whenever SyncRepLock is free:
    every PGPROC is linked at most once, both queues pass
    SyncRepQueueIsOrderedByLSN, every linked PGPROC is in SYNC_REP_WAITING,
    and no linked PGPROC waits for a position that [lsn] has already
    reached. *)
Definition queues_inv (sh : Shared) : Prop :=
  queues_wf sh
  /\ (forall mode, SyncRepQueueIsOrderedByLSN mode sh = true)
  /\ (forall mode p, In p (SyncRepQueue sh mode) ->
                     syncRepState (allProcs sh p) = SYNC_REP_WAITING)
  /\ (forall mode p, In p (SyncRepQueue sh mode) ->
                     lsn sh mode < waitLSN (allProcs sh p)).

(** What the code asserts, or its types guarantee, when an operation
    starts: SyncRepWaitForLSN is entered with the slot detached (line 126)
    and an unsigned commit position, and the statements after the sleep loop
    run on a detached slot (line 344). *)
Definition asserted (sh : Shared) (o : CoreOp) : Prop :=
  match o with
  | OpWaitEnter b l => SHMQueueIsDetached (MyProc b) sh = true /\ 0 <= l
  | OpWaitLeave b => SHMQueueIsDetached (MyProc b) sh = true
  | _ => True
  end.

Fixpoint asserted_run (sh : Shared) (ops : list CoreOp) : Prop :=
  match ops with
  | [] => True
  | o :: rest => asserted sh o /\ asserted_run (apply_op sh o) rest
  end.

(** The discipline of SyncRepLock along a stretch of events of one process,
    [held] telling whether it holds the lock at the start: the lock is not
    acquired while held nor released while free, latches are set and the
    control block is written only under the lock, ereport is called only
    without it, and the stretch ends with the lock free.  The trace records
    the ereport calls; the elogif lines, which log only under the developer
    flag debug_walrepl_syncrep, are not part of it. *)
Fixpoint lock_protocol (held : bool) (evs : list Event) : bool :=
  match evs with
  | [] => negb held
  | EvLWLockAcquire _ :: rest => negb held && lock_protocol true rest
  | EvLWLockRelease :: rest => held && lock_protocol false rest
  | EvSetLatch _ :: rest => held && lock_protocol held rest
  | EvStoreLsn _ _ :: rest => held && lock_protocol held rest
  | EvStoreSyncStandbysDefined _ :: rest => held && lock_protocol held rest
  | EvReport _ _ :: rest => negb held && lock_protocol held rest
  end.

(** The sender at slot [i] counts as an active standby for the dispatcher. *)
Definition active_standby (walsnd : WalSnd) : bool :=
  negb (walsnd_pid walsnd =? 0)
  && (is_streaming (walsnd_state walsnd)
      || (is_catchup (walsnd_state walsnd) && caughtup_within_range walsnd)).

Definition is_report (e : Event) : bool :=
  match e with
  | EvReport _ _ => true
  | _ => false
  end.

Definition is_set_latch (e : Event) : bool :=
  match e with
  | EvSetLatch _ => true
  | _ => false
  end.

(** Shared memory after the first statements of a pass of the sleep loop:
    the latch is reset, and the state is read again under the shared lock
    when the first read saw SYNC_REP_WAITING. *)
Definition checked (b : Backend) (sh : Shared) : Shared :=
  if SyncRepState_eqb (syncRepState (allProcs sh (MyProc b))) SYNC_REP_WAITING
  then LWLockRelease (LWLockAcquire LW_SHARED (ResetLatch (MyProc b) sh))
  else ResetLatch (MyProc b) sh.

(** The operation is run by a process other than the owner of the PGPROC
    [my]: a session operation carries that session's own MyProc. *)
Definition foreign (my : nat) (o : CoreOp) : Prop :=
  match o with
  | OpWaitEnter b _ => MyProc b <> my
  | OpWaitPass b _ => MyProc b <> my
  | OpWaitLeave b => MyProc b <> my
  | OpCancelWait b => MyProc b <> my
  | OpCleanupAtProcExit b => MyProc b <> my
  | _ => True
  end.

(** The operation finds synchronous_standby_names unset, which is when
    SyncRepUpdateSyncStandbysDefined may wake every waiter. *)
Definition drains (o : CoreOp) : bool :=
  match o with
  | OpUpdateSyncStandbysDefined names => negb (SyncStandbysDefined names)
  | _ => false
  end.

(** What another process may do to the slot [my] in one step: leave it as
    it is, or wake it out of a queue whose released LSN has reached its
    waitLSN; it never links the slot, and no released LSN goes back. *)
Definition slot_step (my : nat) (sh sh' : Shared) : Prop :=
  (allProcs sh' my = allProcs sh my
   \/ (allProcs sh' my = woken_proc (allProcs sh my)
       /\ exists m, In my (SyncRepQueue sh m)
                    /\ waitLSN (allProcs sh my) <= lsn sh' m))
  /\ (forall m, In my (SyncRepQueue sh' m) -> In my (SyncRepQueue sh m))
  /\ (forall m, lsn sh m <= lsn sh' m).

(** The slot [my] waits for [l] in the queue of [mode] or has been woken
    from it: its waitLSN is [l], it is not in the other queue, and if its
    state is WAIT_COMPLETE then [lsn mode] has reached [l]. *)
Definition waiting_for (my : nat) (l : XLogRecPtr) (mode : WaitMode) (sh : Shared) : Prop :=
  waitLSN (allProcs sh my) = l
  /\ ~ In my (SyncRepQueue sh (other_mode mode))
  /\ (syncRepState (allProcs sh my) = SYNC_REP_WAIT_COMPLETE -> l <= lsn sh mode).

(** While the session sleeps only other processes run, and none of them
    turns synchronous replication off. *)
Definition undisturbed (my : nat) (plan : bool * bool * bool * list CoreOp) : Prop :=
  Forall (foreign my) (snd plan) /\ Forall (fun o => drains o = false) (snd plan).

(** ** More example states *)

Module Demo.

(** Senders 0 and 1 are both eligible, with priorities 1 and 2; nobody
    waits and both released positions are 0x100. *)
Definition two_senders : Shared :=
  mkShared (fun _ => Ex.idle) (fun _ => []) (fun _ => 256) true
           (fun i => match i with
                     | 0%nat => mkWalSnd 500 WALSNDSTATE_STREAMING 592 592 1 false
                     | 1%nat => mkWalSnd 501 WALSNDSTATE_STREAMING 800 800 2 false
                     | _ => mkWalSnd 0 WALSNDSTATE_STARTUP 0 0 0 false
                     end)
           2 None [].

(** One sender that is still catching up, within range. *)
Definition catching_up : Shared :=
  mkShared (fun _ => Ex.idle) (fun _ => []) (fun _ => 256) false
           (fun i => match i with
                     | 0%nat => mkWalSnd 500 WALSNDSTATE_CATCHUP 0 0 0 true
                     | _ => mkWalSnd 0 WALSNDSTATE_STARTUP 0 0 0 false
                     end)
           1 None [].

(** No sender at all. *)
Definition no_sender : Shared :=
  mkShared (fun _ => Ex.idle) (fun _ => []) (fun _ => 256) true
           (fun _ => mkWalSnd 0 WALSNDSTATE_STARTUP 0 0 0 false)
           3 None [].

Definition dispatcher (p : nat) : Backend :=
  mkBackend p (Some SYNC_REP_WAIT_FLUSH) true false false false DestRemote.

End Demo.

(** ** Tactics *)

(** Closes [NoDup] of a list of numerals. *)
Ltac concrete_nodup :=
  repeat (constructor; [simpl; intuition discriminate|]); constructor.

(** * Proofs *)

(** ** Stores and queue links *)

Lemma upd_same {A} (f : nat -> A) i x : upd f i x i = x.
Proof. unfold upd. now rewrite Nat.eqb_refl. Qed.

Lemma upd_other {A} (f : nat -> A) i j x : j <> i -> upd f i x j = f j.
Proof. intros H. unfold upd. apply Nat.eqb_neq in H. now rewrite H. Qed.

Lemma WaitMode_eqb_refl m : WaitMode_eqb m m = true.
Proof. now destruct m. Qed.

Lemma WaitMode_eqb_other m : WaitMode_eqb (other_mode m) m = false.
Proof. now destruct m. Qed.

Lemma mem_In p l : mem p l = true <-> In p l.
Proof.
  unfold mem. rewrite existsb_exists. split.
  - intros [x [Hx He]]. apply Nat.eqb_eq in He. now subst.
  - intros H. exists p. split; [assumption | apply Nat.eqb_refl].
Qed.

Lemma mem_not_In p l : mem p l = false <-> ~ In p l.
Proof.
  rewrite <- mem_In. destruct (mem p l); split; congruence.
Qed.

Lemma unlink_absent p q : ~ In p q -> unlink p q = q.
Proof.
  induction q as [|x q IH]; simpl; intros H; [reflexivity|].
  destruct (Nat.eqb_spec x p) as [->|Hne]; simpl.
  - exfalso. apply H. now left.
  - f_equal. apply IH. intros Hin. apply H. now right.
Qed.

Lemma unlink_head p q : ~ In p q -> unlink p (p :: q) = q.
Proof.
  intros H. simpl. rewrite Nat.eqb_refl. simpl. now apply unlink_absent.
Qed.

Lemma unlink_gone p q : ~ In p (unlink p q).
Proof.
  unfold unlink. rewrite filter_In. intros [_ H].
  now rewrite Nat.eqb_refl in H.
Qed.

Lemma unlink_In x p q : In x (unlink p q) <-> In x q /\ x <> p.
Proof.
  unfold unlink. rewrite filter_In. rewrite negb_true_iff, Nat.eqb_neq. tauto.
Qed.

Lemma queues_wf_mode sh mode :
  queues_wf sh ->
  NoDup (SyncRepQueue sh mode) /\
  forall p, In p (SyncRepQueue sh mode) -> ~ In p (SyncRepQueue sh (other_mode mode)).
Proof.
  unfold queues_wf. intros H.
  assert (Hd : forall a b : list nat, NoDup (a ++ b) ->
               NoDup a /\ NoDup b /\ forall p, In p a -> ~ In p b).
  { induction a as [|x a IH]; simpl; intros b Hn.
    - repeat split; [constructor | assumption | tauto].
    - inversion Hn as [|? ? Hx Hn']; subst.
      destruct (IH _ Hn') as [Ha [Hb Hab]].
      repeat split.
      + constructor; [|assumption]. intros Hin. apply Hx. apply in_or_app. now left.
      + assumption.
      + intros p [->|Hp]; [|now apply Hab].
        intros Hin. apply Hx. apply in_or_app. now right. }
  destruct (Hd _ _ H) as [Hw [Hf Hwf]].
  destruct mode; simpl; split; try assumption.
  intros p Hp Hq. exact (Hwf p Hq Hp).
Qed.

(** ** The scan of SyncRepWakeQueue *)

Lemma due_prefix_ext all hw procs procs' q :
  (forall p, waitLSN (procs' p) = waitLSN (procs p)) ->
  due_prefix all hw procs' q = due_prefix all hw procs q /\
  after_due_prefix all hw procs' q = after_due_prefix all hw procs q.
Proof.
  intros H. induction q as [|p q [IH1 IH2]]; simpl; [now split|].
  unfold due. rewrite H.
  destruct (all || (waitLSN (procs p) <=? hw)); [|now split].
  split; [now f_equal | assumption].
Qed.

Lemma due_prefix_split all hw procs q :
  q = due_prefix all hw procs q ++ after_due_prefix all hw procs q.
Proof.
  induction q as [|p q IH]; simpl; [reflexivity|].
  destruct (due all hw procs p); simpl; [now f_equal | reflexivity].
Qed.

Lemma due_prefix_incl all hw procs q p :
  In p (due_prefix all hw procs q) -> In p q /\ due all hw procs p = true.
Proof.
  induction q as [|x q IH]; simpl; [tauto|].
  destruct (due all hw procs x) eqn:E; simpl; [|tauto].
  intros [->|H]; [split; [now left | assumption]|].
  destruct (IH H). split; [now right | assumption].
Qed.

Lemma wake_test_due all hw w :
  negb all && (hw <? w) = negb (all || (w <=? hw)).
Proof.
  destruct all; simpl; [reflexivity|].
  destruct (Z.ltb_spec hw w), (Z.leb_spec w hw); simpl; try reflexivity; lia.
Qed.

Lemma wake_loop_cons all mode p q sh n :
  SyncRepWakeQueue_loop all mode (p :: q) sh n =
  if due all (lsn sh mode) (allProcs sh) p
  then SyncRepWakeQueue_loop all mode q
         (SetLatch p (set_syncRepState p SYNC_REP_WAIT_COMPLETE (SHMQueueDelete p sh)))
         (n + 1)
  else (sh, n).
Proof.
  simpl. rewrite wake_test_due. unfold due.
  now destruct (all || (waitLSN (allProcs sh p) <=? lsn sh mode)).
Qed.

Lemma wake_one_procs p sh x :
  allProcs (SetLatch p (set_syncRepState p SYNC_REP_WAIT_COMPLETE (SHMQueueDelete p sh))) x =
  if Nat.eqb x p then woken_proc (allProcs sh p) else allProcs sh x.
Proof.
  simpl. unfold upd. destruct (Nat.eqb x p) eqn:E; [|reflexivity].
  rewrite Nat.eqb_refl. reflexivity.
Qed.

Lemma wake_loop_spec all mode :
  forall q sh n,
    SyncRepQueue sh mode = q ->
    NoDup q ->
    (forall p, In p q -> ~ In p (SyncRepQueue sh (other_mode mode))) ->
    let woken := due_prefix all (lsn sh mode) (allProcs sh) q in
    let r := SyncRepWakeQueue_loop all mode q sh n in
    SyncRepQueue (fst r) mode = after_due_prefix all (lsn sh mode) (allProcs sh) q
    /\ SyncRepQueue (fst r) (other_mode mode) = SyncRepQueue sh (other_mode mode)
    /\ (forall p, allProcs (fst r) p =
                  if mem p woken then woken_proc (allProcs sh p) else allProcs sh p)
    /\ same_control sh (fst r)
    /\ trace (fst r) = trace sh ++ map EvSetLatch woken
    /\ snd r = n + Z.of_nat (List.length woken).
Proof.
  induction q as [|p q IH]; intros sh n Hq Hnd Hdis; cbn zeta.
  - simpl. rewrite Hq, app_nil_r. unfold same_control.
    repeat split; try reflexivity. lia.
  - rewrite wake_loop_cons. cbn [due_prefix after_due_prefix].
    destruct (due all (lsn sh mode) (allProcs sh) p) eqn:Hdue.
    + inversion Hnd as [|? ? Hp Hnd']; subst.
      set (sh1 := SetLatch p (set_syncRepState p SYNC_REP_WAIT_COMPLETE
                                               (SHMQueueDelete p sh))).
      assert (Hpr : forall x, allProcs sh1 x =
                              if Nat.eqb x p then woken_proc (allProcs sh p) else allProcs sh x)
        by (intros x; apply wake_one_procs).
      assert (Hw : forall x, waitLSN (allProcs sh1 x) = waitLSN (allProcs sh x)).
      { intros x. rewrite Hpr. destruct (Nat.eqb_spec x p) as [->|]; reflexivity. }
      assert (Hq1 : SyncRepQueue sh1 mode = q).
      { simpl. rewrite Hq. now apply unlink_head. }
      assert (Ho1 : SyncRepQueue sh1 (other_mode mode) = SyncRepQueue sh (other_mode mode)).
      { simpl. apply unlink_absent. apply Hdis. now left. }
      destruct (IH sh1 (n + 1) Hq1 Hnd') as (R1 & R2 & R3 & R4 & R5 & R6).
      { intros x Hx. rewrite Ho1. apply Hdis. now right. }
      assert (Hl : lsn sh1 mode = lsn sh mode) by reflexivity.
      rewrite Hl in *.
      destruct (due_prefix_ext all (lsn sh mode) (allProcs sh) (allProcs sh1) q Hw)
        as [E1 E2].
      rewrite E1 in *. rewrite E2 in *.
      split; [exact R1|]. split; [now rewrite R2|].
      split.
      { intros x. rewrite R3, Hpr. unfold mem at 2. cbn [existsb].
        fold (mem x (due_prefix all (lsn sh mode) (allProcs sh) q)).
        destruct (Nat.eqb_spec x p) as [->|Hne]; simpl; [|reflexivity].
        destruct (mem p (due_prefix all (lsn sh mode) (allProcs sh) q)) eqn:Hm;
          [|reflexivity].
        exfalso. apply mem_In in Hm. apply due_prefix_incl in Hm. tauto. }
      split.
      { unfold same_control in *. simpl in R4. exact R4. }
      split.
      { rewrite R5. simpl. rewrite <- app_assoc. reflexivity. }
      { rewrite R6. simpl List.length. lia. }
    + simpl. rewrite Hq. unfold same_control.
      repeat split; try reflexivity; [now rewrite app_nil_r | lia].
Qed.

Lemma wake_queue_spec all mode sh :
  queues_wf sh ->
  let woken := due_prefix all (lsn sh mode) (allProcs sh) (SyncRepQueue sh mode) in
  let r := SyncRepWakeQueue all mode sh in
  SyncRepQueue (fst r) mode =
    after_due_prefix all (lsn sh mode) (allProcs sh) (SyncRepQueue sh mode)
  /\ SyncRepQueue (fst r) (other_mode mode) = SyncRepQueue sh (other_mode mode)
  /\ (forall p, allProcs (fst r) p =
                if mem p woken then woken_proc (allProcs sh p) else allProcs sh p)
  /\ same_control sh (fst r)
  /\ trace (fst r) = trace sh ++ map EvSetLatch woken
  /\ snd r = Z.of_nat (List.length woken).
Proof.
  intros Hwf. destruct (queues_wf_mode sh mode Hwf) as [Hnd Hdis].
  exact (wake_loop_spec all mode (SyncRepQueue sh mode) sh 0 eq_refl Hnd Hdis).
Qed.

(** ** Queues the debug check accepts *)

Lemma ordered_loop_lower procs :
  forall q last,
    SyncRepQueueIsOrderedByLSN_loop procs q last = true ->
    forall p, In p q -> last <= waitLSN (procs p).
Proof.
  induction q as [|x q IH]; simpl; intros last H p Hp; [tauto|].
  destruct (Z.ltb_spec (waitLSN (procs x)) last) as [|Hle]; [discriminate|].
  destruct Hp as [->|Hp]; [assumption|].
  specialize (IH _ H p Hp). lia.
Qed.

Lemma ordered_loop_tail procs x q last :
  SyncRepQueueIsOrderedByLSN_loop procs (x :: q) last = true ->
  last <= waitLSN (procs x) /\
  SyncRepQueueIsOrderedByLSN_loop procs q (waitLSN (procs x)) = true.
Proof.
  simpl. destruct (Z.ltb_spec (waitLSN (procs x)) last) as [|Hle]; [discriminate|].
  intros H. split; [lia | assumption].
Qed.

Lemma ordered_loop_weaken procs :
  forall q last last',
    last' <= last ->
    SyncRepQueueIsOrderedByLSN_loop procs q last = true ->
    SyncRepQueueIsOrderedByLSN_loop procs q last' = true.
Proof.
  destruct q as [|x q]; simpl; intros last last' Hle H; [reflexivity|].
  destruct (Z.ltb_spec (waitLSN (procs x)) last) as [|H1]; [discriminate|].
  destruct (Z.ltb_spec (waitLSN (procs x)) last') as [|H2]; [lia | assumption].
Qed.

Lemma ordered_due_filter all hw procs :
  forall q last,
    SyncRepQueueIsOrderedByLSN_loop procs q last = true ->
    due_prefix all hw procs q = filter (due all hw procs) q /\
    after_due_prefix all hw procs q = filter (fun p => negb (due all hw procs p)) q.
Proof.
  induction q as [|x q IH]; intros last H; [now split|].
  apply ordered_loop_tail in H. destruct H as [_ H].
  destruct (IH _ H) as [IH1 IH2]. simpl.
  destruct (due all hw procs x) eqn:Hx; simpl.
  - split; [now f_equal | assumption].
  - assert (Hall : forall p, In p q -> due all hw procs p = false).
    { intros p Hp. pose proof (ordered_loop_lower procs q _ H p Hp) as Hle.
      unfold due in *. destruct all; [discriminate|]. simpl in *.
      apply Z.leb_gt in Hx. apply Z.leb_gt. lia. }
    split.
    + symmetry. clear -Hall. induction q as [|y q IHq]; [reflexivity|].
      simpl. rewrite (Hall y) by now left.
      apply IHq. intros p Hp. apply Hall. now right.
    + f_equal. symmetry. clear -Hall. induction q as [|y q IHq]; [reflexivity|].
      simpl. rewrite (Hall y) by now left. simpl. f_equal.
      apply IHq. intros p Hp. apply Hall. now right.
Qed.

Lemma detached_iff p sh :
  SHMQueueIsDetached p sh = true <-> forall m, ~ In p (SyncRepQueue sh m).
Proof.
  unfold SHMQueueIsDetached. rewrite andb_true_iff, !negb_true_iff.
  fold (mem p (SyncRepQueue sh SYNC_REP_WAIT_WRITE)).
  fold (mem p (SyncRepQueue sh SYNC_REP_WAIT_FLUSH)).
  rewrite !mem_not_In. split.
  - intros [H1 H2] []; assumption.
  - intros H. split; apply H.
Qed.

(** C1.  SyncRepWakeQueue on a queue ordered by waitLSN: with
    [high_water = lsn sh mode], the waiters removed are exactly those with
    [waitLSN <= high_water] (all of them when [all] is set) and they form a
    prefix of the queue; the scan stops at the first waiter beyond the
    high-water mark; every removed waiter is in WAIT_COMPLETE with its latch
    set and is linked nowhere; nobody else is touched; the latches are set in
    queue order; the result is the number of waiters woken. *)
Theorem SyncRepWakeQueue_wakes_due_prefix :
  forall (all : bool) (mode : WaitMode) (sh : Shared),
    queues_wf sh ->
    SyncRepQueueIsOrderedByLSN mode sh = true ->
    let high_water := lsn sh mode in
    let woken := filter (due all high_water (allProcs sh)) (SyncRepQueue sh mode) in
    let sh' := fst (SyncRepWakeQueue all mode sh) in
    SyncRepQueue sh mode = woken ++ SyncRepQueue sh' mode
    /\ SyncRepQueue sh' mode =
         filter (fun p => negb (due all high_water (allProcs sh) p)) (SyncRepQueue sh mode)
    /\ (forall p rest, SyncRepQueue sh' mode = p :: rest ->
                       all = false /\ high_water < waitLSN (allProcs sh p))
    /\ (forall p, In p woken ->
                  syncRepState (allProcs sh' p) = SYNC_REP_WAIT_COMPLETE
                  /\ procLatch (allProcs sh' p) = true
                  /\ SHMQueueIsDetached p sh' = true
                  /\ In (EvSetLatch p) (trace sh'))
    /\ (forall p, ~ In p woken -> allProcs sh' p = allProcs sh p)
    /\ SyncRepQueue sh' (other_mode mode) = SyncRepQueue sh (other_mode mode)
    /\ trace sh' = trace sh ++ map EvSetLatch woken
    /\ snd (SyncRepWakeQueue all mode sh) = Z.of_nat (List.length woken)
    /\ (forall p, In p (SyncRepQueue sh mode) ->
                  waitLSN (allProcs sh p) <= high_water ->
                  ~ In p (SyncRepQueue sh' mode) /\ procLatch (allProcs sh' p) = true).
Proof.
  intros all mode sh Hwf Hord high_water woken sh'.
  destruct (wake_queue_spec all mode sh Hwf) as (R1 & R2 & R3 & R4 & R5 & R6).
  destruct (ordered_due_filter all high_water (allProcs sh) _ _ Hord) as [F1 F2].
  fold high_water in R1, R3, R5, R6. rewrite F1 in R3, R5, R6. rewrite F2 in R1.
  fold woken in R3, R5, R6. fold sh' in R1, R2, R3, R4, R5.
  destruct (queues_wf_mode sh mode Hwf) as [Hnd Hdis].
  assert (Hsplit : SyncRepQueue sh mode = woken ++ SyncRepQueue sh' mode).
  { rewrite R1. unfold woken. rewrite <- F1, <- F2. apply due_prefix_split. }
  assert (Hwoken : forall p, In p woken ->
            syncRepState (allProcs sh' p) = SYNC_REP_WAIT_COMPLETE
            /\ procLatch (allProcs sh' p) = true
            /\ SHMQueueIsDetached p sh' = true
            /\ In (EvSetLatch p) (trace sh')).
  { intros p Hp. rewrite R3. apply mem_In in Hp as Hm. rewrite Hm.
    split; [reflexivity|]. split; [reflexivity|]. split.
    - apply detached_iff. intros m Hin.
      assert (Hpq : In p (SyncRepQueue sh mode)).
      { unfold woken in Hp. apply filter_In in Hp. tauto. }
      destruct m, mode; simpl in *.
      + rewrite R1 in Hin. apply filter_In in Hin.
        unfold woken in Hp. apply filter_In in Hp.
        destruct Hin as [_ Hin], Hp as [_ Hp]. rewrite Hp in Hin. discriminate.
      + rewrite R2 in Hin. exact (Hdis p Hpq Hin).
      + rewrite R2 in Hin. exact (Hdis p Hpq Hin).
      + rewrite R1 in Hin. apply filter_In in Hin.
        unfold woken in Hp. apply filter_In in Hp.
        destruct Hin as [_ Hin], Hp as [_ Hp]. rewrite Hp in Hin. discriminate.
    - rewrite R5. apply in_or_app. right. now apply in_map. }
  split; [exact Hsplit|]. split; [exact R1|]. split.
  { intros p rest Hhead.
    assert (Hin : In p (SyncRepQueue sh' mode)) by (rewrite Hhead; now left).
    rewrite R1 in Hin. apply filter_In in Hin. destruct Hin as [_ Hin].
    unfold due in Hin. apply negb_true_iff, orb_false_iff in Hin.
    destruct Hin as [Ha Hl]. apply Z.leb_gt in Hl. now split. }
  split; [exact Hwoken|]. split.
  { intros p Hp. rewrite R3. apply mem_not_In in Hp. now rewrite Hp. }
  split; [exact R2|]. split; [exact R5|]. split; [exact R6|].
  intros p Hp Hle.
  assert (Hw : In p woken).
  { unfold woken. apply filter_In. split; [assumption|].
    unfold due. apply orb_true_iff. right. now apply Z.leb_le. }
  destruct (Hwoken p Hw) as (_ & Hl & Hd & _). split; [|assumption].
  apply detached_iff with (m := mode) in Hd. assumption.
Qed.

Lemma SyncRepWakeQueue_wakes_due_prefix_witness :
  queues_wf Ex.sh
  /\ SyncRepQueueIsOrderedByLSN SYNC_REP_WAIT_FLUSH Ex.sh = true
  /\ SyncRepQueue (fst (SyncRepWakeQueue false SYNC_REP_WAIT_FLUSH Ex.sh))
                  SYNC_REP_WAIT_FLUSH = [3%nat]
  /\ snd (SyncRepWakeQueue false SYNC_REP_WAIT_FLUSH Ex.sh) = 2.
Proof.
  assert (Hwf : queues_wf Ex.sh) by (unfold queues_wf; simpl; concrete_nodup).
  assert (Hord : SyncRepQueueIsOrderedByLSN SYNC_REP_WAIT_FLUSH Ex.sh = true)
    by reflexivity.
  split; [exact Hwf|]. split; [exact Hord|].
  destruct (SyncRepWakeQueue_wakes_due_prefix false SYNC_REP_WAIT_FLUSH Ex.sh Hwf Hord)
    as (_ & Hq & _ & _ & _ & _ & _ & Hn & _).
  split; [exact Hq | exact Hn].
Defined.

(** ** The election of SyncRepReleaseWaiters *)

Lemma scan_takes_eligible priority w :
  scan_takes priority w =
  eligible w && ((priority =? 0) || (priority >? sync_standby_priority w)).
Proof.
  unfold scan_takes, eligible.
  destruct (negb (walsnd_pid w =? 0)),
           (is_streaming (walsnd_state w) || is_stopping (walsnd_state w)),
           (sync_standby_priority w >? 0),
           ((priority =? 0) || (priority >? sync_standby_priority w)),
           (negb (XLogRecPtrIsInvalid (flush w))); reflexivity.
Qed.

Lemma eligible_positive w : eligible w = true -> 0 < sync_standby_priority w.
Proof.
  unfold eligible. rewrite !andb_true_iff. intros [[[_ _] H] _].
  now apply Z.gtb_lt in H.
Qed.

Lemma scan_step ws a priority cur :
  scan_inv ws a priority cur ->
  let r := if scan_takes priority (ws a)
           then (sync_standby_priority (ws a), Some a)
           else (priority, cur) in
  scan_inv ws (S a) (fst r) (snd r).
Proof.
  intros Hinv. rewrite scan_takes_eligible.
  destruct cur as [k|]; simpl in Hinv.
  - destruct Hinv as [Hp (Hk & Hek & Hmin)].
    pose proof (eligible_positive _ Hek) as Hpos.
    assert (Hz : (priority =? 0) = false) by (apply Z.eqb_neq; lia).
    rewrite Hz. simpl orb.
    destruct (eligible (ws a)) eqn:Hea; simpl andb.
    + destruct (Z.gtb_spec priority (sync_standby_priority (ws a))) as [Hgt|Hle]; simpl.
      * split; [reflexivity|]. split; [lia|]. split; [assumption|].
        intros j Hj Hej. destruct (Nat.eq_dec j a) as [->|Hne].
        -- right. split; [reflexivity | lia].
        -- left. destruct (Hmin j ltac:(lia) Hej) as [H|[H _]]; lia.
      * split; [assumption|]. split; [lia|]. split; [assumption|].
        intros j Hj Hej. destruct (Nat.eq_dec j a) as [->|Hne].
        -- destruct (Z.eq_dec (sync_standby_priority (ws k))
                               (sync_standby_priority (ws a))) as [He|Hn].
           ++ right. split; [assumption | lia].
           ++ left. lia.
        -- apply Hmin; [lia | assumption].
    + simpl. split; [assumption|]. split; [lia|]. split; [assumption|].
      intros j Hj Hej. destruct (Nat.eq_dec j a) as [->|Hne]; [congruence|].
      apply Hmin; [lia | assumption].
  - destruct Hinv as [Hp Hnone]. subst priority. simpl orb.
    rewrite andb_true_r.
    destruct (eligible (ws a)) eqn:Hea; simpl.
    + split; [reflexivity|]. split; [lia|]. split; [assumption|].
      intros j Hj Hej. destruct (Nat.eq_dec j a) as [->|Hne].
      * right. split; [reflexivity | lia].
      * rewrite Hnone in Hej by lia. discriminate.
    + split; [reflexivity|].
      intros j Hj. destruct (Nat.eq_dec j a) as [->|Hne]; [assumption|].
      apply Hnone. lia.
Qed.

Lemma scan_spec ws :
  forall len a priority cur,
    scan_inv ws a priority cur ->
    let r := SyncRepReleaseWaiters_scan ws (seq a len) priority cur in
    scan_inv ws (a + len) (fst r) (snd r).
Proof.
  induction len as [|len IH]; intros a priority cur Hinv; cbn zeta.
  - simpl. now rewrite Nat.add_0_r.
  - replace (a + S len)%nat with (S a + len)%nat by lia.
    pose proof (scan_step ws a priority cur Hinv) as Hstep. cbn zeta in Hstep.
    simpl. destruct (scan_takes priority (ws a)); apply IH; exact Hstep.
Qed.

Lemma elected_spec sh :
  match elected sh with
  | Some k => wins (walsnds sh) (max_wal_senders sh) k
  | None => forall j, (j < max_wal_senders sh)%nat -> eligible (walsnds sh j) = false
  end.
Proof.
  unfold elected.
  pose proof (scan_spec (walsnds sh) (max_wal_senders sh) 0 0 None) as H.
  cbn zeta in H. simpl "+"%nat in H.
  destruct (SyncRepReleaseWaiters_scan (walsnds sh) (seq 0 (max_wal_senders sh)) 0 None)
    as [priority [k|]]; simpl in *.
  - apply H. split; [reflexivity|]. intros j Hj. lia.
  - apply H. split; [reflexivity|]. intros j Hj. lia.
Qed.

Lemma gate_open_eligible my :
  release_gate_closed my = false ->
  0 < sync_standby_priority my ->
  walsnd_pid my <> 0 ->
  eligible my = true.
Proof.
  unfold release_gate_closed, eligible.
  rewrite !orb_false_iff. intros [[_ Hst] Hfl] Hpos Hpid.
  apply Z.eqb_neq in Hpid. rewrite Hpid, Hfl. simpl.
  apply Z.gtb_lt in Hpos. rewrite Hpos.
  destruct (is_streaming (walsnd_state my)), (is_stopping (walsnd_state my));
    simpl in *; try reflexivity; discriminate.
Qed.

(** C10.  When the caller passes the entry test of SyncRepReleaseWaiters
    with a positive priority, its pid field is not zero and [MyWalSnd] is a
    slot of the sender array, the election loop ends with a non-NULL
    [syncWalSnd]: the caller itself is eligible, so the elected sender exists
    and is eligible. *)
Theorem SyncRepReleaseWaiters_elects_someone :
  forall (w : WalSender) (sh : Shared),
    (MyWalSnd w < max_wal_senders sh)%nat ->
    release_gate_closed (walsnds sh (MyWalSnd w)) = false ->
    0 < sync_standby_priority (walsnds sh (MyWalSnd w)) ->
    walsnd_pid (walsnds sh (MyWalSnd w)) <> 0 ->
    eligible (walsnds sh (MyWalSnd w)) = true
    /\ exists k, elected (LWLockAcquire LW_EXCLUSIVE sh) = Some k
                 /\ (k < max_wal_senders sh)%nat
                 /\ eligible (walsnds sh k) = true.
Proof.
  intros w sh Hidx Hgate Hpos Hpid.
  pose proof (gate_open_eligible _ Hgate Hpos Hpid) as Hel.
  split; [assumption|].
  change (elected (LWLockAcquire LW_EXCLUSIVE sh)) with (elected sh).
  pose proof (elected_spec sh) as Hspec.
  destruct (elected sh) as [k|].
  - exists k. destruct Hspec as (Hk & Hek & _). now repeat split.
  - rewrite (Hspec _ Hidx) in Hel. discriminate.
Qed.

Lemma SyncRepReleaseWaiters_elects_someone_witness :
  exists k, elected (LWLockAcquire LW_EXCLUSIVE Ex.sh) = Some k
            /\ (k < 4)%nat /\ eligible (Ex.senders k) = true.
Proof.
  refine (proj2 (SyncRepReleaseWaiters_elects_someone (Ex.sender 0) Ex.sh _ _ _ _)).
  - simpl. lia.
  - reflexivity.
  - reflexivity.
  - discriminate.
Defined.

(** ** Releasing one mode *)

Lemma ordered_loop_ext procs procs' :
  (forall p, waitLSN (procs' p) = waitLSN (procs p)) ->
  forall q last,
    SyncRepQueueIsOrderedByLSN_loop procs' q last =
    SyncRepQueueIsOrderedByLSN_loop procs q last.
Proof.
  intros H. induction q as [|x q IH]; intros last; simpl; [reflexivity|].
  rewrite H, IH. reflexivity.
Qed.

Lemma queues_wf_intro mode sh :
  NoDup (SyncRepQueue sh mode) ->
  NoDup (SyncRepQueue sh (other_mode mode)) ->
  (forall p, In p (SyncRepQueue sh mode) -> ~ In p (SyncRepQueue sh (other_mode mode))) ->
  queues_wf sh.
Proof.
  intros H1 H2 H3. unfold queues_wf. destruct mode; simpl in *.
  - now apply NoDup_app.
  - apply NoDup_app; try assumption. intros p Hp Hq. exact (H3 p Hq Hp).
Qed.

Lemma not_due_beyond pos procs q :
  filter (fun p => negb (due false pos procs p)) q =
  filter (fun p => pos <? waitLSN (procs p)) q.
Proof.
  apply filter_ext. intros p. unfold due. simpl.
  rewrite Z.leb_antisym. now rewrite negb_involutive.
Qed.

Lemma release_mode_spec mode my sh :
  queues_wf sh ->
  SyncRepQueueIsOrderedByLSN mode sh = true ->
  let pos := reported mode (walsnds sh my) in
  let sh' := fst (release_mode mode my sh) in
  walsnds sh' = walsnds sh
  /\ SyncRepLock sh' = SyncRepLock sh
  /\ lsn sh' (other_mode mode) = lsn sh (other_mode mode)
  /\ SyncRepQueue sh' (other_mode mode) = SyncRepQueue sh (other_mode mode)
  /\ (forall p, waitLSN (allProcs sh' p) = waitLSN (allProcs sh p))
  /\ (forall p, ~ In p (SyncRepQueue sh mode) -> allProcs sh' p = allProcs sh p)
  /\ (forall e, In e (trace sh) -> In e (trace sh'))
  /\ queues_wf sh'
  /\ (lsn sh mode < pos ->
      lsn sh' mode = pos
      /\ SyncRepQueue sh' mode =
           filter (fun p => pos <? waitLSN (allProcs sh p)) (SyncRepQueue sh mode)
      /\ forall p, In p (SyncRepQueue sh mode) -> waitLSN (allProcs sh p) <= pos ->
                   allProcs sh' p = woken_proc (allProcs sh p)
                   /\ In (EvSetLatch p) (trace sh'))
  /\ (pos <= lsn sh mode -> sh' = sh).
Proof.
  intros Hwf Hord pos sh'. unfold release_mode in sh'. fold pos in sh'.
  destruct (queues_wf_mode sh mode Hwf) as [Hnd Hdis].
  destruct (queues_wf_mode sh (other_mode mode) Hwf) as [Hnd' _].
  destruct (Z.ltb_spec (lsn sh mode) pos) as [Hlt|Hge].
  - set (sha := emit (EvStoreLsn mode pos) (set_lsn (upd_mode (lsn sh) mode pos) sh))
      in sh'.
    assert (Hwfa : queues_wf sha) by exact Hwf.
    assert (Hla : lsn sha mode = pos).
    { simpl. unfold upd_mode. now rewrite WaitMode_eqb_refl. }
    destruct (wake_queue_spec false mode sha Hwfa) as (R1 & R2 & R3 & R4 & R5 & _).
    fold sh' in R1, R2, R3, R4, R5. rewrite Hla in R1, R3, R5.
    change (allProcs sha) with (allProcs sh) in R1, R3, R5.
    change (SyncRepQueue sha) with (SyncRepQueue sh) in R1, R2, R3, R5.
    destruct (ordered_due_filter false pos (allProcs sh) _ _ Hord) as [F1 F2].
    rewrite F1 in R3, R5. rewrite F2, not_due_beyond in R1.
    destruct R4 as (C1 & C2 & C3 & C4 & C5).
    assert (Hunt : forall p, ~ In p (SyncRepQueue sh mode) -> allProcs sh' p = allProcs sh p).
    { intros p Hp. rewrite R3.
      destruct (mem p (filter (due false pos (allProcs sh)) (SyncRepQueue sh mode))) eqn:Hm;
        [|reflexivity].
      apply mem_In, filter_In in Hm. tauto. }
    split; [exact C2|]. split; [exact C5|]. split.
    { rewrite C1. simpl. unfold upd_mode. now rewrite WaitMode_eqb_other. }
    split; [exact R2|]. split.
    { intros p. rewrite R3. now destruct (mem p _). }
    split; [exact Hunt|]. split.
    { intros e He. rewrite R5. simpl. rewrite <- app_assoc.
      apply in_or_app. now left. }
    split.
    { apply (queues_wf_intro mode).
      - rewrite R1. now apply NoDup_filter.
      - now rewrite R2.
      - intros p Hp. rewrite R2. rewrite R1 in Hp. apply filter_In in Hp.
        apply Hdis. tauto. }
    split.
    { intros _. split; [now rewrite C1|]. split; [exact R1|].
      intros p Hp Hle.
      assert (Hin : In p (filter (due false pos (allProcs sh)) (SyncRepQueue sh mode))).
      { apply filter_In. split; [assumption|]. unfold due. simpl. now apply Z.leb_le. }
      split.
      - rewrite R3. apply mem_In in Hin. now rewrite Hin.
      - rewrite R5. apply in_or_app. right. now apply in_map. }
    intros Hle. lia.
  - subst sh'. simpl.
    do 6 (split; [reflexivity || tauto|]).
    split; [tauto|]. split; [assumption|].
    split; [intros Hlt; lia | reflexivity].
Qed.

Lemma is_walsnd_iff c my : is_walsnd c my = true <-> c = Some my.
Proof.
  destruct c as [k|]; simpl.
  - rewrite Nat.eqb_eq. split; congruence.
  - split; discriminate.
Qed.

(** C2.  SyncRepReleaseWaiters past its entry test, on well-formed queues
    ordered by waitLSN.  The election picks, among the eligible senders, one
    with the smallest priority number and of those the lowest slot index.
    A caller that is not elected releases the lock, sets
    [announce_next_takeover] and changes neither a released LSN, nor a
    queue, nor a PGPROC.  An elected caller, for each mode: when its reported
    position (write for the write mode, flush for the flush mode) is strictly
    beyond [lsn mode], stores the position there and wakes the waiters of
    that queue up to it; otherwise it leaves the LSN, the queue and the
    queue's waiters as they are. *)
Theorem SyncRepReleaseWaiters_election_and_release :
  forall (w : WalSender) (sh : Shared),
    release_gate_closed (walsnds sh (MyWalSnd w)) = false ->
    queues_wf sh ->
    (forall mode, SyncRepQueueIsOrderedByLSN mode sh = true) ->
    let my := walsnds sh (MyWalSnd w) in
    let w' := fst (SyncRepReleaseWaiters w sh) in
    let sh' := snd (SyncRepReleaseWaiters w sh) in
    match elected sh with
    | Some k => wins (walsnds sh) (max_wal_senders sh) k
    | None => forall j, (j < max_wal_senders sh)%nat -> eligible (walsnds sh j) = false
    end
    /\ (elected sh <> Some (MyWalSnd w) ->
        announce_next_takeover w' = true
        /\ SyncRepLock sh' = None
        /\ lsn sh' = lsn sh
        /\ SyncRepQueue sh' = SyncRepQueue sh
        /\ allProcs sh' = allProcs sh
        /\ trace sh' = trace sh ++ [EvLWLockAcquire LW_EXCLUSIVE; EvLWLockRelease])
    /\ (elected sh = Some (MyWalSnd w) ->
        SyncRepLock sh' = None
        /\ forall mode,
            let pos := reported mode my in
            (lsn sh mode < pos ->
             lsn sh' mode = pos
             /\ SyncRepQueue sh' mode =
                  filter (fun p => pos <? waitLSN (allProcs sh p)) (SyncRepQueue sh mode)
             /\ forall p, In p (SyncRepQueue sh mode) ->
                          waitLSN (allProcs sh p) <= pos ->
                          syncRepState (allProcs sh' p) = SYNC_REP_WAIT_COMPLETE
                          /\ procLatch (allProcs sh' p) = true
                          /\ In (EvSetLatch p) (trace sh'))
            /\ (pos <= lsn sh mode ->
                lsn sh' mode = lsn sh mode
                /\ SyncRepQueue sh' mode = SyncRepQueue sh mode
                /\ forall p, In p (SyncRepQueue sh mode) ->
                             allProcs sh' p = allProcs sh p)).
Proof.
  intros w sh Hgate Hwf Hord my w' sh'.
  split; [apply elected_spec|].
  remember (SyncRepReleaseWaiters w sh) as r eqn:Hr.
  unfold SyncRepReleaseWaiters in Hr. rewrite Hgate in Hr.
  change (elected (LWLockAcquire LW_EXCLUSIVE sh)) with (elected sh) in Hr.
  destruct (is_walsnd (elected sh) (MyWalSnd w)) eqn:Hme; simpl negb in Hr; cbv iota in Hr.
  - apply is_walsnd_iff in Hme. split; [congruence|]. intros _.
    set (sh0 := LWLockAcquire LW_EXCLUSIVE sh) in *.
    assert (Hwf0 : queues_wf sh0) by exact Hwf.
    pose proof (release_mode_spec SYNC_REP_WAIT_WRITE (MyWalSnd w) sh0 Hwf0
                                  (Hord SYNC_REP_WAIT_WRITE)) as S1.
    cbn zeta in S1.
    destruct (release_mode SYNC_REP_WAIT_WRITE (MyWalSnd w) sh0) as [sh1 n1].
    simpl fst in S1.
    destruct S1 as (A1 & A2 & A3 & A4 & A5 & A6 & A7 & A8 & A9 & A10).
    assert (Hord1 : SyncRepQueueIsOrderedByLSN SYNC_REP_WAIT_FLUSH sh1 = true).
    { unfold SyncRepQueueIsOrderedByLSN. simpl in A4. rewrite A4.
      rewrite (ordered_loop_ext (allProcs sh0) (allProcs sh1) A5).
      exact (Hord SYNC_REP_WAIT_FLUSH). }
    pose proof (release_mode_spec SYNC_REP_WAIT_FLUSH (MyWalSnd w) sh1 A8 Hord1) as S2.
    cbn zeta in S2.
    destruct (release_mode SYNC_REP_WAIT_FLUSH (MyWalSnd w) sh1) as [sh2 n2].
    simpl fst in S2.
    destruct S2 as (B1 & B2 & B3 & B4 & B5 & B6 & B7 & B8 & B9 & B10).
    simpl other_mode in *. rewrite A1 in B9, B10.
    change (walsnds sh0) with (walsnds sh) in *.
    change (lsn sh0) with (lsn sh) in *.
    change (SyncRepQueue sh0) with (SyncRepQueue sh) in *.
    change (allProcs sh0) with (allProcs sh) in *.
    change (SyncRepLock sh0) with (Some LW_EXCLUSIVE) in *.
    destruct (queues_wf_mode sh SYNC_REP_WAIT_WRITE Hwf) as [_ Hdis].
    simpl other_mode in Hdis.
    assert (Hfin : SyncRepLock sh' = None /\
                   forall x, lsn sh' x = lsn sh2 x /\ SyncRepQueue sh' x = SyncRepQueue sh2 x
                             /\ (forall p, allProcs sh' p = allProcs sh2 p)
                             /\ (forall e, In e (trace sh2) -> In e (trace sh'))).
    { subst sh' r. destruct (announce_next_takeover w); simpl.
      - split; [reflexivity|]. intros x. repeat split; try reflexivity. intros e He.
        apply in_or_app; left. apply in_or_app; now left.
      - split; [reflexivity|]. intros x. repeat split; try reflexivity.
        intros e He. apply in_or_app; now left. }
    destruct Hfin as [Hlock Hfin].
    split; [exact Hlock|].
    intros mode pos. destruct (Hfin mode) as (L & Q & P & T).
    rewrite L, Q. subst pos my. destruct mode; simpl reported.
    + (* write *)
      rewrite B3, B4. split.
      * intros Hlt. destruct (A9 Hlt) as (E1 & E2 & E3).
        split; [exact E1|]. split; [exact E2|].
        intros p Hp Hle. destruct (E3 p Hp Hle) as [Ep Et].
        rewrite P. rewrite B6 by (rewrite A4; now apply Hdis).
        rewrite Ep. split; [reflexivity|]. split; [reflexivity|].
        apply T, B7, Et.
      * intros Hle. rewrite (A10 Hle).
        split; [reflexivity|]. split; [reflexivity|].
        intros p Hp. rewrite P. rewrite B6; [now rewrite (A10 Hle)|].
        rewrite A4. now apply Hdis.
    + (* flush *)
      rewrite A3 in B9, B10. rewrite A4 in B9. split.
      * intros Hlt. destruct (B9 Hlt) as (E1 & E2 & E3).
        split; [exact E1|]. split.
        { rewrite E2. apply filter_ext. intros p. now rewrite A5. }
        intros p Hp Hle. rewrite <- A5 in Hle. destruct (E3 p Hp Hle) as [Ep Et].
        rewrite P, Ep. split; [reflexivity|]. split; [reflexivity|].
        apply T, Et.
      * intros Hle. rewrite (B10 Hle).
        split; [exact A3|]. split; [exact A4|].
        intros p Hp. rewrite P, (B10 Hle). apply A6.
        intros Hw. exact (Hdis p Hw Hp).
  - split; [|intros He; apply is_walsnd_iff in He; congruence].
    intros _. subst w' sh' r. simpl. repeat split. now rewrite <- app_assoc.
Qed.

Lemma SyncRepReleaseWaiters_election_and_release_witness :
  elected Ex.sh = Some 1%nat
  /\ lsn (snd (SyncRepReleaseWaiters (Ex.sender 1) Ex.sh)) SYNC_REP_WAIT_WRITE = 600
  /\ SyncRepQueue (snd (SyncRepReleaseWaiters (Ex.sender 1) Ex.sh)) SYNC_REP_WAIT_WRITE = []
  /\ lsn (snd (SyncRepReleaseWaiters (Ex.sender 1) Ex.sh)) SYNC_REP_WAIT_FLUSH = 592
  /\ SyncRepQueue (snd (SyncRepReleaseWaiters (Ex.sender 1) Ex.sh)) SYNC_REP_WAIT_FLUSH
     = [1%nat; 2%nat; 3%nat].
Proof.
  assert (Hwf : queues_wf Ex.sh) by (unfold queues_wf; simpl; concrete_nodup).
  assert (Hord : forall mode, SyncRepQueueIsOrderedByLSN mode Ex.sh = true)
    by (intros []; reflexivity).
  destruct (SyncRepReleaseWaiters_election_and_release (Ex.sender 1) Ex.sh eq_refl Hwf Hord)
    as (_ & _ & Hwin).
  destruct (Hwin eq_refl) as [_ Hmodes].
  destruct (Hmodes SYNC_REP_WAIT_WRITE) as [Hw _].
  destruct (Hmodes SYNC_REP_WAIT_FLUSH) as [_ Hf].
  destruct (Hw eq_refl) as (W1 & W2 & _).
  destruct Hf as (F1 & F2 & _); [simpl; lia|].
  split; [reflexivity|]. split; [exact W1|]. split; [exact W2|].
  split; [exact F1 | exact F2].
Defined.

(** ** The fast paths of SyncRepWaitForLSN *)

(** C3.  A session in a sync wait mode that reaches the test of lines
    176-177 (it is not inside the SIGUSR1 handler and, on the dispatcher, an
    active standby was found) with either sync_standbys_defined unset on a
    non-dispatcher or [XactCommitLSN <= lsn mode]: the call returns for
    every schedule of sleeps, the empty one included, with the lock
    released; the queues and every PGPROC are as before, so the slot is
    linked nowhere if it was detached at entry. *)
Theorem SyncRepWaitForLSN_late_ack_fast_path :
  forall (sched : list Sleep) (XactCommitLSN : XLogRecPtr) (b : Backend)
         (sh : Shared) (mode : WaitMode),
    InSIGUSR1Handler b = false ->
    SyncRepWaitMode b = Some mode ->
    (Gp_role_dispatch b = true ->
     syncStandbyPresent_scan (walsnds sh) (seq 0 (max_wal_senders sh)) = true) ->
    (Gp_role_dispatch b = false /\ sync_standbys_defined sh = false)
    \/ XactCommitLSN <= lsn sh mode ->
    exists sh',
      SyncRepWaitForLSN_enter XactCommitLSN b sh = Returned sh'
      /\ SyncRepWaitForLSN sched XactCommitLSN b sh = Return (b, sh')
      /\ SyncRepWaitForLSN [] XactCommitLSN b sh = Return (b, sh')
      /\ SyncRepLock sh' = None
      /\ SyncRepQueue sh' = SyncRepQueue sh
      /\ allProcs sh' = allProcs sh
      /\ lsn sh' = lsn sh
      /\ trace sh' = trace sh ++ [EvLWLockAcquire LW_EXCLUSIVE; EvLWLockRelease]
      /\ (SHMQueueIsDetached (MyProc b) sh = true ->
          SHMQueueIsDetached (MyProc b) sh' = true).
Proof.
  intros sched L b sh mode Hsig Hmode Hscan Hfast.
  exists (LWLockRelease (LWLockAcquire LW_EXCLUSIVE sh)).
  assert (Hent : SyncRepWaitForLSN_enter L b sh =
                 Returned (LWLockRelease (LWLockAcquire LW_EXCLUSIVE sh))).
  { unfold SyncRepWaitForLSN_enter. rewrite Hsig, Hmode.
    change (walsnds (LWLockAcquire LW_EXCLUSIVE sh)) with (walsnds sh).
    change (max_wal_senders (LWLockAcquire LW_EXCLUSIVE sh)) with (max_wal_senders sh).
    destruct (Gp_role_dispatch b) eqn:Hd.
    - rewrite (Hscan eq_refl). simpl.
      destruct Hfast as [[Hc _]|Hle]; [discriminate|].
      unfold fast_path. simpl. apply Z.leb_le in Hle. rewrite Hle.
      now rewrite orb_true_r.
    - simpl. unfold fast_path. rewrite Hd. simpl.
      destruct Hfast as [[_ Hs]|Hle].
      + now rewrite Hs.
      + apply Z.leb_le in Hle. rewrite Hle. now rewrite orb_true_r. }
  split; [exact Hent|].
  unfold SyncRepWaitForLSN. rewrite Hent. simpl.
  repeat split; try reflexivity.
  - now rewrite <- app_assoc.
  - tauto.
Qed.

Lemma SyncRepWaitForLSN_late_ack_fast_path_witness :
  exists sh',
    SyncRepWaitForLSN [] 500 (Ex.session 5) Ex.sh = Return (Ex.session 5, sh')
    /\ SyncRepQueue sh' = SyncRepQueue Ex.sh.
Proof.
  destruct (SyncRepWaitForLSN_late_ack_fast_path
              [] 500 (Ex.session 5) Ex.sh SYNC_REP_WAIT_FLUSH eq_refl eq_refl)
    as (sh' & _ & _ & H & _ & Hq & _).
  - discriminate.
  - right. simpl. lia.
  - exists sh'. split; assumption.
Defined.

(** ** Draining the queues *)

Lemma due_prefix_all hw procs q :
  due_prefix true hw procs q = q /\ after_due_prefix true hw procs q = [].
Proof.
  induction q as [|p q [IH1 IH2]]; simpl; [now split|].
  split; [now f_equal | assumption].
Qed.

Lemma wake_all_modes_spec sh :
  queues_wf sh ->
  let sh' := wake_all_modes sh in
  (forall mode, SyncRepQueue sh' mode = [])
  /\ (forall p, allProcs sh' p =
                if mem p (SyncRepQueue sh SYNC_REP_WAIT_WRITE)
                   || mem p (SyncRepQueue sh SYNC_REP_WAIT_FLUSH)
                then woken_proc (allProcs sh p) else allProcs sh p)
  /\ same_control sh sh'
  /\ trace sh' = trace sh ++ map EvSetLatch (SyncRepQueue sh SYNC_REP_WAIT_WRITE)
                          ++ map EvSetLatch (SyncRepQueue sh SYNC_REP_WAIT_FLUSH).
Proof.
  intros Hwf sh'. unfold wake_all_modes in sh'. simpl in sh'.
  destruct (wake_queue_spec true SYNC_REP_WAIT_WRITE sh Hwf)
    as (A1 & A2 & A3 & A4 & A5 & _).
  set (sh1 := fst (SyncRepWakeQueue true SYNC_REP_WAIT_WRITE sh)) in *.
  destruct (due_prefix_all (lsn sh SYNC_REP_WAIT_WRITE) (allProcs sh)
                           (SyncRepQueue sh SYNC_REP_WAIT_WRITE)) as [D1 D2].
  rewrite D1 in A3, A5. rewrite D2 in A1. simpl other_mode in A2.
  assert (Hwf1 : queues_wf sh1).
  { unfold queues_wf. rewrite A1, A2. simpl.
    unfold queues_wf in Hwf. now apply NoDup_app_remove_l in Hwf. }
  destruct (wake_queue_spec true SYNC_REP_WAIT_FLUSH sh1 Hwf1)
    as (B1 & B2 & B3 & B4 & B5 & _).
  fold sh' in B1, B2, B3, B4, B5.
  destruct (due_prefix_all (lsn sh1 SYNC_REP_WAIT_FLUSH) (allProcs sh1)
                           (SyncRepQueue sh1 SYNC_REP_WAIT_FLUSH)) as [E1 E2].
  rewrite E1 in B3, B5. rewrite E2 in B1. simpl other_mode in B2.
  rewrite A2 in B3, B5.
  split; [intros []; [now rewrite B2 | assumption]|].
  split.
  { intros p. rewrite B3, A3.
    destruct (mem p (SyncRepQueue sh SYNC_REP_WAIT_WRITE)),
             (mem p (SyncRepQueue sh SYNC_REP_WAIT_FLUSH)); reflexivity. }
  split.
  { unfold same_control in *.
    destruct A4 as (a1 & a2 & a3 & a4 & a5), B4 as (b1 & b2 & b3 & b4 & b5).
    repeat split; congruence. }
  rewrite B5, A5. now rewrite <- app_assoc.
Qed.

(** C4.  SyncRepUpdateSyncStandbysDefined on well-formed queues.  When the
    value computed from synchronous_standby_names equals the stored flag the
    state is returned as it is.  When it differs and is false, every waiter
    of either queue is put in WAIT_COMPLETE, unlinked and has its latch set
    while the stored flag still has its old value; the flag is stored after
    the last latch has been set, and the lock is released after that. *)
Theorem SyncRepUpdateSyncStandbysDefined_drains_then_stores :
  forall (names : option string) (sh : Shared),
    queues_wf sh ->
    let desired := SyncStandbysDefined names in
    let sh' := SyncRepUpdateSyncStandbysDefined names sh in
    let drained := wake_all_modes (LWLockAcquire LW_EXCLUSIVE sh) in
    (desired = sync_standbys_defined sh -> sh' = sh)
    /\ (desired <> sync_standbys_defined sh -> desired = false ->
        (sync_standbys_defined drained = sync_standbys_defined sh
         /\ forall mode p, In p (SyncRepQueue sh mode) ->
                           syncRepState (allProcs drained p) = SYNC_REP_WAIT_COMPLETE
                           /\ procLatch (allProcs drained p) = true
                           /\ SHMQueueIsDetached p drained = true)
        /\ sh' = LWLockRelease
                   (emit (EvStoreSyncStandbysDefined false)
                         (set_sync_standbys_defined false drained))
        /\ (forall mode, SyncRepQueue sh' mode = [])
        /\ (forall mode p, In p (SyncRepQueue sh mode) ->
                           syncRepState (allProcs sh' p) = SYNC_REP_WAIT_COMPLETE
                           /\ procLatch (allProcs sh' p) = true
                           /\ SHMQueueIsDetached p sh' = true)
        /\ (forall p, (forall mode, ~ In p (SyncRepQueue sh mode)) ->
                      allProcs sh' p = allProcs sh p)
        /\ sync_standbys_defined sh' = false
        /\ SyncRepLock sh' = None
        /\ trace sh' =
             trace sh
             ++ EvLWLockAcquire LW_EXCLUSIVE
             :: map EvSetLatch (SyncRepQueue sh SYNC_REP_WAIT_WRITE)
             ++ map EvSetLatch (SyncRepQueue sh SYNC_REP_WAIT_FLUSH)
             ++ [EvStoreSyncStandbysDefined false; EvLWLockRelease]).
Proof.
  intros names sh Hwf desired sh' drained.
  unfold SyncRepUpdateSyncStandbysDefined in sh'. fold desired in sh'.
  split.
  { intros Heq. subst sh'. rewrite Heq. now rewrite Bool.eqb_reflx. }
  intros Hne Hfalse.
  assert (Hneq : Bool.eqb desired (sync_standbys_defined sh) = false).
  { destruct (Bool.eqb desired (sync_standbys_defined sh)) eqn:E; [|reflexivity].
    apply Bool.eqb_prop in E. contradiction. }
  assert (Hsh' : sh' = LWLockRelease
                         (emit (EvStoreSyncStandbysDefined false)
                               (set_sync_standbys_defined false drained))).
  { subst sh'. rewrite Hneq. simpl negb. cbv iota. rewrite Hfalse. reflexivity. }
  assert (Hwf0 : queues_wf (LWLockAcquire LW_EXCLUSIVE sh)) by exact Hwf.
  destruct (wake_all_modes_spec _ Hwf0) as (Q & P & C & T).
  fold drained in Q, P, C, T.
  change (SyncRepQueue (LWLockAcquire LW_EXCLUSIVE sh)) with (SyncRepQueue sh) in P, T.
  change (allProcs (LWLockAcquire LW_EXCLUSIVE sh)) with (allProcs sh) in P.
  destruct C as (_ & _ & _ & Cflag & _). simpl in Cflag.
  assert (Hwoken : forall mode p, In p (SyncRepQueue sh mode) ->
                     syncRepState (allProcs drained p) = SYNC_REP_WAIT_COMPLETE
                     /\ procLatch (allProcs drained p) = true
                     /\ SHMQueueIsDetached p drained = true).
  { intros mode p Hp. rewrite P.
    assert (Hm : mem p (SyncRepQueue sh SYNC_REP_WAIT_WRITE)
                 || mem p (SyncRepQueue sh SYNC_REP_WAIT_FLUSH) = true).
    { apply orb_true_iff. destruct mode; [left | right]; now apply mem_In. }
    rewrite Hm. split; [reflexivity|]. split; [reflexivity|].
    apply detached_iff. intros m. rewrite Q. tauto. }
  split; [split; [exact Cflag | exact Hwoken]|].
  split; [exact Hsh'|].
  rewrite Hsh'. simpl.
  split; [exact Q|]. split.
  { intros mode p Hp. destruct (Hwoken mode p Hp) as (H1 & H2 & H3).
    split; [exact H1|]. split; [exact H2|].
    apply detached_iff. intros m. simpl. rewrite Q. tauto. }
  split.
  { intros p Hp. rewrite P.
    assert (Hm : mem p (SyncRepQueue sh SYNC_REP_WAIT_WRITE)
                 || mem p (SyncRepQueue sh SYNC_REP_WAIT_FLUSH) = false).
    { apply orb_false_iff. split; apply mem_not_In, Hp. }
    now rewrite Hm. }
  split; [reflexivity|]. split; [reflexivity|].
  rewrite T. simpl. rewrite <- !app_assoc. simpl. reflexivity.
Qed.

Lemma SyncRepUpdateSyncStandbysDefined_drains_then_stores_witness :
  trace (SyncRepUpdateSyncStandbysDefined None Ex.sh) =
  [EvLWLockAcquire LW_EXCLUSIVE; EvSetLatch 4; EvSetLatch 1; EvSetLatch 2; EvSetLatch 3;
   EvStoreSyncStandbysDefined false; EvLWLockRelease]
  /\ sync_standbys_defined (SyncRepUpdateSyncStandbysDefined None Ex.sh) = false.
Proof.
  assert (Hwf : queues_wf Ex.sh) by (unfold queues_wf; simpl; concrete_nodup).
  destruct (SyncRepUpdateSyncStandbysDefined_drains_then_stores None Ex.sh Hwf)
    as [_ H].
  destruct H as (_ & _ & _ & _ & _ & Hflag & _ & Htrace);
    [discriminate | reflexivity |].
  split; [exact Htrace | exact Hflag].
Defined.

(** ** SyncRepQueueInsert *)

Lemma ordered_loop_snoc procs :
  forall l x last,
    SyncRepQueueIsOrderedByLSN_loop procs (l ++ [x]) last = true ->
    SyncRepQueueIsOrderedByLSN_loop procs l last = true
    /\ forall y, In y l -> waitLSN (procs y) <= waitLSN (procs x).
Proof.
  induction l as [|a l IH]; intros x last H.
  - split; [reflexivity | simpl; tauto].
  - simpl app in H. apply ordered_loop_tail in H. destruct H as [Hlast H].
    pose proof (ordered_loop_lower procs _ _ H x) as Hax.
    destruct (IH x _ H) as [IH1 IH2].
    split.
    + simpl. destruct (Z.ltb_spec (waitLSN (procs a)) last); [lia | assumption].
    + intros y [<-|Hy]; [|now apply IH2].
      apply Hax. apply in_or_app. right. now left.
Qed.

Lemma filter_none {A} (f : A -> bool) l :
  (forall x, In x l -> f x = false) -> filter f l = [].
Proof.
  induction l as [|a l IH]; simpl; intros H; [reflexivity|].
  rewrite (H a) by now left. apply IH. intros x Hx. apply H. now right.
Qed.

Lemma filter_every {A} (f : A -> bool) l :
  (forall x, In x l -> f x = true) -> filter f l = l.
Proof.
  induction l as [|a l IH]; simpl; intros H; [reflexivity|].
  rewrite (H a) by now left. f_equal. apply IH. intros x Hx. apply H. now right.
Qed.

(** The walk on the reversal of an ordered queue: everything strictly below
    the newcomer stays in front of it, everything else follows it. *)
Lemma insert_walk_spec procs my :
  forall proc passed last,
    SyncRepQueueIsOrderedByLSN_loop procs (rev proc) last = true ->
    SyncRepQueueInsert_walk procs my proc passed =
    filter (fun p => waitLSN (procs p) <? waitLSN (procs my)) (rev proc)
    ++ my :: filter (fun p => waitLSN (procs my) <=? waitLSN (procs p)) (rev proc)
    ++ passed.
Proof.
  induction proc as [|p prev IH]; intros passed last Hord; [reflexivity|].
  simpl rev in Hord. apply ordered_loop_snoc in Hord. destruct Hord as [Hord Hle].
  cbn [SyncRepQueueInsert_walk].
  destruct (Z.ltb_spec (waitLSN (procs p)) (waitLSN (procs my))) as [Hlt|Hge].
  - rewrite filter_every, filter_none.
    + reflexivity.
    + intros x Hx. apply Z.leb_gt. simpl in Hx. apply in_app_or in Hx.
      destruct Hx as [Hx|[<-|[]]]; [specialize (Hle x Hx); lia | lia].
    + intros x Hx. apply Z.ltb_lt. simpl in Hx. apply in_app_or in Hx.
      destruct Hx as [Hx|[<-|[]]]; [specialize (Hle x Hx); lia | lia].
  - rewrite (IH (p :: passed) last Hord). simpl rev. rewrite !filter_app. simpl.
    apply Z.ltb_ge in Hge as Hlt'. rewrite Hlt'.
    apply Z.leb_le in Hge. rewrite Hge.
    rewrite app_nil_r, <- app_assoc. reflexivity.
Qed.

Lemma ordered_split_at procs key :
  forall q last,
    SyncRepQueueIsOrderedByLSN_loop procs q last = true ->
    q = filter (fun p => waitLSN (procs p) <? key) q
        ++ filter (fun p => key <=? waitLSN (procs p)) q.
Proof.
  induction q as [|x q IH]; intros last H; [reflexivity|].
  apply ordered_loop_tail in H as Ht. destruct Ht as [_ Ht]. simpl.
  destruct (Z.ltb_spec (waitLSN (procs x)) key) as [Hlt|Hge].
  - apply Z.leb_gt in Hlt. rewrite Hlt. simpl. f_equal. now apply (IH _ Ht).
  - apply Z.leb_le in Hge as Hle. rewrite Hle.
    rewrite filter_none, filter_every; [reflexivity | |].
    + intros y Hy. apply Z.leb_le.
      pose proof (ordered_loop_lower procs q _ Ht y Hy). lia.
    + intros y Hy. apply Z.ltb_ge.
      pose proof (ordered_loop_lower procs q _ Ht y Hy). lia.
Qed.

Lemma ordered_insert procs my :
  forall q last,
    SyncRepQueueIsOrderedByLSN_loop procs q last = true ->
    last <= waitLSN (procs my) ->
    SyncRepQueueIsOrderedByLSN_loop
      procs
      (filter (fun p => waitLSN (procs p) <? waitLSN (procs my)) q
       ++ my :: filter (fun p => waitLSN (procs my) <=? waitLSN (procs p)) q)
      last = true.
Proof.
  induction q as [|x q IH]; intros last Hord Hlast.
  - simpl. apply Z.ltb_ge in Hlast. now rewrite Hlast.
  - apply ordered_loop_tail in Hord as Ht. destruct Ht as [Hx Ht].
    cbn [filter].
    destruct (Z.ltb_spec (waitLSN (procs x)) (waitLSN (procs my))) as [Hlt|Hge].
    + apply Z.leb_gt in Hlt as Hnle. rewrite Hnle. cbn [app SyncRepQueueIsOrderedByLSN_loop].
      apply Z.ltb_ge in Hx. rewrite Hx. apply IH; [assumption | lia].
    + apply Z.leb_le in Hge as Hle. rewrite Hle.
      rewrite filter_none, filter_every.
      * cbn [app SyncRepQueueIsOrderedByLSN_loop].
        apply Z.ltb_ge in Hlast. rewrite Hlast.
        apply Z.ltb_ge in Hge. rewrite Hge. exact Ht.
      * intros y Hy. apply Z.leb_le.
        pose proof (ordered_loop_lower procs q _ Ht y Hy). lia.
      * intros y Hy. apply Z.ltb_ge.
        pose proof (ordered_loop_lower procs q _ Ht y Hy). lia.
Qed.

(** C5, as the code has it.  On a queue ordered by waitLSN the backward
    walk of SyncRepQueueInsert stops at the last node whose waitLSN is
    strictly smaller than the newcomer's and links the newcomer right after
    it, at the head when there is none: the nodes strictly below keep their
    places in front of the newcomer, and every other node, the ones with an
    equal waitLSN included, follows the newcomer in its old order.  The
    queue is still ordered afterwards. *)
Theorem SyncRepQueueInsert_before_equals :
  forall (mode : WaitMode) (b : Backend) (sh : Shared),
    SyncRepQueueIsOrderedByLSN mode sh = true ->
    let key := waitLSN (allProcs sh (MyProc b)) in
    let q := SyncRepQueue sh mode in
    let below := filter (fun p => waitLSN (allProcs sh p) <? key) q in
    let rest := filter (fun p => key <=? waitLSN (allProcs sh p)) q in
    let sh' := SyncRepQueueInsert mode b sh in
    SyncRepQueue sh' mode = below ++ MyProc b :: rest
    /\ q = below ++ rest
    /\ (forall p, In p q -> waitLSN (allProcs sh p) = key -> In p rest)
    /\ (0 <= key -> SyncRepQueueIsOrderedByLSN mode sh' = true)
    /\ SyncRepQueue sh' (other_mode mode) = SyncRepQueue sh (other_mode mode)
    /\ allProcs sh' = allProcs sh.
Proof.
  intros mode b sh Hord key q below rest sh'.
  assert (Hq' : SyncRepQueue sh' mode = below ++ MyProc b :: rest).
  { subst sh'. simpl. unfold upd_mode. rewrite WaitMode_eqb_refl.
    unfold SyncRepQueueIsOrderedByLSN in Hord.
    rewrite <- (rev_involutive (SyncRepQueue sh mode)) in Hord.
    rewrite (insert_walk_spec _ _ _ [] 0 Hord).
    rewrite rev_involutive, app_nil_r. reflexivity. }
  split; [exact Hq'|].
  split; [exact (ordered_split_at _ key _ _ Hord)|].
  split.
  { intros p Hp Hk. apply filter_In. split; [assumption|]. apply Z.leb_le. lia. }
  split.
  { intros Hkey. unfold SyncRepQueueIsOrderedByLSN. rewrite Hq'.
    change (allProcs sh') with (allProcs sh).
    now apply ordered_insert. }
  split; [|reflexivity].
  subst sh'. simpl. unfold upd_mode. now rewrite WaitMode_eqb_other.
Qed.

Lemma SyncRepQueueInsert_before_equals_witness :
  SyncRepQueue (SyncRepQueueInsert SYNC_REP_WAIT_FLUSH (Ex.session 5) Ex.sh)
               SYNC_REP_WAIT_FLUSH = [5%nat; 1%nat; 2%nat; 3%nat].
Proof.
  exact (proj1 (SyncRepQueueInsert_before_equals
                  SYNC_REP_WAIT_FLUSH (Ex.session 5) Ex.sh eq_refl)).
Defined.

(** The spec's wording of C5 fails: a session that commits at 0x200 while
    PGPROC 1 waits at 0x200 is queued in front of PGPROC 1, not after it. *)
Lemma SyncRepQueueInsert_not_after_equals :
  SyncRepQueueIsOrderedByLSN SYNC_REP_WAIT_FLUSH Ex.one_waiter = true
  /\ (exists sh',
        SyncRepWaitForLSN_enter 512 (Ex.session 5) Ex.one_waiter = Enqueued sh'
        /\ waitLSN (allProcs sh' 1%nat) = waitLSN (allProcs sh' 5%nat)
        /\ SyncRepQueue sh' SYNC_REP_WAIT_FLUSH = [5%nat; 1%nat])
  /\ SyncRepQueue (SyncRepQueueInsert SYNC_REP_WAIT_FLUSH (Ex.session 5) Ex.one_waiter)
                  SYNC_REP_WAIT_FLUSH
     <> insert_after_equals (allProcs Ex.one_waiter) 5
                            (SyncRepQueue Ex.one_waiter SYNC_REP_WAIT_FLUSH).
Proof.
  split; [reflexivity|]. split.
  - eexists. split; [reflexivity|]. split; reflexivity.
  - discriminate.
Qed.

(** ** The standby priority *)

(** C6, as the code has it.  SyncRepGetStandbyPriority returns 1 for every
    sender, whatever its application name and whatever
    synchronous_standby_names holds; SyncRepInitConfig therefore leaves the
    calling sender with priority 1. *)
Theorem SyncRepGetStandbyPriority_constant :
  forall (w : WalSender) (sh : Shared),
    SyncRepGetStandbyPriority w = 1
    /\ sync_standby_priority (walsnds (SyncRepInitConfig w sh) (MyWalSnd w)) = 1.
Proof.
  intros w sh. split; [reflexivity|].
  unfold SyncRepInitConfig, SyncRepGetStandbyPriority.
  destruct (Z.eqb_spec (sync_standby_priority (walsnds sh (MyWalSnd w))) 1) as [He|Hne];
    simpl.
  - exact He.
  - unfold upd. now rewrite Nat.eqb_refl.
Qed.

(** The spec's wording of C6 fails: "standby1" is not in the list
    "alpha,beta", the spec's priority for it is 0, the code's is 1. *)
Lemma SyncRepGetStandbyPriority_unlisted_not_zero :
  listed (Ex.sender 0) = false
  /\ get_standby_priority_spec (Ex.sender 0) = 0
  /\ SyncRepGetStandbyPriority (Ex.sender 0) <> 0.
Proof.
  split; [reflexivity|]. split; [reflexivity | discriminate].
Qed.

(** ** The sleep loop *)

Lemma reset_state p sh :
  syncRepState (allProcs (ResetLatch p sh) p) = syncRepState (allProcs sh p).
Proof. simpl. now rewrite upd_same. Qed.

Lemma cancel_wait_spec b sh :
  let sh' := SyncRepCancelWait b sh in
  (forall mode, SyncRepQueue sh' mode = unlink (MyProc b) (SyncRepQueue sh mode))
  /\ SHMQueueIsDetached (MyProc b) sh' = true
  /\ syncRepState (allProcs sh' (MyProc b)) = SYNC_REP_NOT_WAITING
  /\ (forall p, p <> MyProc b -> allProcs sh' p = allProcs sh p)
  /\ lsn sh' = lsn sh
  /\ SyncRepLock sh' = None
  /\ trace sh' = trace sh ++ [EvLWLockAcquire LW_EXCLUSIVE; EvLWLockRelease].
Proof.
  intros sh'. unfold SyncRepCancelWait in sh'.
  change (SHMQueueIsDetached (MyProc b) (LWLockAcquire LW_EXCLUSIVE sh))
    with (SHMQueueIsDetached (MyProc b) sh) in sh'.
  assert (Hq : forall mode, SyncRepQueue sh' mode = unlink (MyProc b) (SyncRepQueue sh mode)).
  { intros mode. subst sh'.
    destruct (SHMQueueIsDetached (MyProc b) sh) eqn:Hd; simpl; [|reflexivity].
    symmetry. apply unlink_absent. now apply detached_iff. }
  split; [exact Hq|]. split.
  { apply detached_iff. intros m. rewrite Hq. apply unlink_gone. }
  subst sh'. destruct (SHMQueueIsDetached (MyProc b) sh); simpl.
  - rewrite upd_same. repeat split; try reflexivity.
    + intros p Hp. now apply upd_other.
    + now rewrite <- app_assoc.
  - rewrite upd_same. repeat split; try reflexivity.
    + intros p Hp. now apply upd_other.
    + now rewrite <- app_assoc.
Qed.

(** C7.  A pass of the sleep loop that finds the slot not yet complete and
    ProcDiePending set reports at WARNING on the dispatcher and at FATAL
    elsewhere; ProcDiePending stays set, and no released LSN and no other
    PGPROC is touched.  On the dispatcher the report returns: the pass sets
    whereToSendOutput to DestNone, runs SyncRepCancelWait, which unlinks the
    slot and puts it back in NOT_WAITING, and leaves the loop, whatever the
    rest of the schedule is.  Elsewhere the process ends inside the report:
    output is not switched off, SyncRepCancelWait is not run and the loop is
    not left by its break; the slot stays as it was, linked and in its
    state, until SyncRepCleanupAtProcExit on the exit path unlinks it. *)
Theorem SyncRepWaitForLSN_termination_pending :
  forall (s : Sleep) (rest : list Sleep) (b : Backend) (sh : Shared),
    syncRepState (allProcs sh (MyProc b)) <> SYNC_REP_WAIT_COMPLETE ->
    ProcDiePending b = true ->
    let r := SyncRepWaitForLSN_pass (postmaster_alive s) b sh in
    let b' := snd (fst r) in
    let sh' := snd r in
    let lvl := if Gp_role_dispatch b then WARNING else FATAL in
    (exists recheck,
        (recheck = [] \/ recheck = [EvLWLockAcquire LW_SHARED; EvLWLockRelease])
        /\ trace sh' =
             trace sh ++ recheck
             ++ EvReport lvl MsgCancelWaitTerminating
                :: (if Gp_role_dispatch b
                    then [EvLWLockAcquire LW_EXCLUSIVE; EvLWLockRelease]
                    else []))
    /\ ProcDiePending b' = true
    /\ (forall p, p <> MyProc b -> allProcs sh' p = allProcs sh p)
    /\ lsn sh' = lsn sh
    /\ (Gp_role_dispatch b = true ->
        fst (fst r) = Break
        /\ SyncRepWaitForLSN_loop (s :: rest) b sh = Return (b', sh')
        /\ whereToSendOutput b' = DestNone
        /\ (forall mode, SyncRepQueue sh' mode = unlink (MyProc b) (SyncRepQueue sh mode))
        /\ SHMQueueIsDetached (MyProc b) sh' = true
        /\ syncRepState (allProcs sh' (MyProc b)) = SYNC_REP_NOT_WAITING
        /\ SyncRepLock sh' = None)
    /\ (Gp_role_dispatch b = false ->
        fst (fst r) = ProcExit
        /\ SyncRepWaitForLSN_loop (s :: rest) b sh = ProcExited (b', sh')
        /\ b' = b
        /\ SyncRepQueue sh' = SyncRepQueue sh
        /\ syncRepState (allProcs sh' (MyProc b)) = syncRepState (allProcs sh (MyProc b))
        /\ waitLSN (allProcs sh' (MyProc b)) = waitLSN (allProcs sh (MyProc b))
        /\ SHMQueueIsDetached (MyProc b) (SyncRepCleanupAtProcExit b sh') = true
        /\ allProcs (SyncRepCleanupAtProcExit b sh') = allProcs sh').
Proof.
  intros s rest b sh Hstate Hdie r b' sh' lvl.
  assert (Hr : exists recheck shx,
             (recheck = [] \/ recheck = [EvLWLockAcquire LW_SHARED; EvLWLockRelease])
             /\ trace shx = trace sh ++ recheck
             /\ SyncRepQueue shx = SyncRepQueue sh
             /\ lsn shx = lsn sh
             /\ (forall p, p <> MyProc b -> allProcs shx p = allProcs sh p)
             /\ syncRepState (allProcs shx (MyProc b))
                = syncRepState (allProcs sh (MyProc b))
             /\ waitLSN (allProcs shx (MyProc b)) = waitLSN (allProcs sh (MyProc b))
             /\ r = if Gp_role_dispatch b
                    then (Break, set_whereToSendOutput DestNone b,
                          SyncRepCancelWait (set_whereToSendOutput DestNone b)
                            (report WARNING MsgCancelWaitTerminating shx))
                    else (ProcExit, b, report FATAL MsgCancelWaitTerminating shx)).
  { subst r. unfold SyncRepWaitForLSN_pass. rewrite reset_state.
    destruct (syncRepState (allProcs sh (MyProc b))) eqn:E.
    - exists [], (ResetLatch (MyProc b) sh). cbn [SyncRepState_eqb]. rewrite Hdie.
      rewrite app_nil_r.
      split; [now left|]. split; [reflexivity|]. split; [reflexivity|].
      split; [reflexivity|]. split; [intros p Hp; now apply upd_other|].
      split; [now rewrite reset_state|].
      split; [simpl; now rewrite upd_same|].
      destruct (Gp_role_dispatch b); reflexivity.
    - exists [EvLWLockAcquire LW_SHARED; EvLWLockRelease],
             (LWLockRelease (LWLockAcquire LW_SHARED (ResetLatch (MyProc b) sh))).
      cbn [SyncRepState_eqb].
      change (syncRepState
                (allProcs (LWLockAcquire LW_SHARED (ResetLatch (MyProc b) sh)) (MyProc b)))
        with (syncRepState (allProcs (ResetLatch (MyProc b) sh) (MyProc b))).
      rewrite reset_state, E. cbn [SyncRepState_eqb]. rewrite Hdie.
      split; [now right|]. split; [simpl; now rewrite <- app_assoc|].
      split; [reflexivity|]. split; [reflexivity|].
      split; [intros p Hp; now apply upd_other|].
      split; [simpl; now rewrite upd_same|].
      split; [simpl; now rewrite upd_same|].
      destruct (Gp_role_dispatch b); reflexivity.
    - congruence. }
  destruct Hr as (recheck & shx & Hre & Htr & Hq & Hl & Hp & Hs & Hw & Hr).
  destruct (Gp_role_dispatch b) eqn:Hrole.
  - (* the dispatcher: the WARNING returns *)
    destruct (cancel_wait_spec (set_whereToSendOutput DestNone b)
                               (report WARNING MsgCancelWaitTerminating shx))
      as (C1 & C2 & C3 & C4 & C5 & C6 & C7).
    assert (Hb' : b' = set_whereToSendOutput DestNone b) by (subst b'; now rewrite Hr).
    assert (Hsh' : sh' = SyncRepCancelWait (set_whereToSendOutput DestNone b)
                           (report WARNING MsgCancelWaitTerminating shx))
      by (subst sh'; now rewrite Hr).
    simpl MyProc in *.
    split.
    { exists recheck. split; [assumption|]. rewrite Hsh', C7. simpl. rewrite Htr.
      rewrite <- !app_assoc. reflexivity. }
    split; [rewrite Hb'; exact Hdie|]. split.
    { intros p Hne. rewrite Hsh', C4 by assumption. simpl. now apply Hp. }
    split; [rewrite Hsh', C5; exact Hl|]. split; [|discriminate].
    intros _. split; [now rewrite Hr|]. split.
    { cbn [SyncRepWaitForLSN_loop]. fold r. rewrite Hb', Hsh', Hr. reflexivity. }
    rewrite Hb', Hsh'.
    split; [reflexivity|]. split.
    { intros mode. rewrite C1. simpl. now rewrite Hq. }
    split; [exact C2|]. split; [exact C3 | exact C6].
  - (* elsewhere: the process ends inside the FATAL report *)
    assert (Hb' : b' = b) by (subst b'; now rewrite Hr).
    assert (Hsh' : sh' = report FATAL MsgCancelWaitTerminating shx)
      by (subst sh'; now rewrite Hr).
    split.
    { exists recheck. split; [assumption|]. rewrite Hsh'. simpl. rewrite Htr.
      rewrite <- !app_assoc. reflexivity. }
    split; [rewrite Hb'; exact Hdie|]. split.
    { intros p Hne. rewrite Hsh'. simpl. now apply Hp. }
    split; [rewrite Hsh'; exact Hl|]. split; [discriminate|].
    intros _. split; [now rewrite Hr|]. split.
    { cbn [SyncRepWaitForLSN_loop]. fold r. rewrite Hb', Hsh', Hr. reflexivity. }
    split; [exact Hb'|]. rewrite Hsh'.
    split; [exact Hq|]. split; [exact Hs|]. split; [exact Hw|].
    unfold SyncRepCleanupAtProcExit.
    destruct (SHMQueueIsDetached (MyProc b) (report FATAL MsgCancelWaitTerminating shx))
      eqn:Hd; cbn [negb].
    + split; [exact Hd | reflexivity].
    + split; [|reflexivity].
      apply detached_iff. intros m. simpl. apply unlink_gone.
Qed.

Lemma SyncRepWaitForLSN_termination_pending_witness :
  let b := set_ProcDiePending true (Demo.dispatcher 2) in
  fst (fst (SyncRepWaitForLSN_pass true b Ex.sh)) = Break
  /\ SyncRepQueue (snd (SyncRepWaitForLSN_pass true b Ex.sh)) SYNC_REP_WAIT_FLUSH
     = [1%nat; 3%nat].
Proof.
  destruct (SyncRepWaitForLSN_termination_pending
              (mkSleep true false false (fun sh => sh)) []
              (set_ProcDiePending true (Demo.dispatcher 2)) Ex.sh)
    as (_ & _ & _ & _ & H & _).
  - discriminate.
  - reflexivity.
  - destruct (H eq_refl) as (H1 & _ & _ & H2 & _).
    split; [exact H1 | exact (H2 SYNC_REP_WAIT_FLUSH)].
Defined.

Lemma pass_dying_exits alive :
  SyncRepWaitForLSN_pass alive (Ex.dying 2) Ex.sh
  = (ProcExit, Ex.dying 2,
     report FATAL MsgCancelWaitTerminating
       (LWLockRelease (LWLockAcquire LW_SHARED (ResetLatch 2 Ex.sh)))).
Proof. reflexivity. Qed.

(** The spec's wording of C7 fails for a session that is not the
    dispatcher: session 2, linked in the flush queue of [Ex.sh] with
    termination pending, ends inside the FATAL report.  The loop is not
    left by its break, output is not switched off, and the slot is still
    linked and in SYNC_REP_WAITING. *)
Lemma SyncRepWaitForLSN_fatal_skips_cancel_wait :
  ProcDiePending (Ex.dying 2) = true
  /\ Gp_role_dispatch (Ex.dying 2) = false
  /\ syncRepState (allProcs Ex.sh 2%nat) = SYNC_REP_WAITING
  /\ fst (fst (SyncRepWaitForLSN_pass true (Ex.dying 2) Ex.sh)) <> Break
  /\ whereToSendOutput (snd (fst (SyncRepWaitForLSN_pass true (Ex.dying 2) Ex.sh)))
     <> DestNone
  /\ SHMQueueIsDetached 2 (snd (SyncRepWaitForLSN_pass true (Ex.dying 2) Ex.sh)) = false
  /\ syncRepState (allProcs (snd (SyncRepWaitForLSN_pass true (Ex.dying 2) Ex.sh)) 2%nat)
     <> SYNC_REP_NOT_WAITING
  /\ (forall s rest,
        exists sh', SyncRepWaitForLSN_loop (s :: rest) (Ex.dying 2) Ex.sh
                    = ProcExited (Ex.dying 2, sh')).
Proof.
  do 3 (split; [reflexivity|]).
  split; [vm_compute; discriminate|].
  split; [vm_compute; discriminate|].
  split; [reflexivity|].
  split; [vm_compute; discriminate|].
  intros s rest. eexists. cbn [SyncRepWaitForLSN_loop].
  rewrite pass_dying_exits. reflexivity.
Qed.

Lemma pass_while_waiting b sh :
  syncRepState (allProcs sh (MyProc b)) = SYNC_REP_WAITING ->
  ProcDiePending b = false ->
  let checked := LWLockRelease (LWLockAcquire LW_SHARED (ResetLatch (MyProc b) sh)) in
  SyncRepWaitForLSN_pass true b sh =
  if QueryCancelPending b
  then (WaitOnLatch, set_QueryCancelPending false b,
        report WARNING MsgIgnoreQueryCancel checked)
  else (WaitOnLatch, b, checked).
Proof.
  intros Hst Hdie checked. unfold SyncRepWaitForLSN_pass.
  rewrite reset_state, Hst. cbn [SyncRepState_eqb].
  change (syncRepState
            (allProcs (LWLockAcquire LW_SHARED (ResetLatch (MyProc b) sh)) (MyProc b)))
    with (syncRepState (allProcs (ResetLatch (MyProc b) sh) (MyProc b))).
  rewrite reset_state, Hst. cbn [SyncRepState_eqb]. rewrite Hdie.
  now destruct (QueryCancelPending b).
Qed.

Lemma pass_decision_ignores_cancel alive b sh v :
  fst (fst (SyncRepWaitForLSN_pass alive (set_QueryCancelPending v b) sh)) =
  fst (fst (SyncRepWaitForLSN_pass alive b sh)).
Proof.
  unfold SyncRepWaitForLSN_pass. simpl MyProc. simpl ProcDiePending.
  rewrite reset_state.
  destruct (syncRepState (allProcs sh (MyProc b))) eqn:E; cbn [SyncRepState_eqb].
  - destruct (ProcDiePending b);
      [simpl Gp_role_dispatch; destruct (Gp_role_dispatch b); reflexivity|].
    simpl QueryCancelPending.
    destruct v, (QueryCancelPending b), alive; reflexivity.
  - change (syncRepState
              (allProcs (LWLockAcquire LW_SHARED (ResetLatch (MyProc b) sh)) (MyProc b)))
      with (syncRepState (allProcs (ResetLatch (MyProc b) sh) (MyProc b))).
    rewrite reset_state, E. cbn [SyncRepState_eqb].
    destruct (ProcDiePending b);
      [simpl Gp_role_dispatch; destruct (Gp_role_dispatch b); reflexivity|].
    simpl QueryCancelPending.
    destruct v, (QueryCancelPending b), alive; reflexivity.
  - reflexivity.
Qed.

Lemma quiet_loop_blocks :
  forall sched b sh,
    syncRepState (allProcs sh (MyProc b)) = SYNC_REP_WAITING ->
    ProcDiePending b = false ->
    Forall quiet sched ->
    SyncRepWaitForLSN_loop sched b sh = Blocked.
Proof.
  induction sched as [|s sched IH]; intros b sh Hst Hdie Hq; [reflexivity|].
  inversion Hq as [|? ? [Halive [Hnodie Hid]] Hq']; subst.
  cbn [SyncRepWaitForLSN_loop]. rewrite Halive.
  rewrite (pass_while_waiting b sh Hst Hdie).
  unfold deliver. rewrite Hnodie.
  destruct (QueryCancelPending b); rewrite Hid; apply IH; try assumption;
    destruct (cancel_arrives s); simpl; try assumption; now rewrite upd_same.
Qed.

Lemma pass_break_reasons alive b sh :
  fst (fst (SyncRepWaitForLSN_pass alive b sh)) = Break ->
  syncRepState (allProcs sh (MyProc b)) = SYNC_REP_WAIT_COMPLETE
  \/ ProcDiePending b = true
  \/ alive = false.
Proof.
  unfold SyncRepWaitForLSN_pass. rewrite reset_state.
  destruct (syncRepState (allProcs sh (MyProc b))) eqn:E; cbn [SyncRepState_eqb].
  - destruct (ProcDiePending b); [now (right; left)|].
    destruct (QueryCancelPending b), alive; simpl; try discriminate; now (right; right).
  - change (syncRepState
              (allProcs (LWLockAcquire LW_SHARED (ResetLatch (MyProc b) sh)) (MyProc b)))
      with (syncRepState (allProcs (ResetLatch (MyProc b) sh) (MyProc b))).
    rewrite reset_state, E. cbn [SyncRepState_eqb].
    destruct (ProcDiePending b); [now (right; left)|].
    destruct (QueryCancelPending b), alive; simpl; try discriminate; now (right; right).
  - now left.
Qed.

(** C8.  A pass of the sleep loop that finds the slot still WAITING, no
    termination pending, and QueryCancelPending set: it clears the flag and
    reports the request as ignored at WARNING.  With the postmaster alive the
    pass ends in WaitLatch with every queue and every syncRepState as before;
    the pass leaves the loop only when the postmaster is dead, and under no
    circumstances does the flag change whether a pass leaves the loop: a
    pass leaves it only on WAIT_COMPLETE, on termination pending or on the
    death of the postmaster.  As long as the postmaster lives, no
    termination request arrives and nobody completes the wait, the loop does
    not end, however many cancel requests arrive. *)
Theorem SyncRepWaitForLSN_ignores_query_cancel :
  forall (alive : bool) (sched : list Sleep) (b : Backend) (sh : Shared),
    syncRepState (allProcs sh (MyProc b)) = SYNC_REP_WAITING ->
    ProcDiePending b = false ->
    QueryCancelPending b = true ->
    let r := SyncRepWaitForLSN_pass alive b sh in
    let b' := snd (fst r) in
    let sh' := snd r in
    QueryCancelPending b' = false
    /\ In (EvReport WARNING MsgIgnoreQueryCancel) (trace sh')
    /\ (alive = true ->
        fst (fst r) = WaitOnLatch
        /\ SyncRepQueue sh' = SyncRepQueue sh
        /\ (forall p, syncRepState (allProcs sh' p) = syncRepState (allProcs sh p)
                      /\ waitLSN (allProcs sh' p) = waitLSN (allProcs sh p))
        /\ syncRepState (allProcs sh' (MyProc b)) = SYNC_REP_WAITING
        /\ ProcDiePending b' = false
        /\ whereToSendOutput b' = whereToSendOutput b
        /\ trace sh' = trace sh ++ [EvLWLockAcquire LW_SHARED; EvLWLockRelease;
                                    EvReport WARNING MsgIgnoreQueryCancel])
    /\ (fst (fst r) = Break -> alive = false)
    /\ fst (fst r) =
       fst (fst (SyncRepWaitForLSN_pass alive (set_QueryCancelPending false b) sh))
    /\ (forall alive0 b0 sh0,
           fst (fst (SyncRepWaitForLSN_pass alive0 b0 sh0)) = Break ->
           syncRepState (allProcs sh0 (MyProc b0)) = SYNC_REP_WAIT_COMPLETE
           \/ ProcDiePending b0 = true
           \/ alive0 = false)
    /\ (Forall quiet sched -> SyncRepWaitForLSN_loop sched b sh = Blocked).
Proof.
  intros alive sched b sh Hst Hdie Hqc r b' sh'.
  assert (Halive : alive = true ->
            r = (WaitOnLatch, set_QueryCancelPending false b,
                 report WARNING MsgIgnoreQueryCancel
                   (LWLockRelease (LWLockAcquire LW_SHARED (ResetLatch (MyProc b) sh))))).
  { intros ->. subst r. rewrite (pass_while_waiting b sh Hst Hdie). now rewrite Hqc. }
  assert (Hdead : alive = false ->
            r = (Break,
                 set_whereToSendOutput DestNone
                   (set_ProcDiePending true (set_QueryCancelPending false b)),
                 SyncRepCancelWait
                   (set_whereToSendOutput DestNone
                      (set_ProcDiePending true (set_QueryCancelPending false b)))
                   (report WARNING MsgIgnoreQueryCancel
                      (LWLockRelease (LWLockAcquire LW_SHARED (ResetLatch (MyProc b) sh)))))).
  { intros ->. subst r. unfold SyncRepWaitForLSN_pass.
    rewrite reset_state, Hst. cbn [SyncRepState_eqb].
    change (syncRepState
              (allProcs (LWLockAcquire LW_SHARED (ResetLatch (MyProc b) sh)) (MyProc b)))
      with (syncRepState (allProcs (ResetLatch (MyProc b) sh) (MyProc b))).
    rewrite reset_state, Hst. cbn [SyncRepState_eqb]. rewrite Hdie, Hqc. reflexivity. }
  split.
  { subst b'. destruct alive; [rewrite Halive | rewrite Hdead]; reflexivity. }
  split.
  { subst sh'. destruct alive.
    - rewrite Halive by reflexivity. simpl. apply in_or_app. right. now left.
    - rewrite Hdead by reflexivity.
      destruct (cancel_wait_spec
                  (set_whereToSendOutput DestNone
                     (set_ProcDiePending true (set_QueryCancelPending false b)))
                  (report WARNING MsgIgnoreQueryCancel
                     (LWLockRelease (LWLockAcquire LW_SHARED (ResetLatch (MyProc b) sh)))))
        as (_ & _ & _ & _ & _ & _ & T).
      simpl snd. rewrite T. apply in_or_app. left. simpl.
      apply in_or_app. right. now left. }
  split.
  { intros Ha. subst b' sh'. rewrite (Halive Ha). simpl.
    split; [reflexivity|]. split; [reflexivity|]. split.
    { intros p. unfold upd. destruct (Nat.eqb p (MyProc b)) eqn:E; [|now split].
      apply Nat.eqb_eq in E. subst p. now split. }
    rewrite upd_same. simpl.
    split; [assumption|]. split; [assumption|]. split; [reflexivity|].
    rewrite <- !app_assoc. reflexivity. }
  split.
  { intros Hbreak. destruct alive; [|reflexivity].
    rewrite Halive in Hbreak by reflexivity. discriminate. }
  split; [symmetry; apply pass_decision_ignores_cancel|].
  split; [intros alive0 b0 sh0; apply pass_break_reasons|].
  now apply quiet_loop_blocks.
Qed.

Lemma SyncRepWaitForLSN_ignores_query_cancel_witness :
  fst (fst (SyncRepWaitForLSN_pass true (Ex.cancelled 2) Ex.sh)) = WaitOnLatch
  /\ SyncRepQueue (snd (SyncRepWaitForLSN_pass true (Ex.cancelled 2) Ex.sh)) = Ex.queues
  /\ SyncRepWaitForLSN_loop
       [mkSleep true false true (fun sh => sh); mkSleep true false true (fun sh => sh)]
       (Ex.cancelled 2) Ex.sh = Blocked.
Proof.
  destruct (SyncRepWaitForLSN_ignores_query_cancel
              true
              [mkSleep true false true (fun sh => sh); mkSleep true false true (fun sh => sh)]
              (Ex.cancelled 2) Ex.sh eq_refl eq_refl eq_refl)
    as (_ & _ & H & _ & _ & _ & Hloop).
  destruct (H eq_refl) as (H1 & H2 & _).
  split; [exact H1|]. split; [exact H2|].
  apply Hloop. repeat constructor.
Defined.

(** ** The released LSNs *)

Lemma wake_loop_lsn all mode :
  forall q sh n, lsn (fst (SyncRepWakeQueue_loop all mode q sh n)) = lsn sh.
Proof.
  induction q as [|p q IH]; intros sh n; [reflexivity|].
  rewrite wake_loop_cons.
  destruct (due all (lsn sh mode) (allProcs sh) p); [|reflexivity].
  now rewrite IH.
Qed.

Lemma wake_queue_lsn all mode sh : lsn (fst (SyncRepWakeQueue all mode sh)) = lsn sh.
Proof. apply wake_loop_lsn. Qed.

Lemma release_mode_lsn mode my sh m :
  lsn (fst (release_mode mode my sh)) m = lsn sh m
  \/ lsn sh m < lsn (fst (release_mode mode my sh)) m.
Proof.
  unfold release_mode.
  destruct (Z.ltb_spec (lsn sh mode) (reported mode (walsnds sh my))) as [Hlt|Hge];
    [|now left].
  rewrite wake_queue_lsn. simpl. unfold upd_mode.
  destruct mode, m; simpl; auto.
Qed.

Lemma cancel_wait_lsn b sh : lsn (SyncRepCancelWait b sh) = lsn sh.
Proof.
  unfold SyncRepCancelWait.
  now destruct (negb (SHMQueueIsDetached (MyProc b) (LWLockAcquire LW_EXCLUSIVE sh))).
Qed.

Lemma pass_lsn alive b sh : lsn (snd (SyncRepWaitForLSN_pass alive b sh)) = lsn sh.
Proof.
  unfold SyncRepWaitForLSN_pass.
  destruct (SyncRepState_eqb
              (syncRepState (allProcs (ResetLatch (MyProc b) sh) (MyProc b)))
              SYNC_REP_WAITING);
    match goal with
    | |- context [SyncRepState_eqb ?x SYNC_REP_WAIT_COMPLETE] =>
        destruct (SyncRepState_eqb x SYNC_REP_WAIT_COMPLETE)
    end; try reflexivity;
    destruct (ProcDiePending b);
    try (destruct (Gp_role_dispatch b); simpl snd;
         [now rewrite cancel_wait_lsn | reflexivity]);
    destruct (QueryCancelPending b), alive; simpl snd;
    try reflexivity; now rewrite cancel_wait_lsn.
Qed.

Lemma enter_lsn l b sh : lsn (entry_shared (SyncRepWaitForLSN_enter l b sh)) = lsn sh.
Proof.
  unfold SyncRepWaitForLSN_enter.
  destruct (InSIGUSR1Handler b); [reflexivity|].
  destruct (SyncRepWaitMode b) as [mode|]; [|reflexivity].
  destruct (Gp_role_dispatch b && _); [reflexivity|].
  destruct (fast_path b mode l (LWLockAcquire LW_EXCLUSIVE sh)); reflexivity.
Qed.

Lemma release_waiters_lsn w sh m :
  lsn (snd (SyncRepReleaseWaiters w sh)) m = lsn sh m
  \/ lsn sh m < lsn (snd (SyncRepReleaseWaiters w sh)) m.
Proof.
  unfold SyncRepReleaseWaiters.
  destruct (release_gate_closed (walsnds sh (MyWalSnd w))); [now left|].
  destruct (negb (is_walsnd (elected (LWLockAcquire LW_EXCLUSIVE sh)) (MyWalSnd w)));
    [now left|].
  pose proof (release_mode_lsn SYNC_REP_WAIT_WRITE (MyWalSnd w)
                               (LWLockAcquire LW_EXCLUSIVE sh) m) as H1.
  destruct (release_mode SYNC_REP_WAIT_WRITE (MyWalSnd w) (LWLockAcquire LW_EXCLUSIVE sh))
    as [sh1 n1]. simpl fst in H1.
  pose proof (release_mode_lsn SYNC_REP_WAIT_FLUSH (MyWalSnd w) sh1 m) as H2.
  destruct (release_mode SYNC_REP_WAIT_FLUSH (MyWalSnd w) sh1) as [sh2 n2].
  simpl fst in H2. simpl lsn in H1.
  assert (Hfin : lsn sh2 m = lsn sh m \/ lsn sh m < lsn sh2 m) by lia.
  now destruct (announce_next_takeover w).
Qed.

Lemma update_defined_lsn names sh :
  lsn (SyncRepUpdateSyncStandbysDefined names sh) = lsn sh.
Proof.
  unfold SyncRepUpdateSyncStandbysDefined.
  destruct (negb (Bool.eqb (SyncStandbysDefined names) (sync_standbys_defined sh)));
    [|reflexivity].
  destruct (negb (SyncStandbysDefined names)); [|reflexivity].
  simpl. unfold wake_all_modes. simpl. now rewrite !wake_queue_lsn.
Qed.

Lemma apply_op_lsn sh o m :
  lsn (apply_op sh o) m = lsn sh m \/ lsn sh m < lsn (apply_op sh o) m.
Proof.
  destruct o; simpl apply_op.
  - left. now rewrite enter_lsn.
  - left. now rewrite pass_lsn.
  - now left.
  - left. now rewrite cancel_wait_lsn.
  - left. unfold SyncRepCleanupAtProcExit.
    now destruct (negb (SHMQueueIsDetached (MyProc b) sh)).
  - left. unfold SyncRepInitConfig.
    now destruct (negb (sync_standby_priority (walsnds sh (MyWalSnd w))
                        =? SyncRepGetStandbyPriority w)).
  - apply release_waiters_lsn.
  - left. now rewrite update_defined_lsn.
Qed.

Lemma run_lsn ops :
  forall sh mode, lsn sh mode <= lsn (run ops sh) mode.
Proof.
  unfold run. induction ops as [|o ops IH]; intros sh mode; simpl; [lia|].
  specialize (IH (apply_op sh o) mode).
  destruct (apply_op_lsn sh o mode); lia.
Qed.

Lemma loop_lsn mode :
  forall plans b sh,
    match SyncRepWaitForLSN_loop (map sleep_of plans) b sh with
    | Return (_, sh') => lsn sh mode <= lsn sh' mode
    | Blocked => True
    | ProcExited (_, sh') => lsn sh mode <= lsn sh' mode
    end.
Proof.
  induction plans as [|[[[alive die] cancel] ops] plans IH]; intros b sh; [exact I|].
  cbn [map SyncRepWaitForLSN_loop sleep_of postmaster_alive].
  pose proof (pass_lsn alive b sh) as Hp.
  destruct (SyncRepWaitForLSN_pass alive b sh) as [[[| |] b1] sh1]; simpl snd in Hp.
  - rewrite Hp. lia.
  - cbn [others].
    specialize (IH (deliver (mkSleep alive die cancel (run ops)) b1) (run ops sh1)).
    pose proof (run_lsn ops sh1 mode) as Hrun.
    destruct (SyncRepWaitForLSN_loop (map sleep_of plans) _ _) as [[b2 sh2]| |[b2 sh2]];
      [|exact I|]; rewrite Hp in *; lia.
  - rewrite Hp. lia.
Qed.

(** C9.  Every operation of the module either leaves [lsn mode] as it is or
    replaces it with a strictly larger position, and only
    SyncRepReleaseWaiters replaces it; over any sequence of operations, run
    by any processes in any order, [lsn mode] never decreases; and a whole
    call of SyncRepWaitForLSN, with the other processes running any
    operations while it sleeps, returns, or ends the process, with
    [lsn mode] no smaller than it found it. *)
Theorem released_lsn_never_decreases :
  (forall (o : CoreOp) (sh : Shared) (mode : WaitMode),
      lsn (apply_op sh o) mode = lsn sh mode
      \/ ((exists w, o = OpReleaseWaiters w)
          /\ lsn sh mode < lsn (apply_op sh o) mode))
  /\ (forall (ops : list CoreOp) (sh : Shared) (mode : WaitMode),
         lsn sh mode <= lsn (run ops sh) mode)
  /\ (forall (plans : list (bool * bool * bool * list CoreOp))
             (XactCommitLSN : XLogRecPtr) (b : Backend) (sh : Shared) (mode : WaitMode),
         match SyncRepWaitForLSN (map sleep_of plans) XactCommitLSN b sh with
         | Return (_, sh') => lsn sh mode <= lsn sh' mode
         | Blocked => True
         | ProcExited (_, sh') => lsn sh mode <= lsn sh' mode
         end).
Proof.
  split.
  { intros o sh mode. destruct (apply_op_lsn sh o mode) as [He|Hlt]; [now left|].
    right. split; [|assumption].
    destruct o; simpl apply_op in Hlt; try (now exists w); exfalso.
    - rewrite enter_lsn in Hlt. lia.
    - rewrite pass_lsn in Hlt. lia.
    - simpl in Hlt. lia.
    - rewrite cancel_wait_lsn in Hlt. lia.
    - unfold SyncRepCleanupAtProcExit in Hlt.
      destruct (negb (SHMQueueIsDetached (MyProc b) sh)); simpl in Hlt; lia.
    - unfold SyncRepInitConfig in Hlt.
      destruct (negb (sync_standby_priority (walsnds sh (MyWalSnd w))
                      =? SyncRepGetStandbyPriority w)); simpl in Hlt; lia.
    - rewrite update_defined_lsn in Hlt. lia. }
  split; [intros ops sh mode; apply run_lsn|].
  intros plans l b sh mode. unfold SyncRepWaitForLSN.
  pose proof (enter_lsn l b sh) as He.
  destruct (SyncRepWaitForLSN_enter l b sh) as [sh1|sh1]; simpl in He.
  - rewrite He. lia.
  - pose proof (loop_lsn mode plans b sh1) as Hl.
    destruct (SyncRepWaitForLSN_loop (map sleep_of plans) b sh1)
      as [[b2 sh2]| |[b2 sh2]]; [|exact I|].
    + simpl. rewrite He in Hl. exact Hl.
    + rewrite He in Hl. exact Hl.
Qed.

(** ** The spec's scenarios, run on the model *)

(** S2: sessions 7 and 8 commit at 0x300 and then at 0x200; the queue is
    ordered [8; 7]; a release up to 0x250 wakes session 8 only. *)
Example scenario_out_of_order_arrivals :
  let sh1 := entry_shared (SyncRepWaitForLSN_enter 768 (Ex.session 7) Ex.fresh) in
  let sh2 := entry_shared (SyncRepWaitForLSN_enter 512 (Ex.session 8) sh1) in
  let sh3 := snd (SyncRepReleaseWaiters (Ex.sender 0) sh2) in
  SyncRepQueue sh2 SYNC_REP_WAIT_FLUSH = [8%nat; 7%nat]
  /\ SyncRepQueue sh3 SYNC_REP_WAIT_FLUSH = [7%nat]
  /\ lsn sh3 SYNC_REP_WAIT_FLUSH = 592
  /\ syncRepState (allProcs sh3 8%nat) = SYNC_REP_WAIT_COMPLETE
  /\ procLatch (allProcs sh3 8%nat) = true
  /\ syncRepState (allProcs sh3 7%nat) = SYNC_REP_WAITING.
Proof. cbv zeta. repeat split. Qed.

(** S1: the session sleeps once, the sender releases up to 0x250 during
    that sleep, and the second pass of the loop finds the wait complete: the
    call returns with the slot idle and detached. *)
Example scenario_single_waiter_released :
  match SyncRepWaitForLSN [sleep_of (true, false, false, [OpReleaseWaiters (Ex.sender 0)]);
                           sleep_of (true, false, false, [])]
                          512 (Ex.session 7) Ex.fresh with
  | Return (_, sh') =>
      syncRepState (allProcs sh' 7%nat) = SYNC_REP_NOT_WAITING
      /\ waitLSN (allProcs sh' 7%nat) = 0
      /\ SHMQueueIsDetached 7 sh' = true
      /\ lsn sh' SYNC_REP_WAIT_FLUSH = 592
  | _ => False
  end.
Proof. vm_compute. repeat split. Qed.

(** S6: after the name list is emptied the two waiters are released, and a
    new commit returns at once without being queued. *)
Example scenario_config_disable_drains :
  let sh1 := SyncRepUpdateSyncStandbysDefined (Some EmptyString) Ex.sh in
  SyncRepQueue sh1 SYNC_REP_WAIT_FLUSH = []
  /\ sync_standbys_defined sh1 = false
  /\ exists sh2, SyncRepWaitForLSN [] 2816 (Ex.session 5) sh1 = Return (Ex.session 5, sh2)
                 /\ SyncRepQueue sh2 SYNC_REP_WAIT_FLUSH = [].
Proof. cbv zeta. split; [reflexivity|]. split; [reflexivity|]. eexists. split; reflexivity. Qed.

(** * Further properties of the module *)

(** ** What keeps the queue invariant *)

Lemma ordered_loop_filter procs (f : nat -> bool) :
  forall q last,
    SyncRepQueueIsOrderedByLSN_loop procs q last = true ->
    SyncRepQueueIsOrderedByLSN_loop procs (filter f q) last = true.
Proof.
  induction q as [|x q IH]; intros last H; [reflexivity|].
  apply ordered_loop_tail in H. destruct H as [Hx H]. simpl.
  destruct (f x); simpl.
  - apply Z.ltb_ge in Hx. rewrite Hx. now apply IH.
  - apply (ordered_loop_weaken procs _ (waitLSN (procs x))); [assumption|].
    now apply IH.
Qed.

Lemma ordered_loop_ext_in procs procs' :
  forall q last,
    (forall p, In p q -> waitLSN (procs' p) = waitLSN (procs p)) ->
    SyncRepQueueIsOrderedByLSN_loop procs' q last =
    SyncRepQueueIsOrderedByLSN_loop procs q last.
Proof.
  induction q as [|x q IH]; intros last H; simpl; [reflexivity|].
  rewrite (H x) by now left. rewrite IH; [reflexivity|].
  intros p Hp. apply H. now right.
Qed.

Lemma queues_inv_filter (f : WaitMode -> nat -> bool) sh sh' :
  (forall m, SyncRepQueue sh' m = filter (f m) (SyncRepQueue sh m)) ->
  (forall m p, In p (SyncRepQueue sh' m) ->
               waitLSN (allProcs sh' p) = waitLSN (allProcs sh p)
               /\ syncRepState (allProcs sh' p) = syncRepState (allProcs sh p)) ->
  (forall m p, In p (SyncRepQueue sh' m) -> lsn sh' m < waitLSN (allProcs sh' p)) ->
  queues_inv sh -> queues_inv sh'.
Proof.
  intros Hq Hp Hl (Hwf & Hord & Hst & _).
  split; [|split; [|split]].
  - destruct (queues_wf_mode sh SYNC_REP_WAIT_WRITE Hwf) as [Hnw Hdis].
    destruct (queues_wf_mode sh SYNC_REP_WAIT_FLUSH Hwf) as [Hnf _].
    simpl other_mode in Hdis.
    apply (queues_wf_intro SYNC_REP_WAIT_WRITE); simpl other_mode; rewrite ?Hq.
    + now apply NoDup_filter.
    + now apply NoDup_filter.
    + intros p Hin Hin'. apply filter_In in Hin, Hin'.
      apply (Hdis p); tauto.
  - intros mode. unfold SyncRepQueueIsOrderedByLSN.
    rewrite (ordered_loop_ext_in (allProcs sh) (allProcs sh')).
    + rewrite Hq. apply ordered_loop_filter. apply Hord.
    + intros p Hin. now apply Hp with (m := mode).
  - intros mode p Hin. destruct (Hp mode p Hin) as [_ Hs]. rewrite Hs.
    apply (Hst mode). rewrite Hq in Hin. apply filter_In in Hin. tauto.
  - exact Hl.
Qed.

Lemma queues_inv_keep sh sh' :
  (forall m, SyncRepQueue sh' m = SyncRepQueue sh m) ->
  (forall m p, In p (SyncRepQueue sh m) ->
               waitLSN (allProcs sh' p) = waitLSN (allProcs sh p)
               /\ syncRepState (allProcs sh' p) = syncRepState (allProcs sh p)) ->
  (forall m, lsn sh' m = lsn sh m) ->
  queues_inv sh -> queues_inv sh'.
Proof.
  intros Hq Hp Hl Hinv.
  apply (queues_inv_filter (fun _ _ => true) sh sh'); try assumption.
  - intros m. rewrite Hq. symmetry. now apply filter_every.
  - intros m p Hin. rewrite Hq in Hin. now apply (Hp m).
  - intros m p Hin. rewrite Hq in Hin. destruct (Hp m p Hin) as [Hw _].
    rewrite Hl, Hw. destruct Hinv as (_ & _ & _ & H4). now apply (H4 m).
Qed.

Lemma queues_inv_unlink my sh sh' :
  (forall m, SyncRepQueue sh' m = unlink my (SyncRepQueue sh m)) ->
  (forall p, p <> my -> allProcs sh' p = allProcs sh p) ->
  (forall m, lsn sh' m = lsn sh m) ->
  queues_inv sh -> queues_inv sh'.
Proof.
  intros Hq Hp Hl Hinv.
  assert (Hne : forall m p, In p (SyncRepQueue sh' m) -> p <> my /\ In p (SyncRepQueue sh m)).
  { intros m p Hin. rewrite Hq in Hin. apply unlink_In in Hin. tauto. }
  apply (queues_inv_filter (fun _ x => negb (Nat.eqb x my)) sh sh'); try assumption.
  - intros m p Hin. destruct (Hne m p Hin) as [Hn _]. now rewrite (Hp p Hn).
  - intros m p Hin. destruct (Hne m p Hin) as [Hn Hold]. rewrite Hl, (Hp p Hn).
    destruct Hinv as (_ & _ & _ & H4). now apply (H4 m).
Qed.

Lemma wake_queue_inv all mode sh :
  queues_inv sh -> queues_inv (fst (SyncRepWakeQueue all mode sh)).
Proof.
  intros Hinv. destruct Hinv as (Hwf & Hord & Hst & H4).
  destruct (wake_queue_spec all mode sh Hwf) as (R1 & R2 & R3 & R4 & _).
  destruct (ordered_due_filter all (lsn sh mode) (allProcs sh) _ _ (Hord mode)) as [F1 F2].
  rewrite F1 in R3. rewrite F2 in R1.
  destruct (queues_wf_mode sh mode Hwf) as [_ Hdis].
  destruct R4 as (C1 & _).
  set (sh' := fst (SyncRepWakeQueue all mode sh)) in *.
  assert (Hkeep : forall m p, In p (SyncRepQueue sh' m) -> allProcs sh' p = allProcs sh p).
  { intros m p Hin. rewrite R3.
    destruct (mem p (filter (due all (lsn sh mode) (allProcs sh)) (SyncRepQueue sh mode)))
      eqn:Hm; [|reflexivity].
    exfalso. apply mem_In, filter_In in Hm. destruct Hm as [Hq Hd].
    destruct m, mode; simpl other_mode in *.
    - rewrite R1 in Hin. apply filter_In in Hin. destruct Hin as [_ Hn].
      rewrite Hd in Hn. discriminate.
    - rewrite R2 in Hin. exact (Hdis p Hq Hin).
    - rewrite R2 in Hin. exact (Hdis p Hq Hin).
    - rewrite R1 in Hin. apply filter_In in Hin. destruct Hin as [_ Hn].
      rewrite Hd in Hn. discriminate. }
  apply (queues_inv_filter
           (fun m p => if WaitMode_eqb m mode
                       then negb (due all (lsn sh mode) (allProcs sh) p) else true)
           sh sh').
  - intros m. destruct m, mode; simpl WaitMode_eqb; simpl other_mode in R2;
      try exact R1; rewrite R2; symmetry; now apply filter_every.
  - intros m p Hin. now rewrite (Hkeep m p Hin).
  - intros m p Hin. rewrite (Hkeep m p Hin), C1. apply (H4 m).
    destruct m, mode; simpl other_mode in R2.
    + rewrite R1 in Hin. apply filter_In in Hin. tauto.
    + now rewrite R2 in Hin.
    + now rewrite R2 in Hin.
    + rewrite R1 in Hin. apply filter_In in Hin. tauto.
  - now repeat split.
Qed.

Lemma release_mode_inv mode my sh :
  queues_inv sh -> queues_inv (fst (release_mode mode my sh)).
Proof.
  intros Hinv. destruct Hinv as (Hwf & Hord & Hst & H4).
  destruct (release_mode_spec mode my sh Hwf (Hord mode))
    as (_ & _ & A3 & A4 & A5 & A6 & _ & _ & A9 & A10).
  set (sh' := fst (release_mode mode my sh)) in *.
  destruct (Z.lt_ge_cases (lsn sh mode) (reported mode (walsnds sh my))) as [Hlt|Hge].
  - destruct (A9 Hlt) as (E1 & E2 & _).
    destruct (queues_wf_mode sh mode Hwf) as [_ Hdis].
    assert (Hkeep : forall m p, In p (SyncRepQueue sh' m) ->
                                In p (SyncRepQueue sh m)
                                /\ syncRepState (allProcs sh' p) = SYNC_REP_WAITING
                                /\ lsn sh' m < waitLSN (allProcs sh' p)).
    { intros m p Hin. rewrite A5.
      assert (Hcase : m = mode \/ m = other_mode mode) by (destruct m, mode; auto).
      destruct Hcase as [->| ->].
      - rewrite E2 in Hin. apply filter_In in Hin. destruct Hin as [Hq Hb].
        apply Z.ltb_lt in Hb. split; [assumption|]. split; [|now rewrite E1].
        (* a waiter beyond the position is not woken *)
        destruct (wake_queue_spec false mode
                    (emit (EvStoreLsn mode (reported mode (walsnds sh my)))
                          (set_lsn (upd_mode (lsn sh) mode (reported mode (walsnds sh my))) sh))
                    Hwf) as (_ & _ & R3 & _).
        assert (Hsh' : sh' = fst (SyncRepWakeQueue false mode
                    (emit (EvStoreLsn mode (reported mode (walsnds sh my)))
                          (set_lsn (upd_mode (lsn sh) mode (reported mode (walsnds sh my))) sh)))).
        { subst sh'. unfold release_mode. apply Z.ltb_lt in Hlt. now rewrite Hlt. }
        rewrite Hsh', R3.
        match goal with |- context [mem p ?l] => destruct (mem p l) eqn:Hm end.
        + exfalso. apply mem_In, due_prefix_incl in Hm. destruct Hm as [_ Hd].
          unfold due in Hd. simpl in Hd. unfold upd_mode in Hd.
          rewrite WaitMode_eqb_refl in Hd. apply Z.leb_le in Hd. lia.
        + apply (Hst mode). exact Hq.
      - rewrite A4 in Hin. split; [assumption|]. split.
        + rewrite A6; [now apply (Hst (other_mode mode))|].
          intros Hq. apply (Hdis p Hq Hin).
        + rewrite A3. now apply (H4 (other_mode mode)). }
    apply (queues_inv_filter
             (fun m p => if WaitMode_eqb m mode
                         then reported mode (walsnds sh my) <? waitLSN (allProcs sh p)
                         else true)
             sh sh').
    + intros m. destruct m, mode; simpl WaitMode_eqb; simpl other_mode in A4;
        try exact E2; rewrite A4; symmetry; now apply filter_every.
    + intros m p Hin. destruct (Hkeep m p Hin) as (Hq & Hs & _).
      split; [apply A5|]. rewrite Hs. symmetry. now apply (Hst m).
    + intros m p Hin. now destruct (Hkeep m p Hin) as (_ & _ & Hl).
    + now repeat split.
  - rewrite (A10 Hge). now repeat split.
Qed.

Lemma pass_eval alive b sh :
  SyncRepWaitForLSN_pass alive b sh =
  if SyncRepState_eqb (syncRepState (allProcs sh (MyProc b))) SYNC_REP_WAIT_COMPLETE
  then (Break, b, checked b sh)
  else if ProcDiePending b
  then if Gp_role_dispatch b
       then (Break, set_whereToSendOutput DestNone b,
             SyncRepCancelWait (set_whereToSendOutput DestNone b)
               (report WARNING MsgCancelWaitTerminating (checked b sh)))
       else (ProcExit, b, report FATAL MsgCancelWaitTerminating (checked b sh))
  else if QueryCancelPending b
  then if alive
       then (WaitOnLatch, set_QueryCancelPending false b,
             report WARNING MsgIgnoreQueryCancel (checked b sh))
       else (Break,
             set_whereToSendOutput DestNone
               (set_ProcDiePending true (set_QueryCancelPending false b)),
             SyncRepCancelWait
               (set_whereToSendOutput DestNone
                  (set_ProcDiePending true (set_QueryCancelPending false b)))
               (report WARNING MsgIgnoreQueryCancel (checked b sh)))
  else if alive
       then (WaitOnLatch, b, checked b sh)
       else (Break, set_whereToSendOutput DestNone (set_ProcDiePending true b),
             SyncRepCancelWait (set_whereToSendOutput DestNone (set_ProcDiePending true b))
                               (checked b sh)).
Proof.
  unfold SyncRepWaitForLSN_pass, checked. rewrite reset_state.
  destruct (syncRepState (allProcs sh (MyProc b))) eqn:E; cbn [SyncRepState_eqb].
  - destruct (ProcDiePending b); [destruct (Gp_role_dispatch b); reflexivity|].
    destruct (QueryCancelPending b), alive; reflexivity.
  - change (syncRepState
              (allProcs (LWLockAcquire LW_SHARED (ResetLatch (MyProc b) sh)) (MyProc b)))
      with (syncRepState (allProcs (ResetLatch (MyProc b) sh) (MyProc b))).
    rewrite reset_state, E. cbn [SyncRepState_eqb].
    destruct (ProcDiePending b); [destruct (Gp_role_dispatch b); reflexivity|].
    destruct (QueryCancelPending b), alive; reflexivity.
  - reflexivity.
Qed.

Lemma checked_frame b sh :
  SyncRepQueue (checked b sh) = SyncRepQueue sh
  /\ lsn (checked b sh) = lsn sh
  /\ walsnds (checked b sh) = walsnds sh
  /\ sync_standbys_defined (checked b sh) = sync_standbys_defined sh
  /\ (forall p, waitLSN (allProcs (checked b sh) p) = waitLSN (allProcs sh p)
                /\ syncRepState (allProcs (checked b sh) p) = syncRepState (allProcs sh p)
                /\ pid (allProcs (checked b sh) p) = pid (allProcs sh p))
  /\ (forall p, p <> MyProc b -> allProcs (checked b sh) p = allProcs sh p).
Proof.
  unfold checked.
  destruct (SyncRepState_eqb (syncRepState (allProcs sh (MyProc b))) SYNC_REP_WAITING);
    simpl; (repeat split; try reflexivity;
            [ unfold upd; destruct (Nat.eqb_spec p (MyProc b)) as [->|]; reflexivity
            | unfold upd; destruct (Nat.eqb_spec p (MyProc b)) as [->|]; reflexivity
            | unfold upd; destruct (Nat.eqb_spec p (MyProc b)) as [->|]; reflexivity
            | intros; now apply upd_other ]).
Qed.

Lemma checked_inv b sh : queues_inv sh -> queues_inv (checked b sh).
Proof.
  destruct (checked_frame b sh) as (Q & L & _ & _ & P & _).
  apply queues_inv_keep.
  - intros m. now rewrite Q.
  - intros m p _. destruct (P p) as (A & B & _). now split.
  - intros m. now rewrite L.
Qed.

Lemma cancel_wait_inv b sh : queues_inv sh -> queues_inv (SyncRepCancelWait b sh).
Proof.
  destruct (cancel_wait_spec b sh) as (C1 & _ & _ & C4 & C5 & _).
  apply (queues_inv_unlink (MyProc b)); try assumption.
  intros m. now rewrite C5.
Qed.


Lemma pass_inv alive b sh :
  queues_inv sh -> queues_inv (snd (SyncRepWaitForLSN_pass alive b sh)).
Proof.
  intros Hinv. rewrite pass_eval.
  pose proof (checked_inv b sh Hinv) as Hc.
  destruct (SyncRepState_eqb _ SYNC_REP_WAIT_COMPLETE); [exact Hc|].
  destruct (ProcDiePending b).
  { destruct (Gp_role_dispatch b); [now apply cancel_wait_inv | exact Hc]. }
  destruct (QueryCancelPending b), alive; simpl snd;
    try exact Hc; now apply cancel_wait_inv.
Qed.

Lemma NoDup_insert_middle (a : nat) :
  forall l l', NoDup (l ++ l') -> ~ In a (l ++ l') -> NoDup (l ++ a :: l').
Proof.
  induction l as [|x l IH]; intros l' Hn Ha; simpl in *.
  - now constructor.
  - inversion Hn as [|? ? Hx Hn']; subst. constructor.
    + intros Hin. apply in_app_or in Hin. destruct Hin as [Hin|[->|Hin]].
      * apply Hx. apply in_or_app. now left.
      * apply Ha. now left.
      * apply Hx. apply in_or_app. now right.
    + apply IH; [assumption|]. intros Hin. apply Ha. now right.
Qed.

Lemma enqueue_inv mode b l sh :
  queues_inv sh ->
  SHMQueueIsDetached (MyProc b) sh = true ->
  0 <= l ->
  lsn sh mode < l ->
  queues_inv (SyncRepQueueInsert mode b
                (set_syncRepState (MyProc b) SYNC_REP_WAITING
                                  (set_waitLSN (MyProc b) l sh))).
Proof.
  intros Hinv Hdet Hl Hlsn.
  set (my := MyProc b).
  set (sh1 := set_syncRepState my SYNC_REP_WAITING (set_waitLSN my l sh)).
  assert (Hdet' : forall m, ~ In my (SyncRepQueue sh m)) by now apply detached_iff.
  assert (Hmy : allProcs sh1 my = mkPGPROC (pid (allProcs sh my)) l SYNC_REP_WAITING
                                           (procLatch (allProcs sh my))).
  { unfold sh1. simpl. rewrite !upd_same. reflexivity. }
  assert (Hoth : forall p, p <> my -> allProcs sh1 p = allProcs sh p).
  { intros p Hp. unfold sh1. simpl. now rewrite !upd_other. }
  assert (Hinv1 : queues_inv sh1).
  { apply (queues_inv_keep sh sh1); try assumption; try reflexivity.
    intros m p Hin. rewrite Hoth; [now split|].
    intros ->. exact (Hdet' m Hin). }
  destruct Hinv1 as (Hwf & Hord & Hst & H4).
  set (q := SyncRepQueue sh1 mode) in *.
  set (below := filter (fun p => waitLSN (allProcs sh1 p) <? waitLSN (allProcs sh1 my)) q).
  set (rest := filter (fun p => waitLSN (allProcs sh1 my) <=? waitLSN (allProcs sh1 p)) q).
  set (sh2 := SyncRepQueueInsert mode b sh1).
  assert (Hq2 : SyncRepQueue sh2 mode = below ++ my :: rest).
  { unfold sh2. simpl. unfold upd_mode. rewrite WaitMode_eqb_refl.
    pose proof (Hord mode) as Ho. unfold SyncRepQueueIsOrderedByLSN in Ho.
    fold q in Ho. rewrite <- (rev_involutive q) in Ho.
    rewrite (insert_walk_spec _ _ _ [] 0 Ho).
    rewrite rev_involutive, app_nil_r. reflexivity. }
  assert (Ho2 : SyncRepQueue sh2 (other_mode mode) = SyncRepQueue sh1 (other_mode mode)).
  { unfold sh2. simpl. unfold upd_mode. now rewrite WaitMode_eqb_other. }
  assert (Hsplit : q = below ++ rest)
    by exact (ordered_split_at _ (waitLSN (allProcs sh1 my)) _ _ (Hord mode)).
  assert (Hin2 : forall p, In p (SyncRepQueue sh2 mode) -> p = my \/ In p q).
  { intros p Hin. rewrite Hq2 in Hin. apply in_app_or in Hin.
    rewrite Hsplit. destruct Hin as [Hin|[->|Hin]]; [right|now left|right];
      apply in_or_app; tauto. }
  assert (Hkey : waitLSN (allProcs sh1 my) = l) by now rewrite Hmy.
  destruct (queues_wf_mode sh1 mode Hwf) as [Hnd Hdis].
  destruct (queues_wf_mode sh1 (other_mode mode) Hwf) as [Hnd' _].
  split; [|split; [|split]].
  - apply (queues_wf_intro mode sh2); rewrite ?Ho2, ?Hq2.
    + apply NoDup_insert_middle; rewrite <- Hsplit; [assumption|]. apply (Hdet' mode).
    + assumption.
    + intros p Hin. rewrite <- Hq2 in Hin. destruct (Hin2 p Hin) as [->|Hq].
      * apply (Hdet' (other_mode mode)).
      * now apply Hdis.
  - intros m. assert (Hc : m = mode \/ m = other_mode mode) by (destruct m, mode; auto).
    unfold SyncRepQueueIsOrderedByLSN. destruct Hc as [->| ->].
    + rewrite Hq2. change (allProcs sh2) with (allProcs sh1).
      apply ordered_insert; [apply (Hord mode)|]. rewrite Hkey. exact Hl.
    + rewrite Ho2. apply (Hord (other_mode mode)).
  - intros m p Hin. change (allProcs sh2) with (allProcs sh1).
    assert (Hc : m = mode \/ m = other_mode mode) by (destruct m, mode; auto).
    destruct Hc as [->| ->].
    + destruct (Hin2 p Hin) as [->|Hq]; [now rewrite Hmy | now apply (Hst mode)].
    + rewrite Ho2 in Hin. now apply (Hst (other_mode mode)).
  - intros m p Hin. change (allProcs sh2) with (allProcs sh1).
    change (lsn sh2) with (lsn sh).
    assert (Hc : m = mode \/ m = other_mode mode) by (destruct m, mode; auto).
    destruct Hc as [->| ->].
    + destruct (Hin2 p Hin) as [->|Hq]; [now rewrite Hkey | now apply (H4 mode)].
    + rewrite Ho2 in Hin. now apply (H4 (other_mode mode)).
Qed.

Lemma enter_inv l b sh :
  queues_inv sh ->
  SHMQueueIsDetached (MyProc b) sh = true ->
  0 <= l ->
  queues_inv (entry_shared (SyncRepWaitForLSN_enter l b sh)).
Proof.
  intros Hinv Hdet Hl. unfold SyncRepWaitForLSN_enter.
  destruct (InSIGUSR1Handler b); [exact Hinv|].
  destruct (SyncRepWaitMode b) as [mode|]; [|exact Hinv].
  destruct (Gp_role_dispatch b && _); [exact Hinv|].
  destruct (fast_path b mode l (LWLockAcquire LW_EXCLUSIVE sh)) eqn:Hfp; [exact Hinv|].
  simpl entry_shared.
  unfold fast_path in Hfp. apply orb_false_iff in Hfp. destruct Hfp as [_ Hfp].
  apply Z.leb_gt in Hfp.
  exact (enqueue_inv mode b l (LWLockAcquire LW_EXCLUSIVE sh) Hinv Hdet Hl Hfp).
Qed.

Lemma leave_inv b sh :
  queues_inv sh ->
  SHMQueueIsDetached (MyProc b) sh = true ->
  queues_inv (SyncRepWaitForLSN_leave b sh).
Proof.
  intros Hinv Hdet.
  assert (Hdet' : forall m, ~ In (MyProc b) (SyncRepQueue sh m)) by now apply detached_iff.
  apply (queues_inv_keep sh); try assumption; try reflexivity.
  intros m p Hin. unfold SyncRepWaitForLSN_leave. simpl.
  assert (Hne : p <> MyProc b) by (intros ->; exact (Hdet' m Hin)).
  rewrite !upd_other by assumption. now split.
Qed.

Lemma cleanup_inv b sh :
  queues_inv sh -> queues_inv (SyncRepCleanupAtProcExit b sh).
Proof.
  intros Hinv. unfold SyncRepCleanupAtProcExit.
  destruct (negb (SHMQueueIsDetached (MyProc b) sh)); [|assumption].
  apply (queues_inv_unlink (MyProc b) sh); try assumption; reflexivity.
Qed.

Lemma release_waiters_inv w sh :
  queues_inv sh -> queues_inv (snd (SyncRepReleaseWaiters w sh)).
Proof.
  intros Hinv. unfold SyncRepReleaseWaiters.
  destruct (release_gate_closed (walsnds sh (MyWalSnd w))); [assumption|].
  destruct (negb (is_walsnd (elected (LWLockAcquire LW_EXCLUSIVE sh)) (MyWalSnd w)));
    [exact Hinv|].
  assert (H0 : queues_inv (LWLockAcquire LW_EXCLUSIVE sh)) by exact Hinv.
  pose proof (release_mode_inv SYNC_REP_WAIT_WRITE (MyWalSnd w) _ H0) as H1.
  destruct (release_mode SYNC_REP_WAIT_WRITE (MyWalSnd w) (LWLockAcquire LW_EXCLUSIVE sh))
    as [sh1 n1]. simpl fst in H1.
  pose proof (release_mode_inv SYNC_REP_WAIT_FLUSH (MyWalSnd w) _ H1) as H2.
  destruct (release_mode SYNC_REP_WAIT_FLUSH (MyWalSnd w) sh1) as [sh2 n2].
  simpl fst in H2.
  destruct (announce_next_takeover w); exact H2.
Qed.

Lemma update_defined_inv names sh :
  queues_inv sh -> queues_inv (SyncRepUpdateSyncStandbysDefined names sh).
Proof.
  intros Hinv. unfold SyncRepUpdateSyncStandbysDefined.
  destruct (negb (Bool.eqb (SyncStandbysDefined names) (sync_standbys_defined sh)));
    [|assumption].
  destruct (negb (SyncStandbysDefined names)); [|exact Hinv].
  assert (H0 : queues_inv (LWLockAcquire LW_EXCLUSIVE sh)) by exact Hinv.
  pose proof (wake_queue_inv true SYNC_REP_WAIT_WRITE _ H0) as H1.
  pose proof (wake_queue_inv true SYNC_REP_WAIT_FLUSH _ H1) as H2.
  exact H2.
Qed.

Lemma init_config_inv w sh :
  queues_inv sh -> queues_inv (SyncRepInitConfig w sh).
Proof.
  intros Hinv. unfold SyncRepInitConfig.
  destruct (negb (sync_standby_priority (walsnds sh (MyWalSnd w))
                  =? SyncRepGetStandbyPriority w)); exact Hinv.
Qed.

Lemma apply_op_inv o sh :
  queues_inv sh -> asserted sh o -> queues_inv (apply_op sh o).
Proof.
  intros Hinv Ha. destruct o; simpl in *.
  - destruct Ha as [Hd Hl]. now apply enter_inv.
  - now apply pass_inv.
  - now apply leave_inv.
  - now apply cancel_wait_inv.
  - now apply cleanup_inv.
  - now apply init_config_inv.
  - now apply release_waiters_inv.
  - now apply update_defined_inv.
Qed.

(** X1.  From a state in which every PGPROC is linked at most once, both
    queues pass SyncRepQueueIsOrderedByLSN, every linked PGPROC is in
    SYNC_REP_WAITING and waits for a position beyond the released one, any
    sequence of operations that respects the entry assertions of
    SyncRepWaitForLSN leads to a state with the same four properties. *)
Theorem queues_inv_preserved :
  forall (ops : list CoreOp) (sh : Shared),
    queues_inv sh ->
    asserted_run sh ops ->
    queues_inv (run ops sh).
Proof.
  unfold run. induction ops as [|o ops IH]; intros sh Hinv Hrun; [exact Hinv|].
  destruct Hrun as [Ha Hrun]. simpl. apply IH; [|assumption].
  now apply apply_op_inv.
Qed.

Lemma queues_inv_preserved_witness :
  queues_inv (run [OpWaitEnter (Ex.session 7) 768;
                   OpWaitEnter (Ex.session 8) 512;
                   OpReleaseWaiters (Ex.sender 0);
                   OpCancelWait (Ex.session 7)] Ex.fresh).
Proof.
  apply queues_inv_preserved.
  - split; [unfold queues_wf; simpl; constructor|].
    split; [intros []; reflexivity|].
    split; intros m p H; destruct m; destruct H.
  - simpl. repeat split; try reflexivity; lia.
Defined.



(** ** SyncRepWakeQueue on any queue *)

Lemma filter_twice {A} (f g : A -> bool) l :
  filter f (filter g l) = filter (fun x => g x && f x) l.
Proof.
  induction l as [|a l IH]; simpl; [reflexivity|].
  destruct (g a); simpl; [destruct (f a); simpl; now rewrite IH | assumption].
Qed.

Lemma wake_loop_any all mode :
  forall q sh n,
    let woken := due_prefix all (lsn sh mode) (allProcs sh) q in
    let r := SyncRepWakeQueue_loop all mode q sh n in
    (forall m, SyncRepQueue (fst r) m =
               filter (fun x => negb (mem x woken)) (SyncRepQueue sh m))
    /\ (forall p, allProcs (fst r) p =
                  if mem p woken then woken_proc (allProcs sh p) else allProcs sh p)
    /\ same_control sh (fst r)
    /\ trace (fst r) = trace sh ++ map EvSetLatch woken
    /\ snd r = n + Z.of_nat (List.length woken).
Proof.
  induction q as [|p q IH]; intros sh n; cbn zeta.
  - simpl. unfold same_control. rewrite app_nil_r.
    split; [intros m; symmetry; now apply filter_every|].
    repeat split; try reflexivity. lia.
  - rewrite wake_loop_cons. cbn [due_prefix].
    destruct (due all (lsn sh mode) (allProcs sh) p) eqn:Hdue.
    + set (sh1 := SetLatch p (set_syncRepState p SYNC_REP_WAIT_COMPLETE
                                               (SHMQueueDelete p sh))).
      assert (Hpr : forall x, allProcs sh1 x =
                              if Nat.eqb x p then woken_proc (allProcs sh p) else allProcs sh x)
        by (intros x; apply wake_one_procs).
      assert (Hw : forall x, waitLSN (allProcs sh1 x) = waitLSN (allProcs sh x)).
      { intros x. rewrite Hpr. destruct (Nat.eqb_spec x p) as [->|]; reflexivity. }
      destruct (IH sh1 (n + 1)) as (R1 & R3 & R4 & R5 & R6).
      change (lsn sh1 mode) with (lsn sh mode) in *.
      destruct (due_prefix_ext all (lsn sh mode) (allProcs sh) (allProcs sh1) q Hw)
        as [E1 _].
      rewrite E1 in *.
      split.
      { intros m. rewrite R1. change (SyncRepQueue sh1 m) with (unlink p (SyncRepQueue sh m)).
        unfold unlink. rewrite filter_twice. apply filter_ext. intros x.
        unfold mem at 2. cbn [existsb].
        now rewrite negb_orb. }
      split.
      { intros x. rewrite R3, Hpr. unfold mem at 2. cbn [existsb].
        fold (mem x (due_prefix all (lsn sh mode) (allProcs sh) q)).
        destruct (Nat.eqb_spec x p) as [->|],
                 (mem p (due_prefix all (lsn sh mode) (allProcs sh) q)) eqn:Hm1;
          try reflexivity;
          destruct (mem x (due_prefix all (lsn sh mode) (allProcs sh) q)); reflexivity. }
      split; [exact R4|]. split.
      { rewrite R5. simpl. now rewrite <- app_assoc. }
      { rewrite R6. simpl List.length. lia. }
    + simpl. unfold same_control. rewrite app_nil_r.
      split; [intros m; symmetry; now apply filter_every|].
      repeat split; try reflexivity. lia.
Qed.

Lemma due_prefix_length all hw procs q :
  (List.length (due_prefix all hw procs q) <= List.length q)%nat.
Proof.
  induction q as [|p q IH]; simpl; [lia|].
  destruct (due all hw procs p); simpl; lia.
Qed.

(** X3.  SyncRepWakeQueue on any queue, ordered or not: it wakes a prefix
    of the queue and nobody else; without [all] no waiter is woken whose
    waitLSN lies beyond [lsn mode]; a woken waiter ends in WAIT_COMPLETE with
    its latch set and linked nowhere; nobody is added to a queue, no waitLSN
    and no released LSN is changed; the result counts the woken waiters and
    is at most the length of the queue; with [all] the queue ends empty and
    the result is its length. *)
Theorem SyncRepWakeQueue_never_early :
  forall (all : bool) (mode : WaitMode) (sh : Shared),
    let sh' := fst (SyncRepWakeQueue all mode sh) in
    let n := snd (SyncRepWakeQueue all mode sh) in
    exists woken rest,
      SyncRepQueue sh mode = woken ++ rest
      /\ (forall p, In p woken ->
                    (all = true \/ waitLSN (allProcs sh p) <= lsn sh mode)
                    /\ syncRepState (allProcs sh' p) = SYNC_REP_WAIT_COMPLETE
                    /\ procLatch (allProcs sh' p) = true
                    /\ SHMQueueIsDetached p sh' = true)
      /\ (forall p, ~ In p woken -> allProcs sh' p = allProcs sh p)
      /\ (forall p, waitLSN (allProcs sh' p) = waitLSN (allProcs sh p))
      /\ (forall m p, In p (SyncRepQueue sh' m) -> In p (SyncRepQueue sh m))
      /\ lsn sh' = lsn sh
      /\ n = Z.of_nat (List.length woken)
      /\ 0 <= n <= Z.of_nat (List.length (SyncRepQueue sh mode))
      /\ (all = true -> rest = [] /\ SyncRepQueue sh' mode = []).
Proof.
  intros all mode sh sh' n.
  destruct (wake_loop_any all mode (SyncRepQueue sh mode) sh 0)
    as (R1 & R3 & R4 & R5 & R6).
  fold (SyncRepWakeQueue all mode sh) in R1, R3, R4, R5, R6.
  fold sh' in R1, R3, R4, R5. fold n in R6.
  set (woken := due_prefix all (lsn sh mode) (allProcs sh) (SyncRepQueue sh mode)) in *.
  exists woken, (after_due_prefix all (lsn sh mode) (allProcs sh) (SyncRepQueue sh mode)).
  split; [apply due_prefix_split|]. split.
  { intros p Hp. apply due_prefix_incl in Hp as Hd. destruct Hd as [_ Hd].
    split.
    - unfold due in Hd. apply orb_true_iff in Hd.
      destruct Hd as [Hd|Hd]; [now left | right; now apply Z.leb_le].
    - rewrite R3. apply mem_In in Hp as Hm. rewrite Hm.
      split; [reflexivity|]. split; [reflexivity|].
      apply detached_iff. intros m Hin. rewrite R1 in Hin. apply filter_In in Hin.
      rewrite Hm in Hin. destruct Hin. discriminate. }
  split.
  { intros p Hp. rewrite R3. apply mem_not_In in Hp. now rewrite Hp. }
  split.
  { intros p. rewrite R3. now destruct (mem p woken). }
  split.
  { intros m p Hin. rewrite R1 in Hin. apply filter_In in Hin. tauto. }
  split; [apply R4|]. split; [exact R6|]. split.
  { rewrite R6. pose proof (due_prefix_length all (lsn sh mode) (allProcs sh)
                                               (SyncRepQueue sh mode)).
    fold woken in H. lia. }
  intros ->. destruct (due_prefix_all (lsn sh mode) (allProcs sh) (SyncRepQueue sh mode))
    as [D1 D2].
  split; [exact D2|]. rewrite R1. apply filter_none.
  intros x Hx. unfold woken. rewrite D1. apply negb_false_iff. now apply mem_In.
Qed.

(** ** The lock discipline *)

Lemma latches_under_lock l rest :
  lock_protocol true (map EvSetLatch l ++ rest) = lock_protocol true rest.
Proof. induction l as [|p l IH]; simpl; [reflexivity | exact IH]. Qed.

Lemma latches_no_report l : filter is_report (map EvSetLatch l) = [].
Proof. induction l as [|p l IH]; simpl; [reflexivity | exact IH]. Qed.

Lemma wake_queue_any all mode sh :
  let woken := due_prefix all (lsn sh mode) (allProcs sh) (SyncRepQueue sh mode) in
  let r := SyncRepWakeQueue all mode sh in
  (forall m, SyncRepQueue (fst r) m =
             filter (fun x => negb (mem x woken)) (SyncRepQueue sh m))
  /\ (forall p, allProcs (fst r) p =
                if mem p woken then woken_proc (allProcs sh p) else allProcs sh p)
  /\ same_control sh (fst r)
  /\ trace (fst r) = trace sh ++ map EvSetLatch woken
  /\ snd r = Z.of_nat (List.length woken).
Proof. exact (wake_loop_any all mode (SyncRepQueue sh mode) sh 0). Qed.

Lemma release_mode_any mode my sh :
  let pos := reported mode (walsnds sh my) in
  let sh' := fst (release_mode mode my sh) in
  walsnds sh' = walsnds sh
  /\ max_wal_senders sh' = max_wal_senders sh
  /\ sync_standbys_defined sh' = sync_standbys_defined sh
  /\ SyncRepLock sh' = SyncRepLock sh
  /\ lsn sh' mode = Z.max (lsn sh mode) pos
  /\ lsn sh' (other_mode mode) = lsn sh (other_mode mode)
  /\ (pos <= lsn sh mode -> release_mode mode my sh = (sh, 0))
  /\ exists evs,
       trace sh' = trace sh ++ evs
       /\ (forall rest, lock_protocol true (evs ++ rest) = lock_protocol true rest)
       /\ filter is_report evs = [].
Proof.
  intros pos sh'. unfold release_mode in *. fold pos in sh' |- *.
  destruct (Z.ltb_spec (lsn sh mode) pos) as [Hlt|Hge].
  - set (sha := emit (EvStoreLsn mode pos) (set_lsn (upd_mode (lsn sh) mode pos) sh)) in *.
    destruct (wake_queue_any false mode sha) as (_ & _ & C & T & _).
    fold sh' in C, T. destruct C as (C1 & C2 & C3 & C4 & C5).
    split; [exact C2|]. split; [exact C3|]. split; [exact C4|]. split; [exact C5|].
    split.
    { rewrite C1. simpl. unfold upd_mode. rewrite WaitMode_eqb_refl. lia. }
    split.
    { rewrite C1. simpl. unfold upd_mode. now rewrite WaitMode_eqb_other. }
    split; [intros Hle; lia|].
    eexists. split.
    { rewrite T. simpl. rewrite <- app_assoc. reflexivity. }
    split.
    { intros rest. simpl. apply latches_under_lock. }
    { simpl. apply latches_no_report. }
  - subst sh'. simpl.
    repeat split; try reflexivity; try lia.
    exists []. rewrite app_nil_r. repeat split.
Qed.

Lemma release_waiters_shape w sh :
  let r := SyncRepReleaseWaiters w sh in
  let gate := release_gate_closed (walsnds sh (MyWalSnd w)) in
  let won := is_walsnd (elected sh) (MyWalSnd w) in
  walsnds (snd r) = walsnds sh
  /\ max_wal_senders (snd r) = max_wal_senders sh
  /\ sync_standbys_defined (snd r) = sync_standbys_defined sh
  /\ SyncRepLock (snd r) = (if gate then SyncRepLock sh else None)
  /\ (forall mode,
         lsn (snd r) mode =
         if negb gate && won
         then Z.max (lsn sh mode) (reported mode (walsnds sh (MyWalSnd w)))
         else lsn sh mode)
  /\ announce_next_takeover (fst r) =
     (if gate then announce_next_takeover w else negb won)
  /\ MyWalSnd (fst r) = MyWalSnd w
  /\ exists evs,
       trace (snd r) = trace sh ++ evs
       /\ lock_protocol false evs = true
       /\ filter is_report evs =
          (if negb gate && won && announce_next_takeover w
           then [EvReport LOG MsgNowSyncStandby] else [])
       /\ (gate = true -> evs = []).
Proof.
  intros r gate won. subst r. unfold SyncRepReleaseWaiters. fold gate.
  change (elected (LWLockAcquire LW_EXCLUSIVE sh)) with (elected sh). fold won.
  destruct gate.
  { simpl. repeat split; try reflexivity. exists []. rewrite app_nil_r. repeat split. }
  destruct won; simpl negb; cbv iota.
  - set (sh0 := LWLockAcquire LW_EXCLUSIVE sh).
    pose proof (release_mode_any SYNC_REP_WAIT_WRITE (MyWalSnd w) sh0) as S1.
    cbn zeta in S1.
    destruct (release_mode SYNC_REP_WAIT_WRITE (MyWalSnd w) sh0) as [sh1 n1].
    simpl fst in S1.
    destruct S1 as (A1 & A2 & A3 & A4 & A5 & A6 & _ & evs1 & T1 & P1 & N1).
    pose proof (release_mode_any SYNC_REP_WAIT_FLUSH (MyWalSnd w) sh1) as S2.
    cbn zeta in S2.
    destruct (release_mode SYNC_REP_WAIT_FLUSH (MyWalSnd w) sh1) as [sh2 n2].
    simpl fst in S2.
    destruct S2 as (B1 & B2 & B3 & B4 & B5 & B6 & _ & evs2 & T2 & P2 & N2).
    simpl other_mode in *. rewrite A1 in B5.
    change (walsnds sh0) with (walsnds sh) in *.
    change (lsn sh0) with (lsn sh) in *.
    change (max_wal_senders sh0) with (max_wal_senders sh) in *.
    change (sync_standbys_defined sh0) with (sync_standbys_defined sh) in *.
    assert (Hl : forall mode, lsn sh2 mode =
                   Z.max (lsn sh mode) (reported mode (walsnds sh (MyWalSnd w)))).
    { intros []; [now rewrite B6, A5 | now rewrite B5, A6]. }
    assert (Ht : trace sh2 = trace sh ++ EvLWLockAcquire LW_EXCLUSIVE :: evs1 ++ evs2).
    { rewrite T2, T1. simpl. rewrite <- !app_assoc. reflexivity. }
    destruct (announce_next_takeover w) eqn:Hann; simpl.
    + split; [congruence|]. split; [congruence|]. split; [congruence|].
      split; [reflexivity|]. split; [exact Hl|]. split; [reflexivity|].
      split; [reflexivity|].
      exists (EvLWLockAcquire LW_EXCLUSIVE :: evs1 ++ evs2
              ++ [EvLWLockRelease; EvReport LOG MsgNowSyncStandby]).
      split.
      { rewrite Ht. rewrite <- !app_assoc. simpl. rewrite <- !app_assoc. reflexivity. }
      split.
      { simpl. rewrite P1, P2. reflexivity. }
      split; [|discriminate].
      simpl. rewrite !filter_app, N1, N2. reflexivity.
    + split; [congruence|]. split; [congruence|]. split; [congruence|].
      split; [reflexivity|]. split; [exact Hl|]. split; [exact Hann|].
      split; [reflexivity|].
      exists (EvLWLockAcquire LW_EXCLUSIVE :: evs1 ++ evs2 ++ [EvLWLockRelease]).
      split.
      { rewrite Ht. rewrite <- !app_assoc. simpl. rewrite <- !app_assoc. reflexivity. }
      split.
      { simpl. rewrite P1, P2. reflexivity. }
      split; [|discriminate].
      simpl. rewrite !filter_app, N1, N2. reflexivity.
  - simpl. repeat split; try reflexivity.
    exists [EvLWLockAcquire LW_EXCLUSIVE; EvLWLockRelease].
    split; [now rewrite <- app_assoc|]. repeat split. discriminate.
Qed.

Lemma lock_protocol_app :
  forall a b held,
    lock_protocol held a = true ->
    lock_protocol false b = true ->
    lock_protocol held (a ++ b) = true.
Proof.
  induction a as [|e a IH]; intros b held Ha Hb.
  - simpl in *. destruct held; [discriminate | exact Hb].
  - destruct e, held; simpl in *; try discriminate; now apply IH.
Qed.

Lemma checked_trace b sh :
  exists evs, trace (checked b sh) = trace sh ++ evs
              /\ lock_protocol false evs = true
              /\ filter is_report evs = []
              /\ (SyncRepLock sh = None -> SyncRepLock (checked b sh) = None).
Proof.
  unfold checked.
  destruct (SyncRepState_eqb (syncRepState (allProcs sh (MyProc b))) SYNC_REP_WAITING).
  - exists [EvLWLockAcquire LW_SHARED; EvLWLockRelease]. simpl.
    rewrite <- app_assoc. repeat split.
  - exists []. simpl. rewrite app_nil_r. repeat split. tauto.
Qed.

Lemma cancel_wait_trace b sh :
  trace (SyncRepCancelWait b sh) = trace sh ++ [EvLWLockAcquire LW_EXCLUSIVE; EvLWLockRelease]
  /\ SyncRepLock (SyncRepCancelWait b sh) = None.
Proof.
  destruct (cancel_wait_spec b sh) as (_ & _ & _ & _ & _ & L & T). now split.
Qed.

Lemma pass_trace alive b sh :
  exists evs, trace (snd (SyncRepWaitForLSN_pass alive b sh)) = trace sh ++ evs
              /\ lock_protocol false evs = true
              /\ (SyncRepLock sh = None ->
                  SyncRepLock (snd (SyncRepWaitForLSN_pass alive b sh)) = None).
Proof.
  rewrite pass_eval. destruct (checked_trace b sh) as (evs & T & P & _ & L).
  destruct (SyncRepState_eqb _ SYNC_REP_WAIT_COMPLETE).
  - exists evs. now repeat split.
  - destruct (ProcDiePending b); [destruct (Gp_role_dispatch b)|].
    + simpl snd. destruct (cancel_wait_trace
                             (set_whereToSendOutput DestNone b)
                             (report WARNING MsgCancelWaitTerminating (checked b sh)))
        as [T' L'].
      exists (evs ++ [EvReport WARNING MsgCancelWaitTerminating;
                      EvLWLockAcquire LW_EXCLUSIVE; EvLWLockRelease]).
      split; [rewrite T'; simpl; rewrite T, <- !app_assoc; reflexivity|].
      split; [now apply lock_protocol_app | intros _; exact L'].
    + simpl snd. exists (evs ++ [EvReport FATAL MsgCancelWaitTerminating]).
      split; [simpl; rewrite T, <- !app_assoc; reflexivity|].
      split; [now apply lock_protocol_app | exact L].
    + destruct (QueryCancelPending b), alive; simpl snd.
      * exists (evs ++ [EvReport WARNING MsgIgnoreQueryCancel]).
        split; [simpl; rewrite T, <- !app_assoc; reflexivity|].
        split; [now apply lock_protocol_app | exact L].
      * match goal with |- context [SyncRepCancelWait ?b0 ?s0] =>
          destruct (cancel_wait_trace b0 s0) as [T' L'] end.
        exists (evs ++ [EvReport WARNING MsgIgnoreQueryCancel;
                        EvLWLockAcquire LW_EXCLUSIVE; EvLWLockRelease]).
        split; [rewrite T'; simpl; rewrite T, <- !app_assoc; reflexivity|].
        split; [now apply lock_protocol_app | intros _; exact L'].
      * exists evs. now repeat split.
      * match goal with |- context [SyncRepCancelWait ?b0 ?s0] =>
          destruct (cancel_wait_trace b0 s0) as [T' L'] end.
        exists (evs ++ [EvLWLockAcquire LW_EXCLUSIVE; EvLWLockRelease]).
        split; [rewrite T'; rewrite T, <- !app_assoc; reflexivity|].
        split; [now apply lock_protocol_app | intros _; exact L'].
Qed.

Lemma update_defined_trace names sh :
  exists evs, trace (SyncRepUpdateSyncStandbysDefined names sh) = trace sh ++ evs
              /\ lock_protocol false evs = true
              /\ (SyncRepLock sh = None ->
                  SyncRepLock (SyncRepUpdateSyncStandbysDefined names sh) = None).
Proof.
  unfold SyncRepUpdateSyncStandbysDefined.
  destruct (negb (Bool.eqb (SyncStandbysDefined names) (sync_standbys_defined sh))).
  - destruct (negb (SyncStandbysDefined names)).
    + unfold wake_all_modes. simpl fold_left.
      destruct (wake_queue_any true SYNC_REP_WAIT_WRITE (LWLockAcquire LW_EXCLUSIVE sh))
        as (_ & _ & _ & T1 & _).
      set (sh1 := fst (SyncRepWakeQueue true SYNC_REP_WAIT_WRITE
                                        (LWLockAcquire LW_EXCLUSIVE sh))) in *.
      destruct (wake_queue_any true SYNC_REP_WAIT_FLUSH sh1) as (_ & _ & _ & T2 & _).
      eexists. split.
      { simpl. rewrite T2, T1. simpl. rewrite <- !app_assoc. simpl. reflexivity. }
      split; [|reflexivity].
      simpl. rewrite latches_under_lock, latches_under_lock. reflexivity.
    + exists [EvLWLockAcquire LW_EXCLUSIVE;
              EvStoreSyncStandbysDefined (SyncStandbysDefined names); EvLWLockRelease].
      simpl. rewrite <- !app_assoc. repeat split.
  - exists []. rewrite app_nil_r. repeat split. tauto.
Qed.

Lemma apply_op_trace o sh :
  exists evs, trace (apply_op sh o) = trace sh ++ evs
              /\ lock_protocol false evs = true
              /\ (SyncRepLock sh = None -> SyncRepLock (apply_op sh o) = None).
Proof.
  destruct o; simpl apply_op.
  - unfold SyncRepWaitForLSN_enter.
    destruct (InSIGUSR1Handler b);
      [exists []; rewrite app_nil_r; repeat split; tauto|].
    destruct (SyncRepWaitMode b) as [mode|];
      [|exists []; rewrite app_nil_r; repeat split; tauto].
    destruct (Gp_role_dispatch b && _);
      [exists [EvLWLockAcquire LW_EXCLUSIVE; EvLWLockRelease]; simpl;
       rewrite <- app_assoc; repeat split|].
    destruct (fast_path b mode XactCommitLSN (LWLockAcquire LW_EXCLUSIVE sh));
      exists [EvLWLockAcquire LW_EXCLUSIVE; EvLWLockRelease]; simpl;
      rewrite <- app_assoc; repeat split.
  - apply pass_trace.
  - exists []. simpl. rewrite app_nil_r. repeat split. tauto.
  - destruct (cancel_wait_trace b sh) as [T L].
    exists [EvLWLockAcquire LW_EXCLUSIVE; EvLWLockRelease]. now repeat split.
  - unfold SyncRepCleanupAtProcExit.
    destruct (negb (SHMQueueIsDetached (MyProc b) sh)).
    + exists [EvLWLockAcquire LW_EXCLUSIVE; EvLWLockRelease]. simpl.
      rewrite <- app_assoc. repeat split.
    + exists []. rewrite app_nil_r. repeat split. tauto.
  - unfold SyncRepInitConfig.
    destruct (negb (sync_standby_priority (walsnds sh (MyWalSnd w))
                    =? SyncRepGetStandbyPriority w)).
    + exists [EvLWLockAcquire LW_EXCLUSIVE; EvLWLockRelease;
              EvReport DEBUG1 MsgStandbyPriority]. simpl.
      rewrite <- !app_assoc. repeat split.
    + exists []. rewrite app_nil_r. repeat split. tauto.
  - destruct (release_waiters_shape w sh)
      as (_ & _ & _ & L & _ & _ & _ & evs & T & P & _).
    exists evs. split; [exact T|]. split; [exact P|].
    intros Hfree. rewrite L.
    now destruct (release_gate_closed (walsnds sh (MyWalSnd w))).
  - apply update_defined_trace.
Qed.

(** X4.  Every operation, and so every sequence of operations started with
    SyncRepLock free, keeps the lock discipline: the lock is never acquired
    while the process holds it and never released while it is free, latches
    are set and the released LSNs and the sync_standbys_defined flag are
    stored only under the lock, every ereport is made with the lock
    released, and the operation ends with the lock free. *)
Theorem lock_discipline :
  forall (ops : list CoreOp) (sh : Shared),
    exists evs,
      trace (run ops sh) = trace sh ++ evs
      /\ lock_protocol false evs = true
      /\ (SyncRepLock sh = None -> SyncRepLock (run ops sh) = None).
Proof.
  unfold run. induction ops as [|o ops IH]; intros sh.
  - exists []. simpl. rewrite app_nil_r. repeat split. tauto.
  - simpl. destruct (apply_op_trace o sh) as (e1 & T1 & P1 & L1).
    destruct (IH (apply_op sh o)) as (e2 & T2 & P2 & L2).
    exists (e1 ++ e2). split; [rewrite T2, T1; now rewrite app_assoc|].
    split; [now apply lock_protocol_app | intros H; apply L2, L1, H].
Qed.

(** ** The takeover announcement and repeated releases *)

(** X5.  SyncRepReleaseWaiters past its entry test: a caller that is not
    elected makes no report and leaves [announce_next_takeover] set; an
    elected caller reports the takeover at LOG exactly when the flag was set
    and leaves it cleared, so that its next call, if it is still elected,
    reports nothing. *)
Theorem takeover_announced_once :
  forall (w : WalSender) (sh : Shared),
    release_gate_closed (walsnds sh (MyWalSnd w)) = false ->
    let w' := fst (SyncRepReleaseWaiters w sh) in
    exists evs,
      trace (snd (SyncRepReleaseWaiters w sh)) = trace sh ++ evs
      /\ (elected sh <> Some (MyWalSnd w) ->
          announce_next_takeover w' = true /\ filter is_report evs = [])
      /\ (elected sh = Some (MyWalSnd w) ->
          announce_next_takeover w' = false
          /\ filter is_report evs =
             (if announce_next_takeover w then [EvReport LOG MsgNowSyncStandby] else [])
          /\ forall sh2,
               release_gate_closed (walsnds sh2 (MyWalSnd w)) = false ->
               elected sh2 = Some (MyWalSnd w) ->
               exists evs2,
                 trace (snd (SyncRepReleaseWaiters w' sh2)) = trace sh2 ++ evs2
                 /\ filter is_report evs2 = []).
Proof.
  intros w sh Hgate w'.
  destruct (release_waiters_shape w sh) as (_ & _ & _ & _ & _ & A & M & evs & T & _ & R & _).
  cbn zeta in A, R. rewrite Hgate in A, R. simpl negb in R. simpl andb in R.
  fold w' in A, M.
  exists evs. split; [exact T|]. split.
  - intros Hne.
    assert (Hw : is_walsnd (elected sh) (MyWalSnd w) = false).
    { destruct (is_walsnd (elected sh) (MyWalSnd w)) eqn:E; [|reflexivity].
      apply is_walsnd_iff in E. contradiction. }
    rewrite Hw in A, R. now split.
  - intros He. apply is_walsnd_iff in He as Hw. rewrite Hw in A, R.
    split; [exact A|]. split; [exact R|].
    intros sh2 Hg2 He2.
    destruct (release_waiters_shape w' sh2) as (_ & _ & _ & _ & _ & _ & _ & evs2 & T2 & _ & R2 & _).
    cbn zeta in R2. rewrite M, Hg2 in R2. apply is_walsnd_iff in He2.
    rewrite He2, A in R2. exists evs2. now split.
Qed.

Lemma takeover_announced_once_witness :
  announce_next_takeover (fst (SyncRepReleaseWaiters (Ex.sender 1) Demo.two_senders)) = true
  /\ announce_next_takeover (fst (SyncRepReleaseWaiters (Ex.sender 0) Demo.two_senders)) = false.
Proof.
  destruct (takeover_announced_once (Ex.sender 1) Demo.two_senders eq_refl)
    as (e1 & _ & L & _).
  destruct (takeover_announced_once (Ex.sender 0) Demo.two_senders eq_refl)
    as (e0 & _ & _ & W).
  split.
  - apply L. discriminate.
  - apply W. reflexivity.
Defined.

Lemma elected_ext sh sh' :
  walsnds sh' = walsnds sh ->
  max_wal_senders sh' = max_wal_senders sh ->
  elected sh' = elected sh.
Proof. intros H1 H2. unfold elected. now rewrite H1, H2. Qed.

(** X6.  A second call of SyncRepReleaseWaiters by the same sender, with no
    new position reported in between, changes nothing but the trace: no
    released LSN moves, no queue and no PGPROC changes, nobody is woken,
    nothing is reported, and the sender's [announce_next_takeover] stays as
    the first call left it. *)
Theorem SyncRepReleaseWaiters_idempotent :
  forall (w : WalSender) (sh : Shared),
    let r1 := SyncRepReleaseWaiters w sh in
    let r2 := SyncRepReleaseWaiters (fst r1) (snd r1) in
    fst r2 = fst r1
    /\ lsn (snd r2) = lsn (snd r1)
    /\ SyncRepQueue (snd r2) = SyncRepQueue (snd r1)
    /\ allProcs (snd r2) = allProcs (snd r1)
    /\ trace (snd r2) =
       trace (snd r1)
       ++ (if release_gate_closed (walsnds sh (MyWalSnd w)) then []
           else [EvLWLockAcquire LW_EXCLUSIVE; EvLWLockRelease]).
Proof.
  intros w sh r1 r2.
  destruct (release_waiters_shape w sh) as (W & X & _ & _ & L & A & M & _).
  cbn zeta in L, A. fold r1 in W, X, L, A, M.
  assert (He : elected (LWLockAcquire LW_EXCLUSIVE (snd r1)) = elected sh)
    by (apply elected_ext; assumption).
  subst r2. unfold SyncRepReleaseWaiters at 1 2 3 4 5.
  rewrite W, M, He.
  destruct (release_gate_closed (walsnds sh (MyWalSnd w))) eqn:Hg.
  { rewrite app_nil_r. repeat split. }
  simpl negb in L. simpl andb in L.
  destruct (is_walsnd (elected sh) (MyWalSnd w)) eqn:Hw; simpl negb; cbv iota.
  - assert (R1 : release_mode SYNC_REP_WAIT_WRITE (MyWalSnd w)
                              (LWLockAcquire LW_EXCLUSIVE (snd r1))
                 = (LWLockAcquire LW_EXCLUSIVE (snd r1), 0)).
    { apply release_mode_any.
      change (walsnds (LWLockAcquire LW_EXCLUSIVE (snd r1))) with (walsnds (snd r1)).
      change (lsn (LWLockAcquire LW_EXCLUSIVE (snd r1))) with (lsn (snd r1)).
      rewrite W, L. lia. }
    rewrite R1.
    assert (R2 : release_mode SYNC_REP_WAIT_FLUSH (MyWalSnd w)
                              (LWLockAcquire LW_EXCLUSIVE (snd r1))
                 = (LWLockAcquire LW_EXCLUSIVE (snd r1), 0)).
    { apply release_mode_any.
      change (walsnds (LWLockAcquire LW_EXCLUSIVE (snd r1))) with (walsnds (snd r1)).
      change (lsn (LWLockAcquire LW_EXCLUSIVE (snd r1))) with (lsn (snd r1)).
      rewrite W, L. lia. }
    rewrite R2. simpl negb in A. rewrite A. simpl.
    repeat split. now rewrite <- app_assoc.
  - simpl negb in A. simpl.
    split.
    { destruct (fst r1) as [m a n s] eqn:E. simpl in A, M. subst a.
      reflexivity. }
    repeat split. now rewrite <- app_assoc.
Qed.

(** ** What the module never writes *)

Lemma wake_all_modes_control sh : same_control sh (wake_all_modes sh).
Proof.
  unfold wake_all_modes. simpl.
  destruct (wake_queue_any true SYNC_REP_WAIT_WRITE sh) as (_ & _ & C1 & _).
  destruct (wake_queue_any true SYNC_REP_WAIT_FLUSH
                           (fst (SyncRepWakeQueue true SYNC_REP_WAIT_WRITE sh)))
    as (_ & _ & C2 & _).
  unfold same_control in *.
  destruct C1 as (a1 & a2 & a3 & a4 & a5), C2 as (b1 & b2 & b3 & b4 & b5).
  repeat split; congruence.
Qed.

Lemma pass_walsnds alive b sh :
  walsnds (snd (SyncRepWaitForLSN_pass alive b sh)) = walsnds sh
  /\ max_wal_senders (snd (SyncRepWaitForLSN_pass alive b sh)) = max_wal_senders sh
  /\ sync_standbys_defined (snd (SyncRepWaitForLSN_pass alive b sh))
     = sync_standbys_defined sh.
Proof.
  assert (Hc : forall b0 s0, walsnds (SyncRepCancelWait b0 s0) = walsnds s0
                             /\ max_wal_senders (SyncRepCancelWait b0 s0) = max_wal_senders s0
                             /\ sync_standbys_defined (SyncRepCancelWait b0 s0)
                                = sync_standbys_defined s0).
  { intros b0 s0. unfold SyncRepCancelWait.
    now destruct (negb (SHMQueueIsDetached (MyProc b0) (LWLockAcquire LW_EXCLUSIVE s0))). }
  assert (Hk : walsnds (checked b sh) = walsnds sh
               /\ max_wal_senders (checked b sh) = max_wal_senders sh
               /\ sync_standbys_defined (checked b sh) = sync_standbys_defined sh).
  { unfold checked. now destruct (SyncRepState_eqb _ SYNC_REP_WAITING). }
  rewrite pass_eval.
  destruct (SyncRepState_eqb _ SYNC_REP_WAIT_COMPLETE); [exact Hk|].
  destruct (ProcDiePending b);
    [destruct (Gp_role_dispatch b); simpl snd; try exact Hk;
     match goal with |- context [SyncRepCancelWait ?b0 ?s0] =>
       destruct (Hc b0 s0) as (c1 & c2 & c3) end;
     rewrite c1, c2, c3; exact Hk|].
  destruct (QueryCancelPending b), alive; simpl snd; try exact Hk;
    match goal with |- context [SyncRepCancelWait ?b0 ?s0] =>
      destruct (Hc b0 s0) as (c1 & c2 & c3) end;
    rewrite c1, c2, c3; exact Hk.
Qed.

Lemma enter_walsnds l b sh :
  walsnds (entry_shared (SyncRepWaitForLSN_enter l b sh)) = walsnds sh
  /\ max_wal_senders (entry_shared (SyncRepWaitForLSN_enter l b sh)) = max_wal_senders sh
  /\ sync_standbys_defined (entry_shared (SyncRepWaitForLSN_enter l b sh))
     = sync_standbys_defined sh.
Proof.
  unfold SyncRepWaitForLSN_enter.
  destruct (InSIGUSR1Handler b); [now repeat split|].
  destruct (SyncRepWaitMode b) as [mode|]; [|now repeat split].
  destruct (Gp_role_dispatch b && _); [now repeat split|].
  destruct (fast_path b mode l (LWLockAcquire LW_EXCLUSIVE sh)); now repeat split.
Qed.

Lemma update_defined_walsnds names sh :
  walsnds (SyncRepUpdateSyncStandbysDefined names sh) = walsnds sh
  /\ max_wal_senders (SyncRepUpdateSyncStandbysDefined names sh) = max_wal_senders sh.
Proof.
  unfold SyncRepUpdateSyncStandbysDefined.
  destruct (negb (Bool.eqb (SyncStandbysDefined names) (sync_standbys_defined sh)));
    [|now split].
  destruct (negb (SyncStandbysDefined names)); [|now split].
  simpl. destruct (wake_all_modes_control (LWLockAcquire LW_EXCLUSIVE sh))
    as (_ & c2 & c3 & _). now split.
Qed.

Lemma apply_op_control o sh :
  max_wal_senders (apply_op sh o) = max_wal_senders sh
  /\ (walsnds (apply_op sh o) = walsnds sh
      \/ exists w, o = OpInitConfig w
                   /\ walsnds (apply_op sh o)
                      = walsnds (set_priority (MyWalSnd w) 1 sh))
  /\ (sync_standbys_defined (apply_op sh o) = sync_standbys_defined sh
      \/ exists names, o = OpUpdateSyncStandbysDefined names).
Proof.
  destruct o; simpl apply_op.
  - destruct (enter_walsnds XactCommitLSN b sh) as (A & B & C). auto.
  - destruct (pass_walsnds alive b sh) as (A & B & C). auto.
  - auto.
  - unfold SyncRepCancelWait.
    destruct (negb (SHMQueueIsDetached (MyProc b) (LWLockAcquire LW_EXCLUSIVE sh))); auto.
  - unfold SyncRepCleanupAtProcExit.
    destruct (negb (SHMQueueIsDetached (MyProc b) sh)); auto.
  - unfold SyncRepInitConfig, SyncRepGetStandbyPriority.
    destruct (negb (sync_standby_priority (walsnds sh (MyWalSnd w)) =? 1)); auto.
    split; [reflexivity|]. split; [|now left]. right. now exists w.
  - destruct (release_waiters_shape w sh) as (W & X & F & _). auto.
  - destruct (update_defined_walsnds names sh) as [A B].
    split; [exact B|]. split; [now left|]. right. now exists names.
Qed.

(** X7.  No operation changes the size of the sender array or a sender's
    pid, state, write or flush position or caughtup_within_range; the only
    store into a sender slot is SyncRepInitConfig setting the caller's own
    sync_standby_priority to 1.  The sync_standbys_defined flag is stored by
    SyncRepUpdateSyncStandbysDefined alone. *)
Theorem senders_are_read_only :
  forall (o : CoreOp) (sh : Shared) (i : nat),
    let sh' := apply_op sh o in
    max_wal_senders sh' = max_wal_senders sh
    /\ walsnd_pid (walsnds sh' i) = walsnd_pid (walsnds sh i)
    /\ walsnd_state (walsnds sh' i) = walsnd_state (walsnds sh i)
    /\ write (walsnds sh' i) = write (walsnds sh i)
    /\ flush (walsnds sh' i) = flush (walsnds sh i)
    /\ caughtup_within_range (walsnds sh' i) = caughtup_within_range (walsnds sh i)
    /\ (sync_standby_priority (walsnds sh' i) = sync_standby_priority (walsnds sh i)
        \/ ((exists w, o = OpInitConfig w /\ i = MyWalSnd w)
            /\ sync_standby_priority (walsnds sh' i) = 1))
    /\ (sync_standbys_defined sh' = sync_standbys_defined sh
        \/ exists names, o = OpUpdateSyncStandbysDefined names).
Proof.
  intros o sh i sh'. subst sh'.
  destruct (apply_op_control o sh) as (M & [W|(w & -> & W)] & F).
  - rewrite W. repeat split; auto.
  - rewrite W. simpl. unfold upd.
    destruct (Nat.eqb_spec i (MyWalSnd w)) as [->|Hi]; simpl.
    + repeat split; auto. right. split; [now exists w | reflexivity].
    + repeat split; auto.
Qed.

(** ** What the order check accepts *)

Lemma ordered_loop_pairs procs :
  forall q last,
    SyncRepQueueIsOrderedByLSN_loop procs q last = true ->
    forall pre x mid y suf,
      q = pre ++ x :: mid ++ y :: suf ->
      waitLSN (procs x) <= waitLSN (procs y).
Proof.
  induction q as [|a q IH]; intros last H pre x mid y suf Hq.
  - destruct pre; discriminate.
  - apply ordered_loop_tail in H. destruct H as [_ H].
    destruct pre as [|b pre]; simpl in Hq; injection Hq as -> ->.
    + apply (ordered_loop_lower procs _ _ H). apply in_or_app. right. now left.
    + exact (IH _ H pre x mid y suf eq_refl).
Qed.

Lemma pairs_ordered_loop procs :
  forall q last,
    (forall p, In p q -> last <= waitLSN (procs p)) ->
    (forall pre x mid y suf,
        q = pre ++ x :: mid ++ y :: suf -> waitLSN (procs x) <= waitLSN (procs y)) ->
    SyncRepQueueIsOrderedByLSN_loop procs q last = true.
Proof.
  induction q as [|a q IH]; intros last Hlow Hpairs; [reflexivity|].
  simpl. destruct (Z.ltb_spec (waitLSN (procs a)) last) as [Hlt|Hge].
  - specialize (Hlow a (or_introl eq_refl)). lia.
  - apply IH.
    + intros p Hp. apply in_split in Hp. destruct Hp as (mid & suf & ->).
      exact (Hpairs [] a mid p suf eq_refl).
    + intros pre x mid y suf ->. exact (Hpairs (a :: pre) x mid y suf eq_refl).
Qed.

(** X8.  SyncRepQueueIsOrderedByLSN answers true exactly when no waiter of
    the queue has a smaller waitLSN than a waiter in front of it (and no
    waitLSN is negative, which an unsigned position never is); in
    particular neighbours with equal waitLSN are accepted. *)
Theorem SyncRepQueueIsOrderedByLSN_iff :
  forall (mode : WaitMode) (sh : Shared),
    SyncRepQueueIsOrderedByLSN mode sh = true
    <-> ((forall p, In p (SyncRepQueue sh mode) -> 0 <= waitLSN (allProcs sh p))
         /\ forall pre x mid y suf,
              SyncRepQueue sh mode = pre ++ x :: mid ++ y :: suf ->
              waitLSN (allProcs sh x) <= waitLSN (allProcs sh y)).
Proof.
  intros mode sh. unfold SyncRepQueueIsOrderedByLSN. split.
  - intros H. split.
    + now apply ordered_loop_lower.
    + now apply (ordered_loop_pairs _ _ 0).
  - intros [H1 H2]. now apply pairs_ordered_loop.
Qed.

(** ** SyncRepQueueInsert on any queue *)

Lemma insert_walk_any procs my :
  forall proc passed,
    (forall p, In p passed -> waitLSN (procs my) <= waitLSN (procs p)) ->
    exists pre suf,
      rev proc ++ passed = pre ++ suf
      /\ SyncRepQueueInsert_walk procs my proc passed = pre ++ my :: suf
      /\ (forall p, In p suf -> waitLSN (procs my) <= waitLSN (procs p))
      /\ (pre = [] \/ exists front t, pre = front ++ [t]
                                      /\ waitLSN (procs t) < waitLSN (procs my)).
Proof.
  induction proc as [|x prev IH]; intros passed Hp.
  - exists [], passed. simpl. repeat split; auto.
  - cbn [SyncRepQueueInsert_walk].
    destruct (Z.ltb_spec (waitLSN (procs x)) (waitLSN (procs my))) as [Hlt|Hge].
    + exists (rev (x :: prev)), passed. repeat split; auto.
      right. exists (rev prev), x. now split.
    + destruct (IH (x :: passed)) as (pre & suf & E & W & S & P).
      { intros p [<-|Hin]; [assumption | now apply Hp]. }
      exists pre, suf. simpl rev. rewrite <- app_assoc. simpl. now repeat split.
Qed.

(** X9.  SyncRepQueueInsert on any queue, ordered or not: the old entries
    keep their order, MyProc is linked between two of them (or at an end),
    everything behind it has a waitLSN at least its own and the entry just in
    front of it, if there is one, has a strictly smaller one; the other
    queue and every PGPROC are untouched.  On an empty queue MyProc becomes
    the only entry, and when the tail has a smaller waitLSN MyProc is
    appended at the tail. *)
Theorem SyncRepQueueInsert_keeps_entries :
  forall (mode : WaitMode) (b : Backend) (sh : Shared),
    let sh' := SyncRepQueueInsert mode b sh in
    let key := waitLSN (allProcs sh (MyProc b)) in
    (exists pre suf,
        SyncRepQueue sh mode = pre ++ suf
        /\ SyncRepQueue sh' mode = pre ++ MyProc b :: suf
        /\ (forall p, In p suf -> key <= waitLSN (allProcs sh p))
        /\ (pre = [] \/ exists front t, pre = front ++ [t]
                                        /\ waitLSN (allProcs sh t) < key))
    /\ SyncRepQueue sh' (other_mode mode) = SyncRepQueue sh (other_mode mode)
    /\ allProcs sh' = allProcs sh
    /\ lsn sh' = lsn sh
    /\ (SyncRepQueue sh mode = [] -> SyncRepQueue sh' mode = [MyProc b])
    /\ (forall front t, SyncRepQueue sh mode = front ++ [t] ->
                        waitLSN (allProcs sh t) < key ->
                        SyncRepQueue sh' mode = front ++ [t; MyProc b]).
Proof.
  intros mode b sh sh' key.
  assert (Hq : SyncRepQueue sh' mode =
               SyncRepQueueInsert_walk (allProcs sh) (MyProc b)
                                       (rev (SyncRepQueue sh mode)) []).
  { subst sh'. simpl. unfold upd_mode. now rewrite WaitMode_eqb_refl. }
  split.
  { destruct (insert_walk_any (allProcs sh) (MyProc b) (rev (SyncRepQueue sh mode)) [])
      as (pre & suf & E & W & S & P); [intros p []|].
    rewrite rev_involutive, app_nil_r in E.
    exists pre, suf. rewrite Hq. now repeat split. }
  split.
  { subst sh'. simpl. unfold upd_mode. now rewrite WaitMode_eqb_other. }
  split; [reflexivity|]. split; [reflexivity|]. split.
  { intros He. rewrite Hq, He. reflexivity. }
  intros front t He Hlt. rewrite Hq, He. rewrite rev_app_distr.
  cbn [rev app SyncRepQueueInsert_walk].
  apply Z.ltb_lt in Hlt. unfold key in Hlt. rewrite Hlt.
  cbn [rev]. rewrite rev_involutive, <- app_assoc. reflexivity.
Qed.

(** ** The entry of SyncRepWaitForLSN *)

Lemma scan_present_iff ws :
  forall len a,
    syncStandbyPresent_scan ws (seq a len) = true
    <-> exists i, (a <= i < a + len)%nat /\ active_standby (ws i) = true.
Proof.
  induction len as [|len IH]; intros a; simpl.
  - split; [discriminate | intros (i & Hi & _); lia].
  - fold (active_standby (ws a)).
    destruct (active_standby (ws a)) eqn:Ha.
    + split; [intros _; exists a; split; [lia | assumption] | reflexivity].
    + rewrite IH. split.
      * intros (i & Hi & Hact). exists i. split; [lia | assumption].
      * intros (i & Hi & Hact). exists i. split; [|assumption].
        destruct (Nat.eq_dec i a) as [->|Hne]; [congruence | lia].
Qed.

(** X10.  A session that passes the fast paths (a sync wait mode, not in
    the SIGUSR1 handler, an active standby seen if it is the dispatcher,
    sync_standbys_defined set if it is not, and a commit position beyond
    [lsn mode]) is enqueued: its slot gets the commit position and
    SYNC_REP_WAITING and is linked into the queue of its mode, every waiter
    already queued stays queued, the other queue, the other PGPROCs and the
    released LSNs are untouched, and the lock is released.  The first pass
    of the sleep loop then ends in WaitLatch exactly when no termination is
    pending and the postmaster is alive; with a termination pending the
    session never sleeps.  On the dispatcher the enqueue happens whatever
    sync_standbys_defined says. *)
Theorem SyncRepWaitForLSN_enqueues :
  forall (XactCommitLSN : XLogRecPtr) (b : Backend) (sh : Shared) (mode : WaitMode),
    InSIGUSR1Handler b = false ->
    SyncRepWaitMode b = Some mode ->
    (if Gp_role_dispatch b
     then exists i, (i < max_wal_senders sh)%nat /\ active_standby (walsnds sh i) = true
     else sync_standbys_defined sh = true) ->
    lsn sh mode < XactCommitLSN ->
    exists sh',
      SyncRepWaitForLSN_enter XactCommitLSN b sh = Enqueued sh'
      /\ (forall alive,
            fst (fst (SyncRepWaitForLSN_pass alive b sh')) = WaitOnLatch
            <-> ProcDiePending b = false /\ alive = true)
      /\ waitLSN (allProcs sh' (MyProc b)) = XactCommitLSN
      /\ syncRepState (allProcs sh' (MyProc b)) = SYNC_REP_WAITING
      /\ In (MyProc b) (SyncRepQueue sh' mode)
      /\ (forall p, In p (SyncRepQueue sh mode) -> In p (SyncRepQueue sh' mode))
      /\ (forall p, In p (SyncRepQueue sh' mode) ->
                    p = MyProc b \/ In p (SyncRepQueue sh mode))
      /\ SyncRepQueue sh' (other_mode mode) = SyncRepQueue sh (other_mode mode)
      /\ (forall p, p <> MyProc b -> allProcs sh' p = allProcs sh p)
      /\ lsn sh' = lsn sh
      /\ SyncRepLock sh' = None.
Proof.
  intros L b sh mode Hsig Hmode Hrole Hlsn.
  set (sh1 := set_syncRepState (MyProc b) SYNC_REP_WAITING
                (set_waitLSN (MyProc b) L (LWLockAcquire LW_EXCLUSIVE sh))).
  exists (LWLockRelease (SyncRepQueueInsert mode b sh1)).
  assert (Hent : SyncRepWaitForLSN_enter L b sh =
                 Enqueued (LWLockRelease (SyncRepQueueInsert mode b sh1))).
  { unfold SyncRepWaitForLSN_enter. rewrite Hsig, Hmode.
    change (walsnds (LWLockAcquire LW_EXCLUSIVE sh)) with (walsnds sh).
    change (max_wal_senders (LWLockAcquire LW_EXCLUSIVE sh)) with (max_wal_senders sh).
    unfold fast_path. change (lsn (LWLockAcquire LW_EXCLUSIVE sh)) with (lsn sh).
    change (sync_standbys_defined (LWLockAcquire LW_EXCLUSIVE sh))
      with (sync_standbys_defined sh).
    apply Z.leb_gt in Hlsn. rewrite Hlsn.
    destruct (Gp_role_dispatch b).
    - destruct Hrole as (i & Hi & Hact).
      assert (Hs : syncStandbyPresent_scan (walsnds sh) (seq 0 (max_wal_senders sh)) = true).
      { apply scan_present_iff. exists i. split; [lia | assumption]. }
      rewrite Hs. reflexivity.
    - rewrite Hrole. reflexivity. }
  split; [exact Hent|].
  destruct (insert_walk_any (allProcs sh1) (MyProc b) (rev (SyncRepQueue sh1 mode)) [])
    as (pre & suf & E & W & _); [intros p []|].
  rewrite rev_involutive, app_nil_r in E.
  change (SyncRepQueue sh1 mode) with (SyncRepQueue sh mode) in E.
  assert (Hq : SyncRepQueue (LWLockRelease (SyncRepQueueInsert mode b sh1)) mode
               = pre ++ MyProc b :: suf).
  { simpl. unfold upd_mode. rewrite WaitMode_eqb_refl. exact W. }
  assert (Hmy : allProcs (LWLockRelease (SyncRepQueueInsert mode b sh1)) (MyProc b)
                = mkPGPROC (pid (allProcs sh (MyProc b))) L SYNC_REP_WAITING
                           (procLatch (allProcs sh (MyProc b)))).
  { simpl. rewrite !upd_same. reflexivity. }
  split.
  { intros alive. rewrite pass_eval, Hmy. cbn [syncRepState SyncRepState_eqb].
    destruct (ProcDiePending b), (Gp_role_dispatch b), (QueryCancelPending b), alive;
      simpl; split; intros H; try discriminate; try (now split);
      destruct H; discriminate. }
  split; [now rewrite Hmy|]. split; [now rewrite Hmy|]. split.
  { rewrite Hq. apply in_or_app. right. now left. }
  split.
  { intros p Hp. rewrite Hq. rewrite E in Hp. apply in_app_or in Hp.
    apply in_or_app. destruct Hp; [now left | right; now right]. }
  split.
  { intros p Hp. rewrite Hq in Hp. rewrite E. apply in_app_or in Hp.
    destruct Hp as [Hp|[<-|Hp]]; [right | now left | right]; apply in_or_app; tauto. }
  split.
  { simpl. unfold upd_mode. now rewrite WaitMode_eqb_other. }
  split.
  { intros p Hp. simpl. now rewrite !upd_other. }
  split; reflexivity.
Qed.

Lemma SyncRepWaitForLSN_enqueues_witness :
  exists sh',
    SyncRepWaitForLSN_enter 1024 (Demo.dispatcher 7) Demo.catching_up = Enqueued sh'
    /\ In 7%nat (SyncRepQueue sh' SYNC_REP_WAIT_FLUSH).
Proof.
  destruct (SyncRepWaitForLSN_enqueues 1024 (Demo.dispatcher 7) Demo.catching_up
                                       SYNC_REP_WAIT_FLUSH eq_refl eq_refl)
    as (sh' & H1 & _ & _ & _ & H2 & _).
  - exists 0%nat. split; [simpl; lia | reflexivity].
  - simpl. lia.
  - exists sh'. now split.
Defined.

(** X11.  On the dispatcher the scan of the sender array finds an active
    standby exactly when some slot below max_wal_senders has a nonzero pid
    and is streaming, or catching up within range; when there is none the
    call returns at once, whatever the commit position and the released LSN
    are, with the lock released and nothing queued. *)
Theorem dispatcher_without_standby_returns :
  forall (sched : list Sleep) (XactCommitLSN : XLogRecPtr) (b : Backend) (sh : Shared)
         (mode : WaitMode),
    InSIGUSR1Handler b = false ->
    SyncRepWaitMode b = Some mode ->
    Gp_role_dispatch b = true ->
    (syncStandbyPresent_scan (walsnds sh) (seq 0 (max_wal_senders sh)) = true
     <-> exists i, (i < max_wal_senders sh)%nat /\ active_standby (walsnds sh i) = true)
    /\ ((forall i, (i < max_wal_senders sh)%nat -> active_standby (walsnds sh i) = false) ->
        SyncRepWaitForLSN sched XactCommitLSN b sh
        = Return (b, LWLockRelease (LWLockAcquire LW_EXCLUSIVE sh))
        /\ SyncRepQueue (LWLockRelease (LWLockAcquire LW_EXCLUSIVE sh)) = SyncRepQueue sh
        /\ allProcs (LWLockRelease (LWLockAcquire LW_EXCLUSIVE sh)) = allProcs sh).
Proof.
  intros sched L b sh mode Hsig Hmode Hd.
  assert (Hiff : syncStandbyPresent_scan (walsnds sh) (seq 0 (max_wal_senders sh)) = true
                 <-> exists i, (i < max_wal_senders sh)%nat
                               /\ active_standby (walsnds sh i) = true).
  { rewrite scan_present_iff. split; intros (i & Hi & Ha); exists i; split;
      try assumption; lia. }
  split; [exact Hiff|].
  intros Hnone.
  assert (Hs : syncStandbyPresent_scan (walsnds sh) (seq 0 (max_wal_senders sh)) = false).
  { destruct (syncStandbyPresent_scan (walsnds sh) (seq 0 (max_wal_senders sh))) eqn:E;
      [|reflexivity].
    destruct (proj1 Hiff eq_refl) as (i & Hi & Ha). rewrite (Hnone i Hi) in Ha.
    discriminate. }
  split; [|split; reflexivity].
  unfold SyncRepWaitForLSN, SyncRepWaitForLSN_enter. rewrite Hsig, Hmode, Hd.
  change (walsnds (LWLockAcquire LW_EXCLUSIVE sh)) with (walsnds sh).
  change (max_wal_senders (LWLockAcquire LW_EXCLUSIVE sh)) with (max_wal_senders sh).
  rewrite Hs. reflexivity.
Qed.

Lemma dispatcher_without_standby_returns_witness :
  SyncRepWaitForLSN [] 4096 (Demo.dispatcher 7) Demo.no_sender
  = Return (Demo.dispatcher 7, LWLockRelease (LWLockAcquire LW_EXCLUSIVE Demo.no_sender)).
Proof.
  destruct (dispatcher_without_standby_returns
              [] 4096 (Demo.dispatcher 7) Demo.no_sender SYNC_REP_WAIT_FLUSH
              eq_refl eq_refl eq_refl) as [_ H].
  apply H. intros i Hi. reflexivity.
Defined.

(** X12.  With a wait mode of SYNC_REP_NO_WAIT, as assign_synchronous_commit
    sets it for every level but remote write and remote flush, or inside the
    SIGUSR1 handler, SyncRepWaitForLSN returns at once: shared memory is
    returned as it is, the lock is not taken and ereport is not called.  For
    remote write and remote flush the wait mode selects the write and the
    flush queue. *)
Theorem assign_synchronous_commit_no_wait :
  forall (newval : SyncCommitLevel) (sched : list Sleep) (XactCommitLSN : XLogRecPtr)
         (b : Backend) (sh : Shared),
    let b' := assign_synchronous_commit newval b in
    SyncRepWaitMode b' =
      match newval with
      | SYNCHRONOUS_COMMIT_REMOTE_WRITE => Some SYNC_REP_WAIT_WRITE
      | SYNCHRONOUS_COMMIT_REMOTE_FLUSH => Some SYNC_REP_WAIT_FLUSH
      | _ => None
      end
    /\ MyProc b' = MyProc b
    /\ ProcDiePending b' = ProcDiePending b
    /\ QueryCancelPending b' = QueryCancelPending b
    /\ (InSIGUSR1Handler b = true \/ SyncRepWaitMode b' = None ->
        SyncRepWaitForLSN sched XactCommitLSN b' sh = Return (b', sh)).
Proof.
  intros newval sched L b sh b'. subst b'.
  split; [now destruct newval|]. split; [now destruct newval|].
  split; [now destruct newval|]. split; [now destruct newval|].
  intros H. unfold SyncRepWaitForLSN, SyncRepWaitForLSN_enter.
  assert (Hh : InSIGUSR1Handler (assign_synchronous_commit newval b) = InSIGUSR1Handler b)
    by now destruct newval.
  rewrite Hh. destruct (InSIGUSR1Handler b); [reflexivity|].
  destruct H as [H|H]; [discriminate|]. now rewrite H.
Qed.

(** ** The death of the postmaster *)

(** X13.  A pass of the sleep loop that finds the slot not complete, no
    termination pending and the postmaster dead: it sets ProcDiePending and
    whereToSendOutput = DestNone, runs SyncRepCancelWait, which unlinks the
    slot and puts it in NOT_WAITING, and leaves the loop.  It makes no report
    about the termination; the only report is the warning about an ignored
    query cancel, when one was pending.  No released LSN and no other PGPROC
    is touched. *)
Theorem postmaster_death_ends_wait :
  forall (b : Backend) (sh : Shared),
    syncRepState (allProcs sh (MyProc b)) <> SYNC_REP_WAIT_COMPLETE ->
    ProcDiePending b = false ->
    let r := SyncRepWaitForLSN_pass false b sh in
    let b' := snd (fst r) in
    let sh' := snd r in
    fst (fst r) = Break
    /\ ProcDiePending b' = true
    /\ whereToSendOutput b' = DestNone
    /\ QueryCancelPending b' = false
    /\ SHMQueueIsDetached (MyProc b) sh' = true
    /\ syncRepState (allProcs sh' (MyProc b)) = SYNC_REP_NOT_WAITING
    /\ (forall mode, SyncRepQueue sh' mode = unlink (MyProc b) (SyncRepQueue sh mode))
    /\ (forall p, p <> MyProc b -> allProcs sh' p = allProcs sh p)
    /\ lsn sh' = lsn sh
    /\ SyncRepLock sh' = None
    /\ exists evs,
         trace sh' = trace sh ++ evs
         /\ filter is_report evs =
            (if QueryCancelPending b then [EvReport WARNING MsgIgnoreQueryCancel] else []).
Proof.
  intros b sh Hst Hdie r b' sh'.
  assert (Hc : SyncRepState_eqb (syncRepState (allProcs sh (MyProc b)))
                                SYNC_REP_WAIT_COMPLETE = false)
    by (destruct (syncRepState (allProcs sh (MyProc b))); try reflexivity; congruence).
  destruct (checked_frame b sh) as (Q & L & _ & _ & _ & P).
  destruct (checked_trace b sh) as (evs & T & _ & R & _).
  subst r b' sh'. rewrite pass_eval, Hc, Hdie.
  destruct (QueryCancelPending b) eqn:Hqc; simpl fst; simpl snd.
  - match goal with |- context [SyncRepCancelWait ?b0 ?s0] =>
      destruct (cancel_wait_spec b0 s0) as (C1 & C2 & C3 & C4 & C5 & C6 & C7) end.
    simpl MyProc in *.
    split; [reflexivity|]. split; [reflexivity|]. split; [reflexivity|].
    split; [reflexivity|]. split; [exact C2|]. split; [exact C3|]. split.
    { intros mode. rewrite C1. simpl. now rewrite Q. }
    split.
    { intros p Hp. rewrite C4 by assumption. simpl. now apply P. }
    split; [rewrite C5; simpl; exact L|]. split; [exact C6|].
    exists (evs ++ [EvReport WARNING MsgIgnoreQueryCancel;
                    EvLWLockAcquire LW_EXCLUSIVE; EvLWLockRelease]).
    split; [rewrite C7; simpl; rewrite T, <- !app_assoc; reflexivity|].
    rewrite filter_app, R. reflexivity.
  - match goal with |- context [SyncRepCancelWait ?b0 ?s0] =>
      destruct (cancel_wait_spec b0 s0) as (C1 & C2 & C3 & C4 & C5 & C6 & C7) end.
    simpl MyProc in *.
    split; [reflexivity|]. split; [reflexivity|]. split; [reflexivity|].
    split; [exact Hqc|]. split; [exact C2|]. split; [exact C3|]. split.
    { intros mode. rewrite C1. now rewrite Q. }
    split.
    { intros p Hp. rewrite C4 by assumption. now apply P. }
    split; [rewrite C5; exact L|]. split; [exact C6|].
    exists (evs ++ [EvLWLockAcquire LW_EXCLUSIVE; EvLWLockRelease]).
    split; [rewrite C7, T, <- !app_assoc; reflexivity|].
    rewrite filter_app, R. reflexivity.
Qed.

Lemma postmaster_death_ends_wait_witness :
  fst (fst (SyncRepWaitForLSN_pass false (Ex.cancelled 2) Ex.sh)) = Break
  /\ SyncRepQueue (snd (SyncRepWaitForLSN_pass false (Ex.cancelled 2) Ex.sh))
                  SYNC_REP_WAIT_FLUSH = [1%nat; 3%nat].
Proof.
  destruct (postmaster_death_ends_wait (Ex.cancelled 2) Ex.sh)
    as (H1 & _ & _ & _ & _ & _ & H2 & _).
  - discriminate.
  - reflexivity.
  - split; [exact H1 | exact (H2 SYNC_REP_WAIT_FLUSH)].
Defined.

(** ** The configuration flag *)

(** X14.  After SyncRepUpdateSyncStandbysDefined the stored flag says
    whether synchronous_standby_names is set, whatever it said before; a
    second call with the same setting changes nothing; turning the flag on
    wakes nobody and leaves queues, PGPROCs and released LSNs as they are;
    and once the flag is off, every SyncRepWaitForLSN of a session that is
    not the dispatcher returns without queueing, whatever its commit
    position. *)
Theorem SyncRepUpdateSyncStandbysDefined_sets_flag :
  forall (names : option string) (sh : Shared),
    let sh' := SyncRepUpdateSyncStandbysDefined names sh in
    sync_standbys_defined sh' = SyncStandbysDefined names
    /\ SyncRepUpdateSyncStandbysDefined names sh' = sh'
    /\ (SyncStandbysDefined names = true ->
        SyncRepQueue sh' = SyncRepQueue sh
        /\ allProcs sh' = allProcs sh
        /\ lsn sh' = lsn sh)
    /\ (SyncStandbysDefined names = false ->
        forall (sched : list Sleep) (XactCommitLSN : XLogRecPtr) (b : Backend),
          Gp_role_dispatch b = false ->
          exists sh'',
            SyncRepWaitForLSN sched XactCommitLSN b sh' = Return (b, sh'')
            /\ SyncRepQueue sh'' = SyncRepQueue sh'
            /\ allProcs sh'' = allProcs sh').
Proof.
  intros names sh sh'.
  assert (Hflag : sync_standbys_defined sh' = SyncStandbysDefined names).
  { subst sh'. unfold SyncRepUpdateSyncStandbysDefined.
    destruct (Bool.eqb (SyncStandbysDefined names) (sync_standbys_defined sh)) eqn:E.
    - simpl. symmetry. now apply Bool.eqb_prop.
    - reflexivity. }
  split; [exact Hflag|]. split.
  { unfold SyncRepUpdateSyncStandbysDefined at 1. rewrite Hflag.
    now rewrite Bool.eqb_reflx. }
  split.
  { intros Hon. subst sh'. unfold SyncRepUpdateSyncStandbysDefined. rewrite Hon.
    destruct (Bool.eqb true (sync_standbys_defined sh)); simpl; repeat split. }
  intros Hoff sched L b Hd.
  unfold SyncRepWaitForLSN, SyncRepWaitForLSN_enter.
  destruct (InSIGUSR1Handler b); [exists sh'; repeat split|].
  destruct (SyncRepWaitMode b) as [mode|]; [|exists sh'; repeat split].
  rewrite Hd. simpl andb. cbv iota.
  unfold fast_path. rewrite Hd.
  change (sync_standbys_defined (LWLockAcquire LW_EXCLUSIVE sh'))
    with (sync_standbys_defined sh').
  rewrite Hflag, Hoff. simpl.
  eexists. repeat split.
Qed.

(** ** Leaving the queue *)

Lemma cancel_wait_settled b s :
  SHMQueueIsDetached (MyProc b) s = true ->
  syncRepState (allProcs s (MyProc b)) = SYNC_REP_NOT_WAITING ->
  allProcs (SyncRepCancelWait b s) (MyProc b) = allProcs s (MyProc b).
Proof.
  intros Hd Hs. unfold SyncRepCancelWait.
  change (SHMQueueIsDetached (MyProc b) (LWLockAcquire LW_EXCLUSIVE s))
    with (SHMQueueIsDetached (MyProc b) s). rewrite Hd. simpl.
  rewrite upd_same. destruct (allProcs s (MyProc b)) as [pi wl st la].
  simpl in *. now subst st.
Qed.

(** X15.  SyncRepCancelWait unlinks the caller's slot and nobody else's, in
    either queue, keeping the order of the others, and puts the slot in
    NOT_WAITING; on a slot that is already detached it leaves both queues as
    they are; called twice it leaves queues and PGPROCs as after the first
    call. *)
Theorem SyncRepCancelWait_idempotent :
  forall (b : Backend) (sh : Shared),
    let s1 := SyncRepCancelWait b sh in
    let s2 := SyncRepCancelWait b s1 in
    (forall mode, SyncRepQueue s1 mode = unlink (MyProc b) (SyncRepQueue sh mode))
    /\ (forall mode p, In p (SyncRepQueue s1 mode)
                       <-> In p (SyncRepQueue sh mode) /\ p <> MyProc b)
    /\ syncRepState (allProcs s1 (MyProc b)) = SYNC_REP_NOT_WAITING
    /\ waitLSN (allProcs s1 (MyProc b)) = waitLSN (allProcs sh (MyProc b))
    /\ (forall p, p <> MyProc b -> allProcs s1 p = allProcs sh p)
    /\ (SHMQueueIsDetached (MyProc b) sh = true -> SyncRepQueue s1 = SyncRepQueue sh)
    /\ (forall mode, SyncRepQueue s2 mode = SyncRepQueue s1 mode)
    /\ (forall p, allProcs s2 p = allProcs s1 p)
    /\ lsn s2 = lsn sh.
Proof.
  intros b sh s1 s2.
  destruct (cancel_wait_spec b sh) as (C1 & C2 & C3 & C4 & C5 & _).
  destruct (cancel_wait_spec b s1) as (D1 & _ & D3 & D4 & D5 & _).
  fold s1 in C1, C2, C3, C4, C5. fold s2 in D1, D3, D4, D5.
  split; [exact C1|]. split.
  { intros mode p. rewrite C1. apply unlink_In. }
  split; [exact C3|]. split.
  { subst s1. unfold SyncRepCancelWait.
    destruct (negb (SHMQueueIsDetached (MyProc b) (LWLockAcquire LW_EXCLUSIVE sh)));
      simpl; now rewrite upd_same. }
  split; [exact C4|]. split.
  { intros Hd. subst s1. unfold SyncRepCancelWait.
    change (SHMQueueIsDetached (MyProc b) (LWLockAcquire LW_EXCLUSIVE sh))
      with (SHMQueueIsDetached (MyProc b) sh). rewrite Hd. reflexivity. }
  split.
  { intros mode. rewrite D1. apply unlink_absent.
    apply detached_iff with (m := mode) in C2. exact C2. }
  split.
  { intros p. destruct (Nat.eq_dec p (MyProc b)) as [->|Hne]; [|now apply D4].
    now apply cancel_wait_settled. }
  now rewrite D5, C5.
Qed.

(** X16.  SyncRepCleanupAtProcExit on a detached slot returns shared memory
    as it is, without taking the lock.  On a linked slot it unlinks the
    slot, keeping the others in order, and, unlike SyncRepCancelWait, leaves
    the slot's syncRepState as it was.  In both cases the slot ends
    detached, and a second call changes nothing. *)
Theorem SyncRepCleanupAtProcExit_detaches :
  forall (b : Backend) (sh : Shared),
    let sh' := SyncRepCleanupAtProcExit b sh in
    (SHMQueueIsDetached (MyProc b) sh = true -> sh' = sh)
    /\ SHMQueueIsDetached (MyProc b) sh' = true
    /\ (forall mode, SyncRepQueue sh' mode = unlink (MyProc b) (SyncRepQueue sh mode))
    /\ allProcs sh' = allProcs sh
    /\ lsn sh' = lsn sh
    /\ SyncRepCleanupAtProcExit b sh' = sh'.
Proof.
  intros b sh sh'.
  assert (Hq : forall mode, SyncRepQueue sh' mode = unlink (MyProc b) (SyncRepQueue sh mode)).
  { intros mode. subst sh'. unfold SyncRepCleanupAtProcExit.
    destruct (SHMQueueIsDetached (MyProc b) sh) eqn:Hd; simpl; [|reflexivity].
    symmetry. apply unlink_absent. now apply detached_iff. }
  assert (Hd' : SHMQueueIsDetached (MyProc b) sh' = true).
  { apply detached_iff. intros m. rewrite Hq. apply unlink_gone. }
  split.
  { intros Hd. subst sh'. unfold SyncRepCleanupAtProcExit. now rewrite Hd. }
  split; [exact Hd'|]. split; [exact Hq|]. split.
  { subst sh'. unfold SyncRepCleanupAtProcExit.
    now destruct (negb (SHMQueueIsDetached (MyProc b) sh)). }
  split.
  { subst sh'. unfold SyncRepCleanupAtProcExit.
    now destruct (negb (SHMQueueIsDetached (MyProc b) sh)). }
  unfold SyncRepCleanupAtProcExit at 1. now rewrite Hd'.
Qed.

(** ** The priority of a sender *)

(** X17.  SyncRepInitConfig stores into the caller's slot alone, and only
    its priority; a second call finds the priority in place and does
    nothing, neither taking the lock nor reporting.  After the call the
    sender passes the entry test of SyncRepReleaseWaiters exactly when it is
    streaming or stopping and its flush position is valid. *)
Theorem SyncRepInitConfig_idempotent :
  forall (w : WalSender) (sh : Shared),
    let sh' := SyncRepInitConfig w sh in
    SyncRepInitConfig w sh' = sh'
    /\ (forall i, i <> MyWalSnd w -> walsnds sh' i = walsnds sh i)
    /\ SyncRepQueue sh' = SyncRepQueue sh
    /\ allProcs sh' = allProcs sh
    /\ lsn sh' = lsn sh
    /\ (release_gate_closed (walsnds sh' (MyWalSnd w)) = false
        <-> ((walsnd_state (walsnds sh (MyWalSnd w)) = WALSNDSTATE_STREAMING
              \/ walsnd_state (walsnds sh (MyWalSnd w)) = WALSNDSTATE_STOPPING)
             /\ flush (walsnds sh (MyWalSnd w)) <> InvalidXLogRecPtr)).
Proof.
  intros w sh sh'.
  assert (Hp : sync_standby_priority (walsnds sh' (MyWalSnd w)) = 1
               /\ walsnd_state (walsnds sh' (MyWalSnd w))
                  = walsnd_state (walsnds sh (MyWalSnd w))
               /\ flush (walsnds sh' (MyWalSnd w)) = flush (walsnds sh (MyWalSnd w))).
  { subst sh'. unfold SyncRepInitConfig, SyncRepGetStandbyPriority.
    destruct (Z.eqb_spec (sync_standby_priority (walsnds sh (MyWalSnd w))) 1) as [He|Hne];
      simpl; [now repeat split|].
    rewrite upd_same. now repeat split. }
  destruct Hp as (Hp & Hs & Hf).
  split.
  { unfold SyncRepInitConfig at 1. unfold SyncRepGetStandbyPriority.
    rewrite Hp. reflexivity. }
  split.
  { intros i Hi. subst sh'. unfold SyncRepInitConfig.
    destruct (negb (sync_standby_priority (walsnds sh (MyWalSnd w))
                    =? SyncRepGetStandbyPriority w)); [|reflexivity].
    simpl. now apply upd_other. }
  assert (Hrest : SyncRepQueue sh' = SyncRepQueue sh /\ allProcs sh' = allProcs sh
                  /\ lsn sh' = lsn sh).
  { subst sh'. unfold SyncRepInitConfig.
    now destruct (negb (sync_standby_priority (walsnds sh (MyWalSnd w))
                        =? SyncRepGetStandbyPriority w)). }
  destruct Hrest as (R1 & R2 & R3).
  split; [exact R1|]. split; [exact R2|]. split; [exact R3|].
  unfold release_gate_closed. rewrite Hp, Hs, Hf. simpl orb.
  unfold XLogRecPtrIsInvalid.
  destruct (Z.eqb_spec (flush (walsnds sh (MyWalSnd w))) InvalidXLogRecPtr) as [He|Hne];
    destruct (walsnd_state (walsnds sh (MyWalSnd w))); simpl;
    split; try discriminate; try tauto;
    intros [[H|H] H']; try discriminate; try contradiction; reflexivity.
Qed.

(** ** A commit is acknowledged only when it is replicated *)

Lemma slot_step_refl my sh sh' :
  allProcs sh' my = allProcs sh my ->
  (forall m, In my (SyncRepQueue sh' m) -> In my (SyncRepQueue sh m)) ->
  (forall m, lsn sh' m = lsn sh m) ->
  slot_step my sh sh'.
Proof.
  intros H1 H2 H3. split; [now left|]. split; [assumption|].
  intros m. rewrite H3. lia.
Qed.

Lemma waiting_for_step my l mode sh sh' :
  slot_step my sh sh' -> waiting_for my l mode sh -> waiting_for my l mode sh'.
Proof.
  intros (Hp & Hq & Hl) (Hw & Ho & Hc).
  split; [|split].
  - destruct Hp as [->|[-> _]]; assumption.
  - intros Hin. apply Ho. now apply Hq.
  - destruct Hp as [Hp|(Hp & m & Hin & Hle)].
    + rewrite Hp. intros Hs. specialize (Hc Hs). specialize (Hl mode). lia.
    + intros _. assert (m = mode).
      { destruct m, mode; try reflexivity; simpl in Ho; contradiction. }
      subst m. now rewrite <- Hw.
Qed.

Lemma release_mode_slot mode w my sh :
  slot_step my sh (fst (release_mode mode w sh)).
Proof.
  unfold release_mode.
  destruct (Z.ltb_spec (lsn sh mode) (reported mode (walsnds sh w))) as [Hlt|Hge].
  - set (pos := reported mode (walsnds sh w)).
    set (sha := emit (EvStoreLsn mode pos) (set_lsn (upd_mode (lsn sh) mode pos) sh)).
    destruct (wake_queue_any false mode sha) as (Q & P & C & _).
    destruct C as (C1 & _).
    set (sh' := fst (SyncRepWakeQueue false mode sha)) in *.
    assert (Hla : lsn sha mode = pos).
    { simpl. unfold upd_mode. now rewrite WaitMode_eqb_refl. }
    split; [|split].
    + rewrite P. change (allProcs sha) with (allProcs sh).
      change (SyncRepQueue sha) with (SyncRepQueue sh). rewrite Hla.
      destruct (mem my (due_prefix false pos (allProcs sh) (SyncRepQueue sh mode))) eqn:Hm;
        [|now left].
      right. split; [reflexivity|]. exists mode.
      apply mem_In, due_prefix_incl in Hm. destruct Hm as [Hin Hd].
      split; [assumption|]. rewrite C1, Hla.
      unfold due in Hd. simpl in Hd. now apply Z.leb_le.
    + intros m Hin. rewrite Q in Hin. apply filter_In in Hin. tauto.
    + intros m. rewrite C1. simpl. unfold upd_mode.
      destruct (WaitMode_eqb m mode) eqn:E; [|lia].
      assert (m = mode) by (destruct m, mode; try reflexivity; discriminate).
      subst m. fold pos. lia.
  - simpl. apply slot_step_refl; auto.
Qed.

Lemma enter_foreign l b my sh :
  MyProc b <> my ->
  slot_step my sh (entry_shared (SyncRepWaitForLSN_enter l b sh)).
Proof.
  intros Hne. unfold SyncRepWaitForLSN_enter.
  destruct (InSIGUSR1Handler b); [apply slot_step_refl; auto|].
  destruct (SyncRepWaitMode b) as [mode|]; [|apply slot_step_refl; auto].
  destruct (Gp_role_dispatch b && _); [apply slot_step_refl; auto|].
  destruct (fast_path b mode l (LWLockAcquire LW_EXCLUSIVE sh));
    [apply slot_step_refl; auto|].
  simpl entry_shared.
  set (sh1 := set_syncRepState (MyProc b) SYNC_REP_WAITING
                (set_waitLSN (MyProc b) l (LWLockAcquire LW_EXCLUSIVE sh))).
  apply slot_step_refl; try reflexivity.
  - simpl. rewrite !upd_other by congruence. reflexivity.
  - intros m Hin. simpl in Hin. unfold upd_mode in Hin.
    destruct (WaitMode_eqb m mode) eqn:E; [|exact Hin].
    assert (m = mode) by (destruct m, mode; try reflexivity; discriminate). subst m.
    destruct (insert_walk_any (allProcs sh1) (MyProc b) (rev (SyncRepQueue sh mode)) [])
      as (pre & suf & E1 & W & _); [intros p []|].
    rewrite rev_involutive, app_nil_r in E1.
    change (SyncRepQueueInsert_walk
              (upd (upd (allProcs sh) (MyProc b)
                        {| pid := pid (allProcs sh (MyProc b)); waitLSN := l;
                           syncRepState := syncRepState (allProcs sh (MyProc b));
                           procLatch := procLatch (allProcs sh (MyProc b)) |})
                   (MyProc b) _) (MyProc b) (rev (SyncRepQueue sh mode)) [])
      with (SyncRepQueueInsert_walk (allProcs sh1) (MyProc b)
                                    (rev (SyncRepQueue sh mode)) []) in Hin.
    rewrite W in Hin. rewrite E1. apply in_app_or in Hin. apply in_or_app.
    destruct Hin as [Hin|[Hin|Hin]]; [now left | congruence | now right].
Qed.

Lemma pass_foreign alive b my sh :
  MyProc b <> my ->
  slot_step my sh (snd (SyncRepWaitForLSN_pass alive b sh)).
Proof.
  intros Hne.
  destruct (checked_frame b sh) as (Q & L & _ & _ & _ & P).
  assert (Hk : slot_step my sh (checked b sh)).
  { apply slot_step_refl.
    - apply P. congruence.
    - intros m. now rewrite Q.
    - intros m. now rewrite L. }
  assert (Hcw : forall b0 s0, MyProc b0 = MyProc b ->
                              allProcs s0 my = allProcs (checked b sh) my ->
                              SyncRepQueue s0 = SyncRepQueue (checked b sh) ->
                              lsn s0 = lsn (checked b sh) ->
                              slot_step my sh (SyncRepCancelWait b0 s0)).
  { intros b0 s0 Hb Ha Hq Hl.
    destruct (cancel_wait_spec b0 s0) as (C1 & _ & _ & C4 & C5 & _).
    apply slot_step_refl.
    - rewrite C4 by congruence. rewrite Ha. apply P. congruence.
    - intros m Hin. rewrite C1, Hq, Q in Hin. apply unlink_In in Hin. tauto.
    - intros m. now rewrite C5, Hl, L. }
  rewrite pass_eval.
  destruct (SyncRepState_eqb _ SYNC_REP_WAIT_COMPLETE); [exact Hk|].
  destruct (ProcDiePending b);
    [destruct (Gp_role_dispatch b); simpl snd; [now apply Hcw | exact Hk]|].
  destruct (QueryCancelPending b), alive; simpl snd; try exact Hk; now apply Hcw.
Qed.

Lemma apply_op_slot my o sh :
  foreign my o -> drains o = false -> slot_step my sh (apply_op sh o).
Proof.
  intros Hf Hd. destruct o; simpl in Hf, Hd; simpl apply_op.
  - now apply enter_foreign.
  - now apply pass_foreign.
  - apply slot_step_refl; try reflexivity; [|auto].
    unfold SyncRepWaitForLSN_leave. simpl. now rewrite !upd_other by congruence.
  - destruct (cancel_wait_spec b sh) as (C1 & _ & _ & C4 & C5 & _).
    apply slot_step_refl.
    + apply C4. congruence.
    + intros m Hin. rewrite C1 in Hin. apply unlink_In in Hin. tauto.
    + intros m. now rewrite C5.
  - unfold SyncRepCleanupAtProcExit.
    destruct (negb (SHMQueueIsDetached (MyProc b) sh)); apply slot_step_refl; auto.
    intros m Hin. simpl in Hin. apply unlink_In in Hin. tauto.
  - unfold SyncRepInitConfig.
    destruct (negb (sync_standby_priority (walsnds sh (MyWalSnd w))
                    =? SyncRepGetStandbyPriority w)); apply slot_step_refl; auto.
  - unfold SyncRepReleaseWaiters.
    destruct (release_gate_closed (walsnds sh (MyWalSnd w)));
      [apply slot_step_refl; auto|].
    destruct (negb (is_walsnd (elected (LWLockAcquire LW_EXCLUSIVE sh)) (MyWalSnd w)));
      [apply slot_step_refl; auto|].
    pose proof (release_mode_slot SYNC_REP_WAIT_WRITE (MyWalSnd w) my
                                  (LWLockAcquire LW_EXCLUSIVE sh)) as S1.
    destruct (release_mode SYNC_REP_WAIT_WRITE (MyWalSnd w) (LWLockAcquire LW_EXCLUSIVE sh))
      as [sh1 n1]. simpl fst in S1.
    pose proof (release_mode_slot SYNC_REP_WAIT_FLUSH (MyWalSnd w) my sh1) as S2.
    destruct (release_mode SYNC_REP_WAIT_FLUSH (MyWalSnd w) sh1) as [sh2 n2].
    simpl fst in S2.
    assert (S : slot_step my sh sh2).
    { destruct S1 as (P1 & Q1 & L1), S2 as (P2 & Q2 & L2).
      change (allProcs (LWLockAcquire LW_EXCLUSIVE sh)) with (allProcs sh) in *.
      change (SyncRepQueue (LWLockAcquire LW_EXCLUSIVE sh)) with (SyncRepQueue sh) in *.
      change (lsn (LWLockAcquire LW_EXCLUSIVE sh)) with (lsn sh) in *.
      split; [|split].
      - destruct P2 as [P2|(P2 & m & Hin & Hle)].
        + rewrite P2. destruct P1 as [P1|(P1 & m & Hin & Hle)]; [now left|].
          right. split; [assumption|]. exists m. split; [assumption|].
          specialize (L2 m). lia.
        + right. destruct P1 as [P1|(P1 & m1 & Hin1 & Hle1)].
          * rewrite P1 in P2, Hle. split; [assumption|]. exists m.
            split; [now apply Q1 | assumption].
          * rewrite P1 in P2, Hle. split; [rewrite P2; reflexivity|].
            exists m. split; [now apply Q1 | assumption].
      - intros m Hin. now apply Q1, Q2.
      - intros m. specialize (L1 m). specialize (L2 m). lia. }
    destruct (announce_next_takeover w); exact S.
  - unfold SyncRepUpdateSyncStandbysDefined.
    apply negb_false_iff in Hd. rewrite Hd.
    destruct (negb (Bool.eqb true (sync_standbys_defined sh)));
      apply slot_step_refl; auto.
Qed.

Lemma run_waiting_for my l mode :
  forall ops sh,
    Forall (foreign my) ops ->
    Forall (fun o => drains o = false) ops ->
    waiting_for my l mode sh ->
    waiting_for my l mode (run ops sh).
Proof.
  unfold run. induction ops as [|o ops IH]; intros sh Hf Hd Hw; [exact Hw|].
  inversion Hf; inversion Hd; subst. simpl. apply IH; try assumption.
  apply (waiting_for_step my l mode sh); [|assumption].
  now apply apply_op_slot.
Qed.

Lemma checked_waiting_for b l mode sh :
  waiting_for (MyProc b) l mode sh -> waiting_for (MyProc b) l mode (checked b sh).
Proof.
  destruct (checked_frame b sh) as (Q & L & _ & _ & P & _).
  intros (Hw & Ho & Hc). destruct (P (MyProc b)) as (P1 & P2 & _).
  split; [now rewrite P1|]. split; [now rewrite Q|]. now rewrite P2, L.
Qed.

Lemma deliver_MyProc s b : MyProc (deliver s b) = MyProc b.
Proof. unfold deliver. now destruct (die_arrives s), (cancel_arrives s). Qed.

Lemma loop_ack_safe l mode :
  forall plans b sh b' sh',
    waiting_for (MyProc b) l mode sh ->
    Forall (undisturbed (MyProc b)) plans ->
    SyncRepWaitForLSN_loop (map sleep_of plans) b sh = Return (b', sh') ->
    ProcDiePending b' = true \/ l <= lsn sh' mode.
Proof.
  induction plans as [|[[[alive die] cancel] ops] plans IH];
    intros b sh b' sh' Hw Hplans Hloop; [discriminate|].
  inversion Hplans as [|? ? [Hf Hd] Hrest]; subst. simpl in Hf, Hd.
  cbn [map SyncRepWaitForLSN_loop sleep_of postmaster_alive] in Hloop.
  rewrite pass_eval in Hloop.
  pose proof (checked_waiting_for b l mode sh Hw) as Hk.
  destruct (checked_frame b sh) as (_ & _ & _ & _ & P & _).
  destruct (P (MyProc b)) as (_ & P2 & _).
  destruct (SyncRepState_eqb (syncRepState (allProcs sh (MyProc b)))
                             SYNC_REP_WAIT_COMPLETE) eqn:Hc.
  - injection Hloop as <- <-. right. destruct Hk as (_ & _ & Hk). apply Hk.
    rewrite P2. destruct (syncRepState (allProcs sh (MyProc b))); try discriminate.
    reflexivity.
  - destruct (ProcDiePending b) eqn:Hdie.
    + destruct (Gp_role_dispatch b); [|discriminate].
      injection Hloop as <- <-. now left.
    + destruct (QueryCancelPending b), alive;
        try (injection Hloop as <- <-; now left).
      * cbn [others] in Hloop.
        apply (IH _ _ _ _) in Hloop; [exact Hloop | | ].
        -- rewrite deliver_MyProc. simpl MyProc.
           apply run_waiting_for; first [assumption | exact Hk].
        -- rewrite deliver_MyProc. exact Hrest.
      * cbn [others] in Hloop.
        apply (IH _ _ _ _) in Hloop; [exact Hloop | | ].
        -- rewrite deliver_MyProc.
           apply run_waiting_for; try assumption.
        -- rewrite deliver_MyProc. exact Hrest.
Qed.

Lemma enter_enqueued l b sh mode :
  InSIGUSR1Handler b = false ->
  SyncRepWaitMode b = Some mode ->
  (if Gp_role_dispatch b
   then syncStandbyPresent_scan (walsnds sh) (seq 0 (max_wal_senders sh)) = true
   else sync_standbys_defined sh = true) ->
  lsn sh mode < l ->
  SyncRepWaitForLSN_enter l b sh =
  Enqueued (LWLockRelease
              (SyncRepQueueInsert mode b
                 (set_syncRepState (MyProc b) SYNC_REP_WAITING
                    (set_waitLSN (MyProc b) l (LWLockAcquire LW_EXCLUSIVE sh))))).
Proof.
  intros Hsig Hmode Hrole Hlsn.
  unfold SyncRepWaitForLSN_enter. rewrite Hsig, Hmode.
  change (walsnds (LWLockAcquire LW_EXCLUSIVE sh)) with (walsnds sh).
  change (max_wal_senders (LWLockAcquire LW_EXCLUSIVE sh)) with (max_wal_senders sh).
  unfold fast_path. change (lsn (LWLockAcquire LW_EXCLUSIVE sh)) with (lsn sh).
  change (sync_standbys_defined (LWLockAcquire LW_EXCLUSIVE sh))
    with (sync_standbys_defined sh).
  apply Z.leb_gt in Hlsn. rewrite Hlsn.
  destruct (Gp_role_dispatch b); rewrite Hrole; reflexivity.
Qed.

(** X18.  A call of SyncRepWaitForLSN by a session in a sync wait mode that
    has to wait (not in the SIGUSR1 handler; on the dispatcher an active
    standby is present, elsewhere sync_standbys_defined is set) and enters
    with its slot detached: if, while it sleeps, only other processes run
    and none of them finds synchronous_standby_names unset, then the call
    returns without ProcDiePending only when the released LSN of its mode
    has reached the commit position. *)
Theorem ack_implies_replicated :
  forall (plans : list (bool * bool * bool * list CoreOp))
         (XactCommitLSN : XLogRecPtr) (b : Backend) (sh : Shared) (mode : WaitMode)
         (b' : Backend) (sh' : Shared),
    InSIGUSR1Handler b = false ->
    SyncRepWaitMode b = Some mode ->
    (if Gp_role_dispatch b
     then syncStandbyPresent_scan (walsnds sh) (seq 0 (max_wal_senders sh)) = true
     else sync_standbys_defined sh = true) ->
    SHMQueueIsDetached (MyProc b) sh = true ->
    Forall (undisturbed (MyProc b)) plans ->
    SyncRepWaitForLSN (map sleep_of plans) XactCommitLSN b sh = Return (b', sh') ->
    ProcDiePending b' = false ->
    XactCommitLSN <= lsn sh' mode.
Proof.
  intros plans l b sh mode b' sh' Hsig Hmode Hrole Hdet Hplans Hret Hlive.
  destruct (Z.le_gt_cases l (lsn sh mode)) as [Hle|Hgt].
  - (* the fast path *)
    assert (Hent : SyncRepWaitForLSN_enter l b sh =
                   Returned (LWLockRelease (LWLockAcquire LW_EXCLUSIVE sh))).
    { unfold SyncRepWaitForLSN_enter. rewrite Hsig, Hmode.
      change (walsnds (LWLockAcquire LW_EXCLUSIVE sh)) with (walsnds sh).
      change (max_wal_senders (LWLockAcquire LW_EXCLUSIVE sh)) with (max_wal_senders sh).
      unfold fast_path. change (lsn (LWLockAcquire LW_EXCLUSIVE sh)) with (lsn sh).
      apply Z.leb_le in Hle. rewrite Hle, orb_true_r.
      destruct (Gp_role_dispatch b); [rewrite Hrole|]; reflexivity. }
    unfold SyncRepWaitForLSN in Hret. rewrite Hent in Hret.
    injection Hret as <- <-. exact Hle.
  - unfold SyncRepWaitForLSN in Hret.
    rewrite (enter_enqueued l b sh mode Hsig Hmode Hrole) in Hret by lia.
    set (sh1 := LWLockRelease _) in Hret.
    assert (Hw : waiting_for (MyProc b) l mode sh1).
    { split; [|split].
      - unfold sh1. simpl. now rewrite !upd_same.
      - unfold sh1. simpl. unfold upd_mode. rewrite WaitMode_eqb_other.
        apply detached_iff with (m := other_mode mode) in Hdet. exact Hdet.
      - unfold sh1. simpl. rewrite !upd_same. simpl. discriminate. }
    destruct (SyncRepWaitForLSN_loop (map sleep_of plans) b sh1)
      as [[b2 sh2]| |[b2 sh2]] eqn:Hloop; [|discriminate|discriminate].
    injection Hret as <- <-.
    destruct (loop_ack_safe l mode plans b sh1 b2 sh2 Hw Hplans Hloop) as [Hd|Hle];
      [congruence | exact Hle].
Qed.

Lemma ack_implies_replicated_witness :
  512 <= lsn (match SyncRepWaitForLSN
                      (map sleep_of [(true, false, false, [OpReleaseWaiters (Ex.sender 0)]);
                                     (true, false, false, [])])
                      512 (Ex.session 7) Ex.fresh with
              | Return (_, sh') => sh'
              | _ => Ex.fresh
              end) SYNC_REP_WAIT_FLUSH.
Proof.
  apply (ack_implies_replicated
           [(true, false, false, [OpReleaseWaiters (Ex.sender 0)]);
            (true, false, false, [])]
           512 (Ex.session 7) Ex.fresh SYNC_REP_WAIT_FLUSH
           (match SyncRepWaitForLSN
                    (map sleep_of [(true, false, false, [OpReleaseWaiters (Ex.sender 0)]);
                                   (true, false, false, [])])
                    512 (Ex.session 7) Ex.fresh with
            | Return (b', _) => b'
            | _ => Ex.session 7
            end)).
  - reflexivity.
  - reflexivity.
  - reflexivity.
  - reflexivity.
  - repeat constructor.
  - vm_compute. reflexivity.
  - vm_compute. reflexivity.
Defined.

(** ** A release lets the waiting commit return *)



